(** * pack: build orchestration and buildpack packaging

    A shallow embedding of the client build workflow (package [pack]) and of
    the buildpack package builder (package [buildpackage]), followed by the
    properties established about them.

    Go values are represented as follows.
    - [string] is a Go string (a sequence of bytes); [list string] a
      [[]string] slice, whose [nil] and empty values are both [[]].
    - [map[string]interface{}] used as a set is a [gset string].
    - the process environment is a [gmap string string].
    - a possibly-nil pointer or interface is an [option].
    - [error] results are a sum or an [option] holding the message.
    - calls into collaborators (image store, lifecycle, docker) are recorded
      in an explicit trace, their outcomes being supplied by the caller. *)

From Stdlib Require Import Ascii.
From stdpp Require Import gmap strings list sorting.

Set Default Proof Using "Type".

(** ** The Go standard library, as far as the client uses it *)

Module GoStrings.

(** [strings.Split(s, sep)] for a one-byte separator: the substrings of
    [s] between occurrences of [sep]; a string without [sep] is returned
    as its only segment.  The segments hold no [sep] and joined by [sep]
    they give [s] back (see [Split_segments] and [Join_Split]). *)
Fixpoint Split (sep : ascii) (s : string) : list string :=
  match s with
  | EmptyString => [EmptyString]
  | String c rest =>
      if Ascii.eqb c sep then EmptyString :: Split sep rest
      else match Split sep rest with
           | seg :: segs => String c seg :: segs
           | [] => [String c EmptyString]
           end
  end.

(** [strings.Join(elems, sep)]. *)
Definition Join (elems : list string) (sep : string) : string :=
  String.concat sep elems.

(** [sort.Strings]: sorts in increasing byte-wise lexicographic order.
    The order is total and antisymmetric, so the sorted slice does not
    depend on the sorting algorithm (see [Strings_unique]). *)
Definition Strings (a : list string) : list string :=
  merge_sort String.le a.

(** Whether the byte [c] occurs in [s]. *)
Fixpoint contains (c : ascii) (s : string) : bool :=
  match s with
  | EmptyString => false
  | String d rest => Ascii.eqb d c || contains c rest
  end.

(** One lower-case hexadecimal digit. *)
Definition hexDigit (n : N) : ascii :=
  if (n <? 10)%N then ascii_of_N (48 + n) else ascii_of_N (87 + n).

(** [fmt.Sprintf("%x", s)] for a string [s]: two lower-case hexadecimal
    digits per byte. *)
Fixpoint hex (s : string) : string :=
  match s with
  | EmptyString => EmptyString
  | String c rest =>
      let n := N_of_ascii c in
      String (hexDigit (n / 16)) (String (hexDigit (n mod 16)) (hex rest))
  end.

End GoStrings.

(** Package [stringset]. *)
Module stringset.

(** [stringset.FromSlice]: the set of the elements of a slice. *)
Definition FromSlice (strings : list string) : gset string :=
  list_to_set strings.

End stringset.

(** ** Package [style] *)

Module style.

(** Modelled from the spec: [style.Symbol] is not among the sources.  The
    messages expected by the tests, which switch colours off, show the
    value between single quotes. *)
Definition Symbol (value : string) : string := "'" +:+ value +:+ "'".

End style.

(** ** Package [dist]: buildpack descriptors *)

Module dist.

Record BuildpackInfo := {
  ID : string;
  Version : string;
}.

Record Stack := {
  stack_ID : string;
  Mixins : list string;
}.

(** A [BuildpackRef] embeds a [BuildpackInfo]. *)
Record BuildpackRef := {
  ref_BuildpackInfo : BuildpackInfo;
}.

Record OrderEntry := {
  Group : list BuildpackRef;
}.

Record BuildpackDescriptor := {
  API : string;
  Info : BuildpackInfo;
  Stacks : list Stack;
  Order : list OrderEntry;
}.

(** A buildpack: what [Descriptor()] returns, and its raw content. *)
Record Buildpack := {
  Descriptor : BuildpackDescriptor;
  Content : string;
}.

Record BuildpackLayerInfo := {
  layer_Stacks : list Stack;
  layer_Order : list OrderEntry;
  LayerDiffID : string;
}.

(** [BuildpackLayers]: buildpack ID, then version, to layer
    information. *)
Abbreviation BuildpackLayers := (gmap string (gmap string BuildpackLayerInfo)).

Definition BuildpackLayersLabel : string := "io.buildpacks.buildpack.layers".

(** Modelled from the spec: [AddBuildpackToLayersMD] is not among the
    sources; it records, under the buildpack's ID and version, the
    descriptor's stacks and order and the layer's digest. *)
Definition AddBuildpackToLayersMD (layerMD : BuildpackLayers)
    (descriptor : BuildpackDescriptor) (diffID : string) : BuildpackLayers :=
  let info := Info descriptor in
  let entry := {| layer_Stacks := Stacks descriptor;
                  layer_Order := Order descriptor;
                  LayerDiffID := diffID |} in
  <[ID info := <[Version info := entry]> (default ∅ (layerMD !! ID info))]>
    layerMD.

(** Modelled from the spec: [BuildpackInfo.FullName] is not among the
    sources.  The tests show the ID and the version around an [@]. *)
Definition FullName (b : BuildpackInfo) : string :=
  ID b +:+ "@" +:+ Version b.

#[global] Instance BuildpackInfo_eq_dec : EqDecision BuildpackInfo.
Proof. solve_decision. Defined.

End dist.

(** ** Package [stack] *)

Module stack.

(** The mixins of the first stack of [stacks] whose ID is [id]. *)
Fixpoint mixinsOf (id : string) (stacks : list dist.Stack)
    : option (list string) :=
  match stacks with
  | [] => None
  | s :: rest =>
      if decide (dist.stack_ID s = id) then Some (dist.Mixins s)
      else mixinsOf id rest
  end.

(** Modelled from the spec: [MergeCompatible] is not among the sources.
    It returns the stacks present (by ID) in both [a] and [b], the mixins
    of each being the union of the mixins declared for that ID in [a] and
    in [b]; it is empty when no ID is shared. *)
Definition MergeCompatible (a b : list dist.Stack) : list dist.Stack :=
  omap (λ s,
          match mixinsOf (dist.stack_ID s) b with
          | Some mb =>
              Some {| dist.stack_ID := dist.stack_ID s;
                      dist.Mixins := list_union (dist.Mixins s) mb |}
          | None => None
          end) a.

End stack.

(** ** Stateful, fallible computations

    A computation over a state [S] returns the new state and either an
    error message or a result. *)

Module Eff.

Definition M (S A : Type) : Type := S → S * (string + A).

Definition ret {S A} (a : A) : M S A := λ s, (s, inr a).

Definition fail {S A} (msg : string) : M S A := λ s, (s, inl msg).

Definition bind {S A B} (m : M S A) (k : A → M S B) : M S B :=
  λ s, match m s with
       | (s', inr a) => k a s'
       | (s', inl e) => (s', inl e)
       end.

(** [errors.Wrap(err, msg)]: the message is prefixed to the cause. *)
Definition Wrap (err msg : string) : string := msg +:+ ": " +:+ err.

(** Runs [m], wrapping its error, if any, with [msg]. *)
Definition wrapped {S A} (msg : string) (m : M S A) : M S A :=
  λ s, match m s with
       | (s', inl e) => (s', inl (Wrap e msg))
       | r => r
       end.

(** Lifts a pure fallible result. *)
Definition lift {S A} (r : string + A) : M S A := λ s, (s, r).

(** [defer d; body]: [d] runs when the function returns, whatever
    [body] returned; the result of [d] is discarded. *)
Definition defer {S A B} (d : M S B) (body : M S A) : M S A :=
  λ s, match body s with
       | (s', r) => ((d s').1, r)
       end.

Definition get {S} : M S S := λ s, (s, inr s).

Definition modify {S} (f : S → S) : M S unit := λ s, (f s, inr tt).

End Eff.

Notation "'letM' x ':=' m 'in' k" := (Eff.bind m (λ x, k))
  (at level 10, x name, m at level 100, k at level 200, only parsing).
Notation "'doM' m 'in' k" := (Eff.bind m (λ _, k))
  (at level 10, m at level 100, k at level 200, only parsing).

(** ** The image store

    Images are reached through handles.  A handle is shared by everyone
    holding it: renaming an image through one copy of the handle is seen
    through every other copy. *)

Module imgutil.

(** What an image holds, as far as the client looks at it. *)
Record Image := {
  Name : string;
  (** the platform API version of the builder metadata label, if the
      image carries that label *)
  BuilderMetadata : option string;
  Env : list (string * string);
  Layers : list dist.BuildpackInfo;
  OrderMD : list dist.OrderEntry;
}.

Definition withName (name : string) (img : Image) : Image :=
  {| Name := name; BuilderMetadata := BuilderMetadata img; Env := Env img;
     Layers := Layers img; OrderMD := OrderMD img |}.

(** The live handles, and the images the local daemon stores by name. *)
Record Store := {
  handles : gmap nat Image;
  daemon : gmap string Image;
}.

Definition setHandle (h : nat) (img : Image) (st : Store) : Store :=
  {| handles := <[h := img]> (handles st); daemon := daemon st |}.

(** Reading through a handle; a handle that is not live is a nil
    image, and using it panics. *)
Definition deref (h : nat) : Eff.M Store Image :=
  λ st, match handles st !! h with
        | Some img => (st, inr img)
        | None => (st, inl "panic: nil image")
        end.

(** Modelled from the spec: [Image.Name]. *)
Definition GetName (h : nat) : Eff.M Store string :=
  letM img := deref h in Eff.ret (Name img).

(** Modelled from the spec: [Image.rename(newRef)] returns nothing and
    changes the name held by the handle. *)
Definition Rename (h : nat) (name : string) : Eff.M Store unit :=
  letM img := deref h in Eff.modify (setHandle h (withName name img)).

Section with_save.
(** Whether saving an image fails, and with which error. *)
Variable saveErr : Image → option string.

(** Modelled from the spec: [Image.save() → error] stores the image
    under the name its handle holds. *)
Definition Save (h : nat) : Eff.M Store unit :=
  letM img := deref h in
  match saveErr img with
  | Some e => Eff.fail e
  | None =>
      Eff.modify (λ st, {| handles := handles st;
                           daemon := <[Name img := img]> (daemon st) |})
  end.
End with_save.

End imgutil.

(** ** Package [builder] *)

Module builder.

(** A builder under construction: the handle of its image, and what was
    requested of it so far. *)
Record Builder := {
  image : nat;
  env : list (string * string);
  additionalBuildpacks : list dist.Buildpack;
  order : option (list dist.OrderEntry);
}.

(** Modelled from the spec: [FromImage] loads the builder metadata from
    the image it is given, and fails when there is none. *)
Definition FromImage (img : nat) : Eff.M imgutil.Store Builder :=
  letM i := imgutil.deref img in
  match imgutil.BuilderMetadata i with
  | Some _ =>
      Eff.ret {| image := img; env := []; additionalBuildpacks := [];
                 order := None |}
  | None => Eff.fail "builder metadata label is missing"
  end.

Definition SetEnv (e : list (string * string)) (b : Builder) : Builder :=
  {| image := image b; env := e;
     additionalBuildpacks := additionalBuildpacks b; order := order b |}.

Definition AddBuildpack (bp : dist.Buildpack) (b : Builder) : Builder :=
  {| image := image b; env := env b;
     additionalBuildpacks := additionalBuildpacks b ++ [bp];
     order := order b |}.

Definition SetOrder (o : list dist.OrderEntry) (b : Builder) : Builder :=
  {| image := image b; env := env b;
     additionalBuildpacks := additionalBuildpacks b; order := Some o |}.

(** The image of [b] with the requested changes applied. *)
Definition compose (b : Builder) (i : imgutil.Image) : imgutil.Image :=
  {| imgutil.Name := imgutil.Name i;
     imgutil.BuilderMetadata := imgutil.BuilderMetadata i;
     imgutil.Env := env b;
     imgutil.Layers :=
       imgutil.Layers i
       ++ map (λ bp, dist.Info (dist.Descriptor bp)) (additionalBuildpacks b);
     imgutil.OrderMD := default (imgutil.OrderMD i) (order b) |}.

Section with_save.
Variable saveErr : imgutil.Image → option string.

(** Modelled from the spec: [Builder.Save] applies the environment,
    the added buildpacks and the order to the builder's image,
    persists that image locally and returns its handle. *)
Definition Save (b : Builder) : Eff.M imgutil.Store nat :=
  letM i := imgutil.deref (image b) in
  doM Eff.modify (imgutil.setHandle (image b) (compose b i)) in
  doM imgutil.Save saveErr (image b) in
  Eff.ret (image b).
End with_save.

(** Modelled from the spec: [Image.PlatformAPIVersion], read from the
    builder metadata; empty when the metadata is missing. *)
Definition PlatformAPIVersion (i : imgutil.Image) : string :=
  default "" (imgutil.BuilderMetadata i).

End builder.

(** ** Package [pack]: the build client *)

Module pack.

(** The capability view [builderImage]. *)
Record builderImage := {
  b_CommonMixins : list string;
  b_BuildOnlyMixins : list string;
  b_StackID : string;
  b_BuildpackLayers : dist.BuildpackLayers;
}.

(** The capability view [runImage]. *)
Record runImage := {
  r_Name : string;
  r_CommonMixins : list string;
  r_RunOnlyMixins : list string;
}.

Record ProxyConfig := {
  HTTPProxy : string;
  HTTPSProxy : string;
  NoProxy : string;
}.

(** [findMissing]: the loop appends to [missing] each element of
    [required] that is not a key of [actualSet]. *)
Definition findMissing (actual required : list string) : list string :=
  let actualSet := stringset.FromSlice actual in
  foldl (fun missing m =>
           if decide (m ∈ actualSet) then missing else missing ++ [m])
        [] required.

Section with_style.
(** [style.Symbol], the decoration put around a name in messages. *)
Variable Symbol : string → string.

(** [validateCommonMixins]: [None] is the [nil] error. *)
Definition validateCommonMixins (builderImg : builderImage)
    (runImg : runImage) : option string :=
  let missing :=
    findMissing (r_CommonMixins runImg) (b_CommonMixins builderImg) in
  if decide (0 < length missing) then
    let missing := GoStrings.Strings missing in
    Some (Symbol (r_Name runImg) +:+ " missing required mixin(s): "
          +:+ GoStrings.Join missing ", ")
  else None.
End with_style.

(** [assembleAvailableMixins]. *)
Definition assembleAvailableMixins (builderImg : builderImage)
    (runImg : runImage) : list string :=
  let bMixins := stringset.FromSlice (b_CommonMixins builderImg) in
  let inBoth :=
    foldl (fun inBoth m =>
             if decide (m ∈ bMixins) then inBoth ++ [m] else inBoth)
          [] (r_CommonMixins runImg) in
  inBoth ++ (b_BuildOnlyMixins builderImg ++ r_RunOnlyMixins runImg).

(** *** Logging *)

Inductive logEntry :=
| Warn (msg : string)
| Debug (msg : string).

(** [parseBuildpack]: the pair of results, and what was logged. *)
Definition parseBuildpack (bp : string) : (string * string) * list logEntry :=
  let parts := GoStrings.Split "@" bp in
  if decide (length parts = 2) then
    if decide (parts !!! 1%nat = "latest") then
      ((parts !!! 0%nat, ""),
       [Warn "@latest syntax is deprecated, will not work in future releases"])
    else ((parts !!! 0%nat, parts !!! 1%nat), [])
  else ((parts !!! 0%nat, ""), []).

(** *** Reading the process environment

    A computation reading the environment returns its result and the
    names of the variables it consulted, in order. *)

Definition EnvM (A : Type) : Type := gmap string string → A * list string.

Definition env_ret {A} (a : A) : EnvM A := λ _, (a, []).

Definition env_bind {A B} (m : EnvM A) (k : A → EnvM B) : EnvM B :=
  λ env, let '(a, t1) := m env in
         let '(b, t2) := k a env in
         (b, t1 ++ t2).

(** [os.LookupEnv]. *)
Definition LookupEnv (key : string) : EnvM (string * bool) :=
  λ env, (match env !! key with
          | Some v => (v, true)
          | None => ("", false)
          end, [key]).

(** [os.Getenv]. *)
Definition Getenv (key : string) : EnvM string :=
  λ env, (default "" (env !! key), [key]).

Notation "'letE' x ':=' m 'in' k" := (env_bind m (λ x, k))
  (at level 10, x name, m at level 100, k at level 200, only parsing).

(** The pattern [if v, ok = os.LookupEnv(upper); !ok { v = os.Getenv(lower) }]. *)
Definition lookupWithFallback (upper lower : string) : EnvM string :=
  letE r := LookupEnv upper in
  let '(v, ok) := r in
  if ok : bool then env_ret v else Getenv lower.

(** [processProxyConfig]. *)
Definition processProxyConfig (config : option ProxyConfig) : EnvM ProxyConfig :=
  match config with
  | Some c => env_ret c
  | None =>
      letE httpProxy := lookupWithFallback "HTTP_PROXY" "http_proxy" in
      letE httpsProxy := lookupWithFallback "HTTPS_PROXY" "https_proxy" in
      letE noProxy := lookupWithFallback "NO_PROXY" "no_proxy" in
      env_ret {| HTTPProxy := httpProxy;
                 HTTPSProxy := httpsProxy;
                 NoProxy := noProxy |}
  end.

(** An [error] result that is [nil] or a message. *)
Definition check {S} (r : option string) : Eff.M S unit :=
  match r with Some e => Eff.fail e | None => Eff.ret tt end.

(** *** Application path and buildpack tokens

    The functions of the build client that consult the file system and
    the downloader.  What the outside answers is supplied in a [System];
    the files opened and closed, the downloads and the log entries are
    recorded in order. *)

Module io.

Inductive event :=
| Open (path : string)
| Close (path : string)
| Download (location : string)
| Logged (entry : logEntry).

Record System := {
  (** [os.Getwd] *)
  Getwd : string + string;
  (** [filepath.EvalSymlinks] and [filepath.Abs] *)
  EvalSymlinks : string → string + string;
  Abs : string → string + string;
  (** [os.Stat]: an error, or whether the file is a directory *)
  Stat : string → string + bool;
  (** the error of [os.Open], if any *)
  OpenErr : string → option string;
  (** [archive.IsZip] on the file opened at a path *)
  IsZip : string → string + bool;
  (** [paths.IsURI], [paths.URIToFilePath], [paths.IsDir] *)
  IsURI : string → bool;
  URIToFilePath : string → string + string;
  IsDir : string → string + bool;
  (** [url.Parse], then the [Scheme] of the result *)
  url_Scheme : string → string + string;
  (** [runtime.GOOS] *)
  GOOS : string;
  (** [downloader.Download], given what happened before *)
  downloader_Download : list event → string → string + string;
  (** [dist.NewBuildpack] *)
  NewBuildpack : string → string + dist.Buildpack;
  Symbol : string → string;
}.

Section with_system.
Variable sys : System.

Definition emit (e : event) : Eff.M (list event) unit :=
  Eff.modify (λ evs, evs ++ [e]).

(** [os.Open], the opened file being named by its path. *)
Definition os_Open (path : string) : Eff.M (list event) unit :=
  match OpenErr sys path with
  | Some e => Eff.fail e
  | None => emit (Open path)
  end.

(** [processAppPath]. *)
Definition processAppPath (appPath : string) : Eff.M (list event) string :=
  letM appPath :=
    (if decide (appPath = "") then
       Eff.wrapped "get working dir" (Eff.lift (Getwd sys))
     else Eff.ret appPath) in
  letM resolvedAppPath :=
    Eff.wrapped "evaluate symlink" (Eff.lift (EvalSymlinks sys appPath)) in
  letM resolvedAppPath :=
    Eff.wrapped "resolve absolute path"
      (Eff.lift (Abs sys resolvedAppPath)) in
  letM fi :=
    Eff.wrapped "stat file" (Eff.lift (Stat sys resolvedAppPath)) in
  if negb fi then
    doM Eff.wrapped "read file" (os_Open resolvedAppPath) in
    Eff.defer (emit (Close resolvedAppPath))
      (letM isZip :=
         Eff.wrapped "check zip" (Eff.lift (IsZip sys resolvedAppPath)) in
       if negb isZip then Eff.fail "app path must be a directory or zip"
       else Eff.ret resolvedAppPath)
  else Eff.ret resolvedAppPath.

(** [isBuildpackID]: [os.Stat] fails exactly when [Stat] is an error. *)
Definition isBuildpackID (bp : string) : bool :=
  if negb (IsURI sys bp) then
    match Stat sys bp with
    | inl _ => true
    | inr _ => false
    end
  else false.

(** [ensureBPSupport]; [None] is the [nil] error. *)
Definition ensureBPSupport (bpPath : string) : option string :=
  let onWindows (p : string) : option string :=
    if bool_decide (GOOS sys = "windows") && negb (IsURI sys p) then
      match IsDir sys p with
      | inl err => Some err
      | inr isDir =>
          if isDir : bool then
            Some ("buildpack " +:+ Symbol sys bpPath
                  +:+ ": directory-based buildpacks are not currently supported on Windows")
          else None
      end
    else None in
  if IsURI sys bpPath then
    match url_Scheme sys bpPath with
    | inl err => Some err
    | inr scheme =>
        if decide (scheme = "file") then
          match URIToFilePath sys bpPath with
          | inl err => Some err
          | inr p => onWindows p
          end
        else onWindows bpPath
    end
  else onWindows bpPath.

Definition refTo (info : dist.BuildpackInfo) : dist.BuildpackRef :=
  {| dist.ref_BuildpackInfo := info |}.

(** The loop of [processBuildpacks], from the values [bps] and
    [group.Group] have when it reaches the tokens [buildpacks]. *)
Fixpoint processBuildpacks_from (buildpacks : list string)
    (bps : list dist.Buildpack) (group : list dist.BuildpackRef)
    : Eff.M (list event) (list dist.Buildpack * dist.OrderEntry) :=
  match buildpacks with
  | [] => Eff.ret (bps, {| dist.Group := group |})
  | bp :: rest =>
      if isBuildpackID bp then
        let parsed := parseBuildpack bp in
        doM Eff.modify (λ evs, evs ++ map Logged parsed.2) in
        processBuildpacks_from rest bps
          (group ++ [refTo {| dist.ID := parsed.1.1;
                              dist.Version := parsed.1.2 |}])
      else
        doM Eff.wrapped "checking buildpack path"
              (check (ensureBPSupport bp)) in
        letM blob :=
          Eff.wrapped ("downloading buildpack from " +:+ Symbol sys bp)
            (λ evs, (evs ++ [Download bp], downloader_Download sys evs bp)) in
        letM fetchedBP :=
          Eff.wrapped ("creating buildpack from " +:+ Symbol sys bp)
            (Eff.lift (NewBuildpack sys blob)) in
        processBuildpacks_from rest (bps ++ [fetchedBP])
          (group ++ [refTo (dist.Info (dist.Descriptor fetchedBP))])
  end.

(** [processBuildpacks]. *)
Definition processBuildpacks (buildpacks : list string)
    : Eff.M (list event) (list dist.Buildpack * dist.OrderEntry) :=
  processBuildpacks_from buildpacks [] [].

End with_system.

Definition isDownload (e : event) : option string :=
  match e with Download location => Some location | _ => None end.

Definition isLogged (e : event) : option logEntry :=
  match e with Logged entry => Some entry | _ => None end.

End io.

(** *** The client and its collaborators *)

Record BuildOptions := {
  opt_Image : string;
  opt_Builder : string;
  opt_AppPath : string;
  opt_RunImage : string;
  opt_AdditionalMirrors : gmap string (list string);
  opt_Env : list (string * string);
  opt_Publish : bool;
  opt_NoPull : bool;
  opt_ClearCache : bool;
  opt_Buildpacks : list string;
  opt_ProxyConfig : option ProxyConfig;
  opt_Network : string;
}.

(** What the client does to the outside, in order. *)
Inductive event {TagRef : Type} :=
| Log (entry : logEntry)
| Fetch (name : string) (daemon pull : bool)
| IO (e : io.event)
| Execute (appPath : string) (image : TagRef) (builder : nat)
    (runImage : string) (clearCache publish : bool)
    (proxy : ProxyConfig) (network : string)
| ImageRemove (name : string).
Arguments event : clear implicits.

Record World {TagRef : Type} := {
  store : imgutil.Store;
  events : list (event TagRef);
}.
Arguments World : clear implicits.

Definition isLog {TagRef} (e : event TagRef) : bool :=
  match e with Log _ => true | _ => false end.

(** A step on the file system or the downloader, as an event of the
    client; what is logged there goes to the client's one logger. *)
Definition ofIO {TagRef} (e : io.event) : event TagRef :=
  match e with
  | io.Logged entry => Log entry
  | _ => IO e
  end.

(** The call of the lifecycle that [Build] makes for a composed builder
    [builder]. *)
Definition lifecycleCall {TagRef} (opts : BuildOptions) (appPath : string)
    (imageRef : TagRef) (proxyConfig : ProxyConfig) (builder : nat)
    (runImageName : string) : event TagRef :=
  Execute appPath imageRef builder runImageName (opt_ClearCache opts)
    (opt_Publish opts) proxyConfig (opt_Network opts).

Section client.
(** Types of packages that are not among the sources. *)
Context {TagRef StackImage BuildImage BuilderImage StackMetadata : Type}.

(** The collaborators of the client, and the functions of other
    packages it calls. *)
Record Client := {
  Symbol : string → string;
  cmd_Version : string;
  build_PlatformAPIVersion : string;
  (** [api.MustParse(a).SupportsVersion(b)] *)
  SupportsVersion : string → string → bool;
  (** the [i]-th number drawn by [rand.Intn(26)] *)
  rand_Intn26 : nat → nat;
  environ : gmap string string;
  parseTagReference : string → string + TagRef;
  RegistryStr : TagRef → string;
  (** the file system, the downloader and [dist.NewBuildpack] *)
  system : io.System;
  (** [imageFetcher.Fetch(ctx, name, daemon, pull)] on the image store:
      the store it leaves, and the handle of the image or the error *)
  imageFetcher_Fetch : string → bool → bool → Eff.M imgutil.Store nat;
  (** what the docker daemon does to the image store on
      [ImageRemove(ctx, name, {Force: true})], and the error it returns *)
  docker_daemon : string → Eff.M imgutil.Store unit;
  (** [name.ParseReference(s, name.WeakValidation)], then [Name()] *)
  ParseReference : string → string + string;
  stack_NewImage : imgutil.Image → string + StackImage;
  stack_StackID : StackImage → string;
  stack_NewBuildImage : StackImage → string + BuildImage;
  stack_NewRunImage : StackImage → string + runImage;
  builder_NewImage : BuildImage → string + BuilderImage;
  asBuilderImage : BuilderImage → builderImage;
  Metadata_Stack : BuilderImage → StackMetadata;
  resolveRunImage :
    string → string → StackMetadata → gmap string (list string) → string;
  (** [BuildpackDescriptor.EnsureStackSupport] *)
  EnsureStackSupport :
    dist.BuildpackDescriptor → string → list string → bool → option string;
  (** the outcome of saving an image *)
  imageSaveErr : imgutil.Image → option string;
  (** the outcome of [lifecycle.Execute] *)
  lifecycle_Execute : event TagRef → option string;
}.

Abbreviation ClientM := (Eff.M (World TagRef)).

(** Runs a computation of the image store in the client's world. *)
Definition onStore {A} (m : Eff.M imgutil.Store A) : ClientM A :=
  λ w, match m (store w) with
       | (st, r) => ({| store := st; events := events w |}, r)
       end.

Definition emit (e : event TagRef) : ClientM unit :=
  Eff.modify (λ w, {| store := store w; events := events w ++ [e] |}).

(** Runs a computation on the file system and the downloader in the
    client's world. *)
Definition onSystem {A} (m : Eff.M (list io.event) A) : ClientM A :=
  λ w, match m [] with
       | (evs, r) =>
           ({| store := store w; events := events w ++ map ofIO evs |}, r)
       end.

Variable c : Client.

(** [c.imageFetcher.Fetch(ctx, name, daemon, pull)]. *)
Definition imageFetcher (name : string) (daemon pull : bool) : ClientM nat :=
  doM emit (Fetch name daemon pull) in
  onStore (imageFetcher_Fetch c name daemon pull).

(** [c.docker.ImageRemove(ctx, name, {Force: true})]. *)
Definition docker_ImageRemove (name : string) : ClientM unit :=
  doM emit (ImageRemove name) in
  onStore (docker_daemon c name).

(** [processBuilderName]; the result is the [Name()] of the
    reference. *)
Definition processBuilderName (builderName : string) : string + string :=
  if decide (builderName = "") then
    inl "builder is a required parameter if the client has no default builder"
  else ParseReference c builderName.

(** [validateRunImage]. *)
Definition validateRunImage (name : string) (noPull publish : bool)
    (expectedStack : string) : ClientM runImage :=
  letM img := imageFetcher name (negb publish) (negb noPull) in
  letM i := onStore (imgutil.deref img) in
  letM stackImage := Eff.lift (stack_NewImage c i) in
  if decide (stack_StackID c stackImage ≠ expectedStack) then
    Eff.fail ("run-image stack id '" +:+ stack_StackID c stackImage
              +:+ "' does not match builder stack '" +:+ expectedStack
              +:+ "'")
  else Eff.lift (stack_NewRunImage c stackImage).

(** [allBuildpacks]; Go visits the entries of a map in an unspecified
    order, here it is the order of [map_to_list]. *)
Definition allBuildpacks (builderImg : builderImage)
    (additionalBuildpacks : list dist.Buildpack)
    : list dist.BuildpackDescriptor :=
  let bpLayers := b_BuildpackLayers builderImg in
  mbind (M := list)
    (λ '(id, bps),
       (λ '(ver, bp),
          {| dist.API := "";
             dist.Info := {| dist.ID := id; dist.Version := ver |};
             dist.Stacks := dist.layer_Stacks bp;
             dist.Order := dist.layer_Order bp |})
       <$> map_to_list bps)
    (map_to_list bpLayers)
  ++ map dist.Descriptor additionalBuildpacks.

(** The loop of [validateMixins] over the buildpacks. *)
Fixpoint ensureAll (bps : list dist.BuildpackDescriptor)
    (stackID : string) (mixins : list string) : option string :=
  match bps with
  | [] => None
  | bp :: rest =>
      match EnsureStackSupport c bp stackID mixins true with
      | Some err => Some err
      | None => ensureAll rest stackID mixins
      end
  end.

(** [validateMixins]. *)
Definition validateMixins (additionalBuildpacks : list dist.Buildpack)
    (builderImg : builderImage) (runImg : runImage) : option string :=
  match validateCommonMixins (Symbol c) builderImg runImg with
  | Some err => Some err
  | None =>
      let bps := allBuildpacks builderImg additionalBuildpacks in
      let mixins := assembleAvailableMixins builderImg runImg in
      ensureAll bps (b_StackID builderImg) mixins
  end.

(** [randString], reading the draws from the [i]-th on. *)
Fixpoint randString_from (i n : nat) : string :=
  match n with
  | O => EmptyString
  | S n' =>
      String (ascii_of_N (97 + N.of_nat (rand_Intn26 c i mod 26)))
        (randString_from (S i) n')
  end.

Definition randString (n : nat) : string := randString_from 0 n.

(** The name given to an ephemeral builder. *)
Definition ephemeralName : string :=
  "pack.local/builder/" +:+ GoStrings.hex (randString 10) +:+ ":latest".

(** The loop of [createEphemeralBuilder] adding the buildpacks. *)
Fixpoint addBuildpacks (bldr : builder.Builder)
    (buildpacks : list dist.Buildpack) : ClientM builder.Builder :=
  match buildpacks with
  | [] => Eff.ret bldr
  | bp :: rest =>
      let bpInfo := dist.Info (dist.Descriptor bp) in
      doM emit (Log (Debug ("Adding buildpack "
                            +:+ Symbol c (dist.ID bpInfo) +:+ " version "
                            +:+ Symbol c (dist.Version bpInfo)
                            +:+ " to builder"))) in
      addBuildpacks (builder.AddBuildpack bp bldr) rest
  end.

(** [createEphemeralBuilder]; [baseBuilderImage] is the handle the
    caller holds. *)
Definition createEphemeralBuilder (baseBuilderImage : nat)
    (env : list (string * string)) (group : dist.OrderEntry)
    (buildpacks : list dist.Buildpack) : ClientM nat :=
  letM origBuilderName := onStore (imgutil.GetName baseBuilderImage) in
  doM onStore (imgutil.Rename baseBuilderImage ephemeralName) in
  letM bldr :=
    Eff.wrapped ("invalid builder " +:+ Symbol c origBuilderName)
      (onStore (builder.FromImage baseBuilderImage)) in
  let bldr := builder.SetEnv env bldr in
  letM bldr := addBuildpacks bldr buildpacks in
  letM bldr :=
    (if decide (0 < length (dist.Group group)) then
       doM emit (Log (Debug "Setting custom order")) in
       Eff.ret (builder.SetOrder [group] bldr)
     else Eff.ret bldr) in
  letM bldrImage :=
    Eff.wrapped ("invalid builder " +:+ Symbol c origBuilderName)
      (onStore (builder.Save (imageSaveErr c) bldr)) in
  Eff.ret bldrImage.

(** The end of [Build]: composing the ephemeral builder, scheduling
    its removal, checking the platform API and running the
    lifecycle. *)
Definition Build_compose (opts : BuildOptions) (appPath : string)
    (imageRef : TagRef) (proxyConfig : ProxyConfig)
    (rawBuilderImage : nat) (runImageName : string)
    (fetchedBPs : list dist.Buildpack) (group : dist.OrderEntry)
    : ClientM unit :=
  letM ephemeralBuilderImage :=
    createEphemeralBuilder rawBuilderImage (opt_Env opts) group
      fetchedBPs in
  letM ephemeralName := onStore (imgutil.GetName ephemeralBuilderImage) in
  Eff.defer (docker_ImageRemove ephemeralName)
    (letM eph := onStore (imgutil.deref ephemeralBuilderImage) in
     if negb (SupportsVersion c (build_PlatformAPIVersion c)
                (builder.PlatformAPIVersion eph)) then
       Eff.fail ("pack " +:+ cmd_Version c
                 +:+ " (Platform API version "
                 +:+ build_PlatformAPIVersion c
                 +:+ ") is incompatible with builder "
                 +:+ Symbol c (opt_Builder opts)
                 +:+ " (Platform API version "
                 +:+ builder.PlatformAPIVersion eph +:+ ")")
     else
       let call :=
         Execute appPath imageRef ephemeralBuilderImage runImageName
           (opt_ClearCache opts) (opt_Publish opts) proxyConfig
           (opt_Network opts) in
       doM emit call in
       check (lifecycle_Execute c call)).

(** What [Build] has worked out when it turns to the ephemeral
    builder. *)
Record BuildInputs := {
  in_appPath : string;
  in_imageRef : TagRef;
  in_proxyConfig : ProxyConfig;
  in_rawBuilderImage : nat;
  in_runImageName : string;
  in_fetchedBPs : list dist.Buildpack;
  in_group : dist.OrderEntry;
}.

(** The head of [Build], up to the validation of the mixins. *)
Definition Build_resolve (opts : BuildOptions) : ClientM BuildInputs :=
  letM imageRef :=
    Eff.wrapped ("invalid image name '" +:+ opt_Image opts +:+ "'")
      (Eff.lift (parseTagReference c (opt_Image opts))) in
  letM appPath :=
    Eff.wrapped ("invalid app path '" +:+ opt_AppPath opts +:+ "'")
      (onSystem (io.processAppPath (system c) (opt_AppPath opts))) in
  let proxyConfig :=
    (processProxyConfig (opt_ProxyConfig opts) (environ c)).1 in
  letM builderRef :=
    Eff.wrapped ("invalid builder '" +:+ opt_Builder opts +:+ "'")
      (Eff.lift (processBuilderName (opt_Builder opts))) in
  letM rawBuilderImage :=
    Eff.wrapped ("failed to fetch builder image '" +:+ builderRef +:+ "'")
      (imageFetcher builderRef true (negb (opt_NoPull opts))) in
  letM raw := onStore (imgutil.deref rawBuilderImage) in
  letM stackImage := Eff.lift (stack_NewImage c raw) in
  letM buildImage := Eff.lift (stack_NewBuildImage c stackImage) in
  letM builderImage := Eff.lift (builder_NewImage c buildImage) in
  let runImageName :=
    resolveRunImage c (opt_RunImage opts) (RegistryStr c imageRef)
      (Metadata_Stack c builderImage) (opt_AdditionalMirrors opts) in
  if decide (runImageName = "") then
    Eff.fail "run image must be specified"
  else
    letM runImage :=
      Eff.wrapped ("invalid run-image '" +:+ runImageName +:+ "'")
        (validateRunImage runImageName (opt_NoPull opts)
           (opt_Publish opts) (b_StackID (asBuilderImage c builderImage))) in
    letM fetched :=
      onSystem (io.processBuildpacks (system c) (opt_Buildpacks opts)) in
    let '(fetchedBPs, group) := fetched in
    doM Eff.wrapped "validating stack mixins"
          (check (validateMixins fetchedBPs
                    (asBuilderImage c builderImage) runImage)) in
    Eff.ret {| in_appPath := appPath;
               in_imageRef := imageRef;
               in_proxyConfig := proxyConfig;
               in_rawBuilderImage := rawBuilderImage;
               in_runImageName := runImageName;
               in_fetchedBPs := fetchedBPs;
               in_group := group |}.

(** [Build]. *)
Definition Build (opts : BuildOptions) : ClientM unit :=
  letM inputs := Build_resolve opts in
  Build_compose opts (in_appPath inputs) (in_imageRef inputs)
    (in_proxyConfig inputs) (in_rawBuilderImage inputs)
    (in_runImageName inputs) (in_fetchedBPs inputs) (in_group inputs).

(** The line [createEphemeralBuilder] logs for a buildpack it adds. *)
Definition addingLine (bp : dist.Buildpack) : event TagRef :=
  Log (Debug ("Adding buildpack "
              +:+ Symbol c (dist.ID (dist.Info (dist.Descriptor bp)))
              +:+ " version "
              +:+ Symbol c (dist.Version (dist.Info (dist.Descriptor bp)))
              +:+ " to builder")).

(** Whether an event is a run of the lifecycle or the removal of an
    image. *)
Definition isExecuteOrRemove (e : event TagRef) : bool :=
  match e with
  | Execute _ _ _ _ _ _ _ _ | ImageRemove _ => true
  | _ => false
  end.

(** A computation that, whatever it returns, has neither run the
    lifecycle nor removed an image. *)
Definition quiet {A} (m : ClientM A) : Prop :=
  ∀ w, ∃ new,
    events (m w).1 = events w ++ new
    ∧ forallb (λ e, negb (isExecuteOrRemove e)) new = true.

End client.
Arguments Client : clear implicits.
Arguments BuildInputs : clear implicits.

End pack.

(** The functions of the client on the file system and the downloader,
    by themselves. *)
Module pack_io := pack.io.

(** ** Package [buildpackage]: the package builder *)

Module buildpackage.

Definition MetadataLabel : string := "io.buildpacks.buildpackage.metadata".

Record Metadata := {
  md_BuildpackInfo : dist.BuildpackInfo;
  md_Stacks : list dist.Stack;
}.

(** The value passed to [dist.SetLabel], before it is serialised. *)
Inductive labelValue :=
| MetadataValue (md : Metadata)
| BuildpackLayersValue (layers : dist.BuildpackLayers).

(** The calls [Save] makes outside the package builder.  An image is
    named by the handle the image factory returned for it. *)
Inductive call :=
| NewImage (repoName : string) (local : bool)
| SetLabel (image : string) (key : string) (value : labelValue)
| TempDir (dir pattern : string)
| RemoveAll (path : string)
| BuildpackToLayerTar (tmpDir : string) (bp : dist.Buildpack)
| AddLayer (image : string) (path : string)
| LayerDiffID (path : string)
| ImageSave (image : string).

(** [PackageBuilder], without its [imageFactory]. *)
Record PackageBuilder := {
  buildpack : option dist.Buildpack;
  dependencies : list dist.Buildpack;
}.

Definition NewBuilder : PackageBuilder :=
  {| buildpack := None; dependencies := [] |}.

Definition SetBuildpack (bp : dist.Buildpack) (p : PackageBuilder)
    : PackageBuilder :=
  {| buildpack := Some bp; dependencies := dependencies p |}.

Definition AddDependency (bp : dist.Buildpack) (p : PackageBuilder)
    : PackageBuilder :=
  {| buildpack := buildpack p; dependencies := dependencies p ++ [bp] |}.

Section with_collaborators.
(** [style.Symbol] and [BuildpackInfo.FullName], used in messages. *)
Variable Symbol : string → string.
Variable FullName : dist.BuildpackInfo → string.
(** [stack.MergeCompatible]. *)
Variable MergeCompatible :
  list dist.Stack → list dist.Stack → list dist.Stack.
(** What a call returns, given the calls made before it: an error
    ([inl]), or the returned value ([inr]: an image handle, a path, a
    digest; the empty string for calls that return only an error). *)
Variable respond : list call → call → string + string.

(** A computation whose state is the calls made so far. *)
Definition perform (c : call) : Eff.M (list call) string :=
  λ made, (made ++ [c], respond made c).

(** The loop over [p.dependencies] merging the stacks. *)
Fixpoint mergeDependencies (main : dist.Buildpack)
    (stacks : list dist.Stack) (deps : list dist.Buildpack)
    : string + list dist.Stack :=
  match deps with
  | [] => inr stacks
  | bp :: rest =>
      let bpd := dist.Descriptor bp in
      let stacks := MergeCompatible stacks (dist.Stacks bpd) in
      if decide (length stacks = 0) then
        inl ("buildpack "
             +:+ Symbol (FullName (dist.Info (dist.Descriptor main)))
             +:+ " does not support any stacks from "
             +:+ Symbol (FullName (dist.Info bpd)))
      else mergeDependencies main stacks rest
  end.

(** The loop adding one layer per buildpack. *)
Fixpoint addLayers (image tmpDir : string) (bpLayers : dist.BuildpackLayers)
    (bps : list dist.Buildpack)
    : Eff.M (list call) dist.BuildpackLayers :=
  match bps with
  | [] => Eff.ret bpLayers
  | bp :: rest =>
      let fullName := Symbol (FullName (dist.Info (dist.Descriptor bp))) in
      letM bpLayerTar := perform (BuildpackToLayerTar tmpDir bp) in
      doM Eff.wrapped ("adding layer tar for buildpack " +:+ fullName)
            (perform (AddLayer image bpLayerTar)) in
      letM diffID :=
        Eff.wrapped ("getting content hashes for buildpack " +:+ fullName)
          (perform (LayerDiffID bpLayerTar)) in
      addLayers image tmpDir
        (dist.AddBuildpackToLayersMD bpLayers (dist.Descriptor bp) diffID)
        rest
  end.

(** [PackageBuilder.Save]. *)
Definition Save (p : PackageBuilder) (repoName : string) (publish : bool)
    : Eff.M (list call) string :=
  match buildpack p with
  | None => Eff.fail "buildpack must be set"
  | Some main =>
      let stacks := dist.Stacks (dist.Descriptor main) in
      if decide (length stacks = 0
                 ∧ length (dist.Order (dist.Descriptor main)) = 0) then
        Eff.fail ("buildpack "
                  +:+ Symbol (FullName (dist.Info (dist.Descriptor main)))
                  +:+ " must support at least one stack or have an order")
      else
        letM stacks :=
          Eff.lift (mergeDependencies main stacks (dependencies p)) in
        letM image :=
          Eff.wrapped "creating image"
            (perform (NewImage repoName (negb publish))) in
        doM perform (SetLabel image MetadataLabel
                       (MetadataValue
                          {| md_BuildpackInfo :=
                               dist.Info (dist.Descriptor main);
                             md_Stacks := stacks |})) in
        letM tmpDir := perform (TempDir "" "create-package") in
        Eff.defer (perform (RemoveAll tmpDir))
          (letM bpLayers :=
             addLayers image tmpDir ∅ (dependencies p ++ [main]) in
           doM perform (SetLabel image dist.BuildpackLayersLabel
                          (BuildpackLayersValue bpLayers)) in
           doM perform (ImageSave image) in
           Eff.ret image)
  end.

(** The checks at the head of [Save], on their own: the error [Save]
    returns before it makes any call, if there is one. *)
Definition validationError (p : PackageBuilder) : option string :=
  match buildpack p with
  | None => Some "buildpack must be set"
  | Some main =>
      let stacks := dist.Stacks (dist.Descriptor main) in
      if decide (length stacks = 0
                 ∧ length (dist.Order (dist.Descriptor main)) = 0) then
        Some ("buildpack "
              +:+ Symbol (FullName (dist.Info (dist.Descriptor main)))
              +:+ " must support at least one stack or have an order")
      else
        match mergeDependencies main stacks (dependencies p) with
        | inl e => Some e
        | inr _ => None
        end
  end.

End with_collaborators.

(** Whether a call persists the image. *)
Definition isImageSave (c : call) : bool :=
  match c with ImageSave _ => true | _ => false end.

(** Whether a call creates an image handle or writes a label or layer
    to an image. *)
Definition touchesImage (c : call) : bool :=
  match c with
  | NewImage _ _ | SetLabel _ _ _ | AddLayer _ _ | ImageSave _ => true
  | _ => false
  end.

(** The buildpack a call asks the layer of, if it is such a call. *)
Definition asLayerTar (c : call) : option dist.Buildpack :=
  match c with BuildpackToLayerTar _ bp => Some bp | _ => None end.

(** Whether a call belongs to the making of a layer. *)
Definition isLayerCall (c : call) : bool :=
  match c with
  | BuildpackToLayerTar _ _ | AddLayer _ _ | LayerDiffID _ => true
  | _ => false
  end.

(** Whether a call creates or removes a directory. *)
Definition touchesTempDir (c : call) : bool :=
  match c with TempDir _ _ | RemoveAll _ => true | _ => false end.

(** A layer as [Save] makes it: the buildpack, the path of its layer tar
    and the digest of that tar. *)
Record layer := {
  l_bp : dist.Buildpack;
  l_tar : string;
  l_diffID : string;
}.

(** The three calls that put a layer into the image. *)
Definition layerCalls (image tmpDir : string) (l : layer) : list call :=
  [BuildpackToLayerTar tmpDir (l_bp l); AddLayer image (l_tar l);
   LayerDiffID (l_tar l)].

(** The buildpack-layers metadata after the layers [ls] were recorded in
    [bpLayers], one after the other. *)
Definition layersMD (ls : list layer) (bpLayers : dist.BuildpackLayers)
    : dist.BuildpackLayers :=
  foldl (λ acc l,
           dist.AddBuildpackToLayersMD acc (dist.Descriptor (l_bp l))
             (l_diffID l))
    bpLayers ls.

(** The first two calls of [Save]: the image is created, local unless
    [publish], and labelled with the package metadata. *)
Definition labelled (repoName : string) (publish : bool) (image : string)
    (info : dist.BuildpackInfo) (stacks : list dist.Stack) : list call :=
  [NewImage repoName (negb publish);
   SetLabel image MetadataLabel
     (MetadataValue {| md_BuildpackInfo := info; md_Stacks := stacks |})].

End buildpackage.

(** ** Package [registry] *)

Module registry.

Definition defaultRegistryURL : string :=
  "https://github.com/jkutner/buildpack-registry".

Definition defaultRegistyDir : string := "registry".

Record Buildpack := {
  Namespace : string;
  Name : string;
  Version : string;
  Yanked : bool;
  Digest : bool;
  Address : string;
}.

Record RegistryCache := {
  URL : string;
  Path : string;
}.

(** An [error] of [os.Stat], and whether [os.IsNotExist] holds of it. *)
Record statError := {
  stat_msg : string;
  stat_IsNotExist : bool;
}.

Inductive event :=
| Stat (path : string)
| PlainClone (path : string) (isBare : bool) (url : string).

Record System := {
  (** [config.PackHome] *)
  PackHome : string + string;
  (** [filepath.Join] of two elements *)
  Join : string → string → string;
  (** the error of [os.Stat], if any *)
  StatErr : string → option statError;
  (** the error of [git.PlainClone], if any *)
  CloneErr : string → string → option string;
}.

Section with_system.
Variable sys : System.

(** [RegistryCache.Initialize]; the result [inr tt] is the [nil] error. *)
Definition Initialize (r : RegistryCache) : Eff.M (list event) unit :=
  doM Eff.modify (λ evs, evs ++ [Stat (Path r)]) in
  match StatErr sys (Path r) with
  | Some err =>
      if stat_IsNotExist err then
        doM Eff.modify (λ evs, evs ++ [PlainClone (Path r) false (URL r)]) in
        match CloneErr sys (Path r) (URL r) with
        | Some e => Eff.fail e
        | None => Eff.ret tt
        end
      else Eff.fail (stat_msg err)
  | None => Eff.ret tt
  end.

(** [NewRegistryCache]: the cache and the error are both returned. *)
Definition NewRegistryCache (evs : list event)
    : list event * (RegistryCache * option string) :=
  match PackHome sys with
  | inl err => (evs, ({| URL := ""; Path := "" |}, Some err))
  | inr home =>
      let r := {| URL := defaultRegistryURL;
                  Path := Join sys home defaultRegistyDir |} in
      match Initialize r evs with
      | (evs', inl err) => (evs', (r, Some err))
      | (evs', inr _) => (evs', (r, None))
      end
  end.

End with_system.

End registry.

(** ** Sample inputs *)

Module samples.

(** The buildpack of the tests of the package builder. *)
Definition bp1 (stacks : list dist.Stack) : dist.Buildpack :=
  {| dist.Descriptor :=
       {| dist.API := "0.2";
          dist.Info := {| dist.ID := "bp.1.id";
                          dist.Version := "bp.1.version" |};
          dist.Stacks := stacks;
          dist.Order := [] |};
     dist.Content := "build-contents" |}.

Definition stack1 : dist.Stack :=
  {| dist.stack_ID := "stack.id.1"; dist.Mixins := ["Mixin-A"] |}.

(** Collaborators whose calls all succeed. *)
Definition allSucceed (made : list buildpackage.call)
    (c : buildpackage.call) : string + string :=
  inr match c with
      | buildpackage.NewImage repoName _ => repoName
      | buildpackage.TempDir _ pattern => "/tmp/" +:+ pattern
      | buildpackage.BuildpackToLayerTar tmpDir bp =>
          tmpDir +:+ "/"
          +:+ dist.FullName (dist.Info (dist.Descriptor bp)) +:+ ".tar"
      | buildpackage.LayerDiffID path => "sha256:" +:+ path
      | _ => ""
      end.

(** Collaborators of which only the image's [Save] fails. *)
Definition saveFails (made : list buildpackage.call)
    (c : buildpackage.call) : string + string :=
  match c with
  | buildpackage.ImageSave _ => inl "save failed"
  | _ => allSucceed made c
  end.

Definition Save := buildpackage.Save style.Symbol dist.FullName
                     stack.MergeCompatible.

(** A builder image in the local daemon, and the handle [0] on it. *)
Definition baseImage : imgutil.Image :=
  {| imgutil.Name := "cnbs/sample-builder:bionic";
     imgutil.BuilderMetadata := Some "0.2";
     imgutil.Env := [];
     imgutil.Layers := [];
     imgutil.OrderMD := [] |}.

Definition world0 : pack.World string :=
  {| pack.store :=
       {| imgutil.handles := {[ 0 := baseImage ]};
          imgutil.daemon := {[ "cnbs/sample-builder:bionic" := baseImage ]} |};
     pack.events := [] |}.

Definition bionic : pack.builderImage :=
  {| pack.b_CommonMixins := ["A"]; pack.b_BuildOnlyMixins := [];
     pack.b_StackID := "io.buildpacks.stacks.bionic";
     pack.b_BuildpackLayers := ∅ |}.

(** A small system: a directory, a zip file and a text file; URIs are
    the strings starting with [https://] or [file://]. *)
Definition system (goos : string) : pack_io.System :=
  {| pack_io.Getwd := inr "/workspace/app";
     pack_io.EvalSymlinks := inr;
     pack_io.Abs := inr;
     pack_io.Stat :=
       λ path,
         if decide (path = "/workspace/app") then inr true
         else if decide (path = "/workspace/app.zip") then inr false
         else if decide (path = "/workspace/notes.txt") then inr false
         else if decide (path = "/buildpacks/bp1") then inr true
         else inl ("stat " +:+ path +:+ ": no such file or directory");
     pack_io.OpenErr := λ _, None;
     pack_io.IsZip := λ path, inr (bool_decide (path = "/workspace/app.zip"));
     pack_io.IsURI :=
       λ s, String.prefix "https://" s || String.prefix "file://" s;
     pack_io.URIToFilePath := λ uri, inr (String.substring 7 (String.length uri) uri);
     pack_io.IsDir := λ path, inr (bool_decide (path = "/buildpacks/bp1"));
     pack_io.url_Scheme :=
       λ uri, inr (if String.prefix "file://" uri then "file" else "https");
     pack_io.GOOS := goos;
     pack_io.downloader_Download := λ _ location, inr ("blob of " +:+ location);
     pack_io.NewBuildpack := λ _, inr (bp1 [stack1]);
     pack_io.Symbol := style.Symbol |}.

(** An image fetcher that finds what the local daemon holds and pulls
    nothing. *)
Definition daemonFetch (name : string) (daemon pull : bool)
    : Eff.M imgutil.Store nat :=
  λ st, match imgutil.daemon st !! name with
        | Some img =>
            let h := fresh (dom (imgutil.handles st)) in
            (imgutil.setHandle h img st, inr h)
        | None => (st, inl ("image " +:+ name +:+ " does not exist"))
        end.

(** A docker daemon that removes the image it is told to remove, and one
    that fails to. *)
Definition removing (name : string) : Eff.M imgutil.Store unit :=
  Eff.modify (λ st, {| imgutil.handles := imgutil.handles st;
                       imgutil.daemon := delete name (imgutil.daemon st) |}).

Definition notRemoving (name : string) : Eff.M imgutil.Store unit :=
  Eff.fail ("conflict: unable to delete " +:+ name).

(** A client whose collaborators succeed, except as told: whether the
    platform API is supported, what the lifecycle returns, and what
    saving an image returns. *)
Definition clientOn (docker : string → Eff.M imgutil.Store unit)
    (supported : bool) (executeErr saveErr : option string)
    : pack.Client string string string pack.builderImage unit :=
  {| pack.Symbol := style.Symbol;
     pack.cmd_Version := "0.6.0";
     pack.build_PlatformAPIVersion := "0.2";
     pack.SupportsVersion := λ _ _, supported;
     pack.rand_Intn26 := λ i, i;
     pack.environ := ∅;
     pack.parseTagReference := inr;
     pack.RegistryStr := λ _, "index.docker.io";
     pack.system := system "linux";
     pack.imageFetcher_Fetch := daemonFetch;
     pack.docker_daemon := docker;
     pack.ParseReference := inr;
     pack.stack_NewImage := λ _, inr "io.buildpacks.stacks.bionic";
     pack.stack_StackID := λ s, s;
     pack.stack_NewBuildImage := inr;
     pack.stack_NewRunImage :=
       λ _, inr {| pack.r_Name := "cnbs/sample-run:bionic";
                   pack.r_CommonMixins := ["A"];
                   pack.r_RunOnlyMixins := [] |};
     pack.builder_NewImage := λ _, inr bionic;
     pack.asBuilderImage := λ b, b;
     pack.Metadata_Stack := λ _, tt;
     pack.resolveRunImage := λ runImage _ _ _, runImage;
     pack.EnsureStackSupport := λ _ _ _ _, None;
     pack.imageSaveErr := λ _, saveErr;
     pack.lifecycle_Execute := λ _, executeErr |}.

Definition client := clientOn removing.

Definition noGroup : dist.OrderEntry := {| dist.Group := [] |}.

(** A builder image whose layers hold two versions of one buildpack and
    one version of another. *)
Definition layerInfo : dist.BuildpackLayerInfo :=
  {| dist.layer_Stacks := [stack1]; dist.layer_Order := [];
     dist.LayerDiffID := "sha256:0" |}.

Definition layeredBuilder : pack.builderImage :=
  {| pack.b_CommonMixins := ["A"]; pack.b_BuildOnlyMixins := [];
     pack.b_StackID := "io.buildpacks.stacks.bionic";
     pack.b_BuildpackLayers :=
       {[ "bp.1.id" := {[ "1.0" := layerInfo; "2.0" := layerInfo ]};
          "buildpack.2.id" := {[ "buildpack.2.version" := layerInfo ]} ]} |}.

(** A run image, and a daemon holding it and the builder image. *)
Definition runImage : imgutil.Image :=
  {| imgutil.Name := "cnbs/sample-run:bionic";
     imgutil.BuilderMetadata := None;
     imgutil.Env := [];
     imgutil.Layers := [];
     imgutil.OrderMD := [] |}.

Definition buildWorld : pack.World string :=
  {| pack.store :=
       {| imgutil.handles := ∅;
          imgutil.daemon :=
            {[ "cnbs/sample-builder:bionic" := baseImage;
               "cnbs/sample-run:bionic" := runImage ]} |};
     pack.events := [] |}.

Definition buildOptions : pack.BuildOptions :=
  {| pack.opt_Image := "my/app";
     pack.opt_Builder := "cnbs/sample-builder:bionic";
     pack.opt_AppPath := "/workspace/app";
     pack.opt_RunImage := "cnbs/sample-run:bionic";
     pack.opt_AdditionalMirrors := ∅;
     pack.opt_Env := [];
     pack.opt_Publish := false;
     pack.opt_NoPull := true;
     pack.opt_ClearCache := false;
     pack.opt_Buildpacks := [];
     pack.opt_ProxyConfig := None;
     pack.opt_Network := "" |}.

(** The options of a build that publishes the image and may pull. *)
Definition publishOptions : pack.BuildOptions :=
  {| pack.opt_Image := "my/app";
     pack.opt_Builder := "cnbs/sample-builder:bionic";
     pack.opt_AppPath := "/workspace/app.zip";
     pack.opt_RunImage := "cnbs/sample-run:bionic";
     pack.opt_AdditionalMirrors := ∅;
     pack.opt_Env := [];
     pack.opt_Publish := true;
     pack.opt_NoPull := false;
     pack.opt_ClearCache := false;
     pack.opt_Buildpacks := ["bp.1.id@latest"];
     pack.opt_ProxyConfig := None;
     pack.opt_Network := "" |}.

(** The options of a build that names no builder. *)
Definition noBuilderOptions : pack.BuildOptions :=
  {| pack.opt_Image := "my/app";
     pack.opt_Builder := "";
     pack.opt_AppPath := "/workspace/app";
     pack.opt_RunImage := "cnbs/sample-run:bionic";
     pack.opt_AdditionalMirrors := ∅;
     pack.opt_Env := [];
     pack.opt_Publish := false;
     pack.opt_NoPull := true;
     pack.opt_ClearCache := false;
     pack.opt_Buildpacks := [];
     pack.opt_ProxyConfig := None;
     pack.opt_Network := "" |}.

(** A buildpack for another stack, and a meta-buildpack. *)
Definition otherStack : dist.Stack :=
  {| dist.stack_ID := "stack.id.2"; dist.Mixins := [] |}.

Definition bp2 (stacks : list dist.Stack) : dist.Buildpack :=
  {| dist.Descriptor :=
       {| dist.API := "0.2";
          dist.Info := {| dist.ID := "buildpack.2.id";
                          dist.Version := "buildpack.2.version" |};
          dist.Stacks := stacks;
          dist.Order := [] |};
     dist.Content := "build-contents" |}.

Definition metaBuildpack : dist.Buildpack :=
  {| dist.Descriptor :=
       {| dist.API := "0.2";
          dist.Info := {| dist.ID := "meta.id"; dist.Version := "1.0" |};
          dist.Stacks := [];
          dist.Order :=
            [{| dist.Group :=
                  [{| dist.ref_BuildpackInfo :=
                        {| dist.ID := "bp.1.id";
                           dist.Version := "bp.1.version" |} |}] |}] |};
     dist.Content := "" |}.

(** A registry system whose pack home is [/home/pack/.pack] and in which
    the registry directory does not exist yet. *)
Definition registrySystem : registry.System :=
  {| registry.PackHome := inr "/home/pack/.pack";
     registry.Join := λ dir name, dir +:+ "/" +:+ name;
     registry.StatErr :=
       λ path, Some {| registry.stat_msg :=
                         "stat " +:+ path +:+ ": no such file or directory";
                       registry.stat_IsNotExist := true |};
     registry.CloneErr := λ _ _, None |}.

End samples.


(** * Properties *)

(** ** Strings *)

Section strings_lemmas.
Import GoStrings.

Lemma Split_nonempty sep s : Split sep s ≠ [].
Proof.
  destruct s as [|c s]; simpl; [done|].
  destruct (Ascii.eqb c sep); [done|].
  by destruct (Split sep s).
Qed.

Lemma Split_no_sep sep s : contains sep s = false → Split sep s = [s].
Proof.
  induction s as [|c s IH]; simpl; [done|].
  intros [Hc Hs]%orb_false_elim. rewrite Hc, (IH Hs). done.
Qed.

Lemma Split_app sep s t :
  contains sep s = false →
  Split sep (s +:+ String sep t) = s :: Split sep t.
Proof.
  induction s as [|c s IH]; simpl.
  - intros _. by rewrite Ascii.eqb_refl.
  - intros [Hc Hs]%orb_false_elim. rewrite Hc, (IH Hs). done.
Qed.

Lemma Split_length_sep sep s :
  contains sep s = true → 2 ≤ length (Split sep s).
Proof.
  induction s as [|c s IH]; simpl; [done|].
  destruct (Ascii.eqb c sep) eqn:Hc; simpl.
  - intros _. pose proof (Split_nonempty sep s).
    destruct (Split sep s); simpl; [done|lia].
  - intros Hs. specialize (IH Hs).
    destruct (Split sep s); simpl in *; lia.
Qed.

(** Joining the segments with the separator gives the string back. *)
Lemma Join_Split sep s : Join (Split sep s) (String sep "") = s.
Proof.
  unfold Join. induction s as [|c s IH]; simpl; [done|].
  pose proof (Split_nonempty sep s) as Hne.
  destruct (Ascii.eqb c sep) eqn:Hc.
  - apply Ascii.eqb_eq in Hc as ->.
    destruct (Split sep s) as [|seg segs]; [done|].
    simpl in *. by rewrite IH.
  - destruct (Split sep s) as [|seg segs]; [done|].
    destruct segs; simpl in *; by rewrite <- IH.
Qed.

(** No segment contains the separator. *)
Lemma Split_segments sep s seg :
  seg ∈ Split sep s → contains sep seg = false.
Proof.
  revert seg. induction s as [|c s IH]; simpl; intros seg.
  - by intros ->%list_elem_of_singleton.
  - pose proof (Split_nonempty sep s) as Hne.
    destruct (Ascii.eqb c sep) eqn:Hc.
    + intros [->|?]%elem_of_cons; [done|by apply IH].
    + destruct (Split sep s) as [|x xs]; [done|].
      intros [->|?]%elem_of_cons.
      * simpl. rewrite Hc. apply IH. by left.
      * apply IH. by right.
Qed.

Lemma Strings_Sorted a : Sorted String.le (Strings a).
Proof. apply (Sorted_merge_sort String.le). Qed.

Lemma Strings_Permutation a : Strings a ≡ₚ a.
Proof. apply merge_sort_Permutation. Qed.

Lemma Strings_elem_of a x : x ∈ Strings a ↔ x ∈ a.
Proof. by rewrite Strings_Permutation. Qed.

(** Any way of sorting a slice of strings gives the result of
    [Strings]. *)
Lemma Strings_unique a b :
  Sorted String.le b → b ≡ₚ a → b = Strings a.
Proof.
  intros Hb Hp. apply (Sorted_unique String.le); [done| |].
  - apply Strings_Sorted.
  - by rewrite Strings_Permutation.
Qed.

End strings_lemmas.

(** ** Mixins *)

Lemma findMissing_filter actual required :
  pack.findMissing actual required = filter (λ m, m ∉ actual) required.
Proof.
  unfold pack.findMissing, stringset.FromSlice.
  enough (∀ acc,
    foldl (λ missing m,
             if decide (m ∈ (list_to_set actual : gset string))
             then missing else missing ++ [m]) acc required
    = acc ++ filter (λ m, m ∉ actual) required) as H by apply (H []).
  induction required as [|m required IH]; intros acc; simpl.
  - by rewrite app_nil_r.
  - rewrite IH. rewrite filter_cons.
    destruct (decide (m ∈ (list_to_set actual : gset string))) as [Hin|Hin];
      rewrite elem_of_list_to_set in Hin.
    + by rewrite decide_False by (intros Hn; by apply Hn).
    + rewrite decide_True by done. by rewrite <- app_assoc.
Qed.

Lemma findMissing_elem_of actual required m :
  m ∈ pack.findMissing actual required ↔ m ∈ required ∧ m ∉ actual.
Proof. rewrite findMissing_filter, list_elem_of_filter. tauto. Qed.

Lemma findMissing_nil_iff actual required :
  pack.findMissing actual required = [] ↔ required ⊆ actual.
Proof.
  split.
  - intros Hnil m Hm. destruct (decide (m ∈ actual)) as [|Hn]; [done|].
    assert (m ∈ pack.findMissing actual required) as Hin
      by by apply findMissing_elem_of.
    rewrite Hnil in Hin. by apply elem_of_nil in Hin.
  - intros Hsub. destruct (pack.findMissing actual required) as [|m l] eqn:E;
      [done|].
    assert (m ∈ pack.findMissing actual required) as Hin
      by (rewrite E; left).
    apply findMissing_elem_of in Hin as [Hr Ha]. by apply Hsub in Hr.
Qed.

(** C7, as amended.  [findMissing] returns exactly the elements of
    [required] that are absent from [actual], in the order in which
    [required] lists them and as often as it lists them; so a sorted
    [required] gives a sorted result, but [findMissing] does not sort.  With
    nothing required, nothing is missing. *)
Theorem findMissing_keeps_required_order (actual required : list string) :
  pack.findMissing actual required = filter (λ m, m ∉ actual) required
  ∧ (∀ m, m ∈ pack.findMissing actual required ↔ m ∈ required ∧ m ∉ actual)
  ∧ pack.findMissing actual required `sublist_of` required
  ∧ pack.findMissing actual [] = [].
Proof.
  split_and!.
  - apply findMissing_filter.
  - intros m. apply findMissing_elem_of.
  - rewrite findMissing_filter. apply sublist_filter.
  - reflexivity.
Qed.

(** C7, as stated, fails: the result is not sorted when [required] is
    not. *)
Lemma findMissing_not_sorted :
  pack.findMissing [] ["b"; "a"] = ["b"; "a"]
  ∧ ¬ Sorted String.le (pack.findMissing [] ["b"; "a"]).
Proof.
  split; [by vm_compute|].
  intros H. vm_compute in H.
  apply Sorted_inv in H as [_ Hhd]. apply HdRel_inv in Hhd.
  by vm_compute in Hhd.
Qed.

(** C1, as amended.  The common-mixin check succeeds if and only if the
    builder image's common mixins are all among the run image's common
    mixins.  When it fails, the message names the run image and lists, in
    sorted order and separated by commas, every common mixin of the builder
    image that the run image lacks. *)
Theorem validateCommonMixins_builder_subset_run
    (Symbol : string → string) (b : pack.builderImage) (r : pack.runImage) :
  Sorted String.le
    (GoStrings.Strings
       (pack.findMissing (pack.r_CommonMixins r) (pack.b_CommonMixins b)))
  ∧ (∀ m,
       m ∈ GoStrings.Strings
             (pack.findMissing (pack.r_CommonMixins r) (pack.b_CommonMixins b))
       ↔ m ∈ pack.b_CommonMixins b ∧ m ∉ pack.r_CommonMixins r)
  ∧ pack.validateCommonMixins Symbol b r =
      if decide (pack.b_CommonMixins b ⊆ pack.r_CommonMixins r) then None
      else Some (Symbol (pack.r_Name r) +:+ " missing required mixin(s): "
                 +:+ GoStrings.Join
                       (GoStrings.Strings
                          (pack.findMissing (pack.r_CommonMixins r)
                             (pack.b_CommonMixins b))) ", ").
Proof.
  split_and!.
  - apply Strings_Sorted.
  - intros m. rewrite Strings_elem_of. apply findMissing_elem_of.
  - unfold pack.validateCommonMixins.
    destruct (decide (pack.b_CommonMixins b ⊆ pack.r_CommonMixins r))
      as [Hsub|Hsub].
    + apply findMissing_nil_iff in Hsub. rewrite Hsub. done.
    + rewrite decide_True; [done|].
      destruct (pack.findMissing _ _) eqn:E; simpl; [|lia].
      by apply findMissing_nil_iff in E.
Qed.

(** C1, as stated, fails in both directions: a run image whose common
    mixins are not all the builder's passes the check, and a run image
    whose common mixins are all the builder's can fail it. *)
Lemma validateCommonMixins_not_run_subset_builder :
  (¬ (["A"; "B"] : list string) ⊆ ["A"]
   ∧ pack.validateCommonMixins style.Symbol
       {| pack.b_CommonMixins := ["A"]; pack.b_BuildOnlyMixins := [];
          pack.b_StackID := "io.buildpacks.stacks.bionic";
          pack.b_BuildpackLayers := ∅ |}
       {| pack.r_Name := "run"; pack.r_CommonMixins := ["A"; "B"];
          pack.r_RunOnlyMixins := [] |} = None)
  ∧ ((["A"] : list string) ⊆ ["A"; "B"]
     ∧ pack.validateCommonMixins style.Symbol
         {| pack.b_CommonMixins := ["A"; "B"]; pack.b_BuildOnlyMixins := [];
            pack.b_StackID := "io.buildpacks.stacks.bionic";
            pack.b_BuildpackLayers := ∅ |}
         {| pack.r_Name := "run"; pack.r_CommonMixins := ["A"];
            pack.r_RunOnlyMixins := [] |}
       = Some "'run' missing required mixin(s): B").
Proof.
  split_and!.
  - intros H. assert ("B" ∈ (["A"] : list string)) as HB
      by (apply H; right; left).
    by apply list_elem_of_singleton in HB.
  - by vm_compute.
  - intros m ->%list_elem_of_singleton. left.
  - by vm_compute.
Qed.

Lemma inBoth_filter (bMixins : gset string) (run acc : list string) :
  foldl (λ inBoth m, if decide (m ∈ bMixins) then inBoth ++ [m] else inBoth)
    acc run
  = acc ++ filter (λ m, m ∈ bMixins) run.
Proof.
  revert acc. induction run as [|m run IH]; intros acc; simpl.
  - by rewrite app_nil_r.
  - rewrite IH, filter_cons. destruct (decide (m ∈ bMixins)); [|done].
    by rewrite <- app_assoc.
Qed.

Lemma assembleAvailableMixins_elem_of b r m :
  m ∈ pack.assembleAvailableMixins b r
  ↔ (m ∈ pack.b_CommonMixins b ∧ m ∈ pack.r_CommonMixins r)
    ∨ m ∈ pack.b_BuildOnlyMixins b ∨ m ∈ pack.r_RunOnlyMixins r.
Proof.
  unfold pack.assembleAvailableMixins, stringset.FromSlice.
  rewrite inBoth_filter. simpl.
  rewrite !elem_of_app, list_elem_of_filter, elem_of_list_to_set. tauto.
Qed.

(** C2.  As a set, [assembleAvailableMixins] is the intersection of the
    two images' common mixins, joined with the builder's build-only mixins
    and the run image's run-only mixins.  With builder common mixins {A}
    and run common mixins {A, B}, B is in the result only when it is a
    build-only mixin of the builder or a run-only mixin of the run
    image. *)
Theorem assembleAvailableMixins_set (b : pack.builderImage) (r : pack.runImage) :
  (list_to_set (pack.assembleAvailableMixins b r) : gset string)
  = (list_to_set (pack.b_CommonMixins b) ∩ list_to_set (pack.r_CommonMixins r))
    ∪ list_to_set (pack.b_BuildOnlyMixins b)
    ∪ list_to_set (pack.r_RunOnlyMixins r)
  ∧ (∀ m, m ∈ pack.assembleAvailableMixins b r
          ↔ (m ∈ pack.b_CommonMixins b ∧ m ∈ pack.r_CommonMixins r)
            ∨ m ∈ pack.b_BuildOnlyMixins b ∨ m ∈ pack.r_RunOnlyMixins r)
  ∧ ∀ buildOnly runOnly stackID layers name,
      "B" ∈ pack.assembleAvailableMixins
              {| pack.b_CommonMixins := ["A"];
                 pack.b_BuildOnlyMixins := buildOnly;
                 pack.b_StackID := stackID;
                 pack.b_BuildpackLayers := layers |}
              {| pack.r_Name := name; pack.r_CommonMixins := ["A"; "B"];
                 pack.r_RunOnlyMixins := runOnly |}
      ↔ "B" ∈ buildOnly ∨ "B" ∈ runOnly.
Proof.
  split_and!.
  - apply set_eq. intros m.
    rewrite !elem_of_union, elem_of_intersection, !elem_of_list_to_set.
    rewrite assembleAvailableMixins_elem_of. tauto.
  - intros m. apply assembleAvailableMixins_elem_of.
  - intros. rewrite assembleAvailableMixins_elem_of. simpl.
    rewrite list_elem_of_singleton. split; [|tauto].
    intros [[? _]|?]; [done|tauto].
Qed.

(** ** Buildpack tokens *)

(** C9.  For an [id] without [@]: the token [id@v], where [v] has no [@],
    gives [(id, v)], except that [id@latest] gives [(id, "")] and logs the
    deprecation warning; the token [id] alone gives [(id, "")]; and a token
    [id@v] where [v] holds a further [@] gives [(id, "")], its version being
    dropped without a word. *)
Theorem parseBuildpack_tokens (id v : string) :
  GoStrings.contains "@" id = false →
  pack.parseBuildpack id = ((id, ""), [])
  ∧ (GoStrings.contains "@" v = false → v ≠ "latest" →
     pack.parseBuildpack (id +:+ "@" +:+ v) = ((id, v), []))
  ∧ pack.parseBuildpack (id +:+ "@latest")
    = ((id, ""),
       [pack.Warn
          "@latest syntax is deprecated, will not work in future releases"])
  ∧ (GoStrings.contains "@" v = true →
     pack.parseBuildpack (id +:+ "@" +:+ v) = ((id, ""), [])).
Proof.
  intros Hid. unfold pack.parseBuildpack. split_and!.
  - by rewrite (Split_no_sep _ _ Hid).
  - intros Hv Hne.
    change (id +:+ "@" +:+ v) with (id +:+ String "@" v).
    rewrite (Split_app _ _ _ Hid), (Split_no_sep _ _ Hv). simpl.
    by rewrite decide_False.
  - change (id +:+ "@latest") with (id +:+ String "@" "latest").
    by rewrite (Split_app _ _ _ Hid).
  - intros Hv. change (id +:+ "@" +:+ v) with (id +:+ String "@" v).
    rewrite (Split_app _ _ _ Hid).
    pose proof (Split_length_sep _ _ Hv) as Hlen.
    rewrite decide_False; [done|]. simpl. lia.
Qed.

Lemma parseBuildpack_tokens_witness :
  pack.parseBuildpack "a" = (("a", ""), [])
  ∧ pack.parseBuildpack ("a" +:+ "@" +:+ "1.2") = (("a", "1.2"), [])
  ∧ pack.parseBuildpack ("a" +:+ "@latest")
    = (("a", ""),
       [pack.Warn
          "@latest syntax is deprecated, will not work in future releases"])
  ∧ pack.parseBuildpack ("a" +:+ "@" +:+ "b@c") = (("a", ""), []).
Proof.
  destruct (parseBuildpack_tokens "a" "1.2" eq_refl) as (H1 & H2 & H3 & _).
  destruct (parseBuildpack_tokens "a" "b@c" eq_refl) as (_ & _ & _ & H4).
  split_and!.
  - exact H1.
  - apply H2; [reflexivity|discriminate].
  - exact H3.
  - apply H4. reflexivity.
Defined.

(** ** Proxy configuration *)

Lemma lookupWithFallback_run upper lower (env : gmap string string) :
  pack.lookupWithFallback upper lower env =
    match env !! upper with
    | Some v => (v, [upper])
    | None => (default "" (env !! lower), [upper; lower])
    end.
Proof.
  unfold pack.lookupWithFallback, pack.env_bind, pack.LookupEnv, pack.Getenv,
    pack.env_ret.
  by destruct (env !! upper).
Qed.

(** C10.  An explicit configuration is returned as it is, whatever it
    holds, and no environment variable is consulted.  Without one, each
    field is the value of its upper-case variable whenever that variable
    is set, even to the empty string, and the lower-case variable is then
    not consulted; it is consulted, and gives the field, only when the
    upper-case one is unset. *)
Theorem processProxyConfig_precedence (env : gmap string string) :
  (∀ config, pack.processProxyConfig (Some config) env = (config, []))
  ∧ pack.processProxyConfig
      (Some {| pack.HTTPProxy := ""; pack.HTTPSProxy := "";
               pack.NoProxy := "" |}) env
    = ({| pack.HTTPProxy := ""; pack.HTTPSProxy := ""; pack.NoProxy := "" |},
       [])
  ∧ (pack.HTTPProxy (pack.processProxyConfig None env).1
     = match env !! "HTTP_PROXY" with
       | Some v => v
       | None => default "" (env !! "http_proxy")
       end)
  ∧ (pack.HTTPSProxy (pack.processProxyConfig None env).1
     = match env !! "HTTPS_PROXY" with
       | Some v => v
       | None => default "" (env !! "https_proxy")
       end)
  ∧ (pack.NoProxy (pack.processProxyConfig None env).1
     = match env !! "NO_PROXY" with
       | Some v => v
       | None => default "" (env !! "no_proxy")
       end)
  ∧ ("http_proxy" ∈ (pack.processProxyConfig None env).2
     ↔ env !! "HTTP_PROXY" = None)
  ∧ ("https_proxy" ∈ (pack.processProxyConfig None env).2
     ↔ env !! "HTTPS_PROXY" = None)
  ∧ ("no_proxy" ∈ (pack.processProxyConfig None env).2
     ↔ env !! "NO_PROXY" = None).
Proof.
  split_and!; [done|done|..];
    unfold pack.processProxyConfig, pack.env_bind;
    rewrite !lookupWithFallback_run;
    destruct (env !! "HTTP_PROXY"), (env !! "HTTPS_PROXY"),
      (env !! "NO_PROXY"); simpl; try done;
    rewrite ?elem_of_cons, ?elem_of_nil; split; try done;
    intros H; repeat destruct H as [H|H]; try discriminate; tauto.
Qed.

(** ** The package builder *)

(** Computes the calls persisting the image among a list of calls made of
    known calls and of a part [calls] without such calls. *)
Ltac filter_calls Hf :=
  repeat rewrite <- app_assoc; cbn;
  repeat (rewrite List.filter_app, ?Hf; cbn).

Section Save_lemmas.
Import buildpackage.
Variable Symbol : string → string.
Variable FullName : dist.BuildpackInfo → string.
Variable MergeCompatible :
  list dist.Stack → list dist.Stack → list dist.Stack.
Variable respond : list call → call → string + string.

Abbreviation Save' := (Save Symbol FullName MergeCompatible respond).
Abbreviation validationError' :=
  (validationError Symbol FullName MergeCompatible).
Abbreviation addLayers' := (addLayers Symbol FullName respond).

(** The loop adding the layers only adds calls, none of which persists
    the image; when it succeeds it has asked for the layer of every
    buildpack. *)
Lemma addLayers_calls image tmpDir bps :
  ∀ bpLayers made made' r,
    addLayers' image tmpDir bpLayers bps made = (made', r) →
    ∃ calls, made' = made ++ calls
             ∧ List.filter isImageSave calls = []
             ∧ (∀ v, r = inr v → ∀ bp, bp ∈ bps →
                                BuildpackToLayerTar tmpDir bp ∈ calls).
Proof.
  induction bps as [|bp bps IH]; intros bpLayers made made' r; simpl.
  - intros [= <- <-]. exists []. rewrite app_nil_r.
    split_and!; [done|done|]. intros _ _ bp Hbp. by apply elem_of_nil in Hbp.
  - unfold Eff.bind, Eff.wrapped, perform.
    destruct (respond made _) as [e|tar] eqn:E1.
    { intros [= <- <-]. eexists [_]. split_and!; [done|done|].
      by intros. }
    destruct (respond (made ++ _) (AddLayer image tar)) as [e|x] eqn:E2.
    { intros [= <- <-]. eexists [_; _]. rewrite <- app_assoc.
      split_and!; [done|done|]. by intros. }
    destruct (respond ((made ++ _) ++ _) (LayerDiffID tar)) as [e|d] eqn:E3.
    { intros [= <- <-]. eexists [_; _; _]. rewrite <- !app_assoc.
      split_and!; [done|done|]. by intros. }
    intros Hrest. apply IH in Hrest as (calls & -> & Hf & Hall).
    eexists (_ :: _ :: _ :: calls). rewrite <- !app_assoc.
    split_and!; [done|done|].
    intros v Hr b [->|Hb]%elem_of_cons; [by left|].
    do 3 right. by eapply Hall.
Qed.

Lemma Save_validation_fails p repoName publish e :
  validationError' p = Some e →
  Save' p repoName publish [] = ([], inl e).
Proof.
  unfold validationError, Save. destruct (buildpack p) as [main|].
  - case_decide; [by intros [= <-]|].
    unfold Eff.bind, Eff.lift.
    destruct (mergeDependencies _ _ _ _ _ _); [by intros [= <-]|done].
  - by intros [= <-].
Qed.

(** What [Save] does once the checks have passed. *)
Lemma Save_validation_passes p repoName publish :
  validationError' p = None →
  ∃ main, buildpack p = Some main ∧
  match Save' p repoName publish [] with
  | (made, inr image) =>
      List.filter isImageSave made = [ImageSave image]
      ∧ (∃ rest, made = NewImage repoName (negb publish) :: rest)
      ∧ (∃ tmpDir, ∀ bp, bp ∈ dependencies p ++ [main] →
                         BuildpackToLayerTar tmpDir bp ∈ made)
      ∧ ∃ pre tmpDir, made = pre ++ [ImageSave image; RemoveAll tmpDir]
                      ∧ ∃ v, respond pre (ImageSave image) = inr v
  | (made, inl e) =>
      (∃ rest, made = NewImage repoName (negb publish) :: rest)
      ∧ (List.filter isImageSave made = []
         ∨ ∃ pre image tmpDir,
             made = pre ++ [ImageSave image; RemoveAll tmpDir]
             ∧ List.filter isImageSave pre = []
             ∧ respond pre (ImageSave image) = inl e)
  end.
Proof.
  unfold validationError, Save. destruct (buildpack p) as [main|]; [|done].
  case_decide; [done|].
  unfold Eff.bind at 1. unfold Eff.lift.
  destruct (mergeDependencies _ _ _ _ _ _) as [|stacks]; [done|].
  intros _. exists main. split; [done|].
  unfold Eff.bind, Eff.wrapped, Eff.defer, Eff.ret, perform. simpl.
  destruct (respond [] _) as [e|image] eqn:E1.
  { split; [by eexists|by left]. }
  destruct (respond _ (SetLabel image _ _)) as [e|x] eqn:E2.
  { split; [by eexists|by left]. }
  destruct (respond _ (TempDir _ _)) as [e|tmpDir] eqn:E3.
  { split; [by eexists|by left]. }
  destruct (addLayers _ _ _ _ _ _ _ _) as [made' r] eqn:EL.
  apply addLayers_calls in EL as (calls & -> & Hf & Hall).
  destruct r as [e|bpLayers]; simpl.
  { split; [by eexists|]. left. by filter_calls Hf. }
  destruct (respond _ (SetLabel image dist.BuildpackLayersLabel _))
    as [e|y] eqn:E4; simpl.
  { split; [by eexists|]. left. by filter_calls Hf. }
  destruct (respond _ (ImageSave image)) as [e|z] eqn:E5; simpl.
  - split; [by eexists|]. right.
    eexists (_ :: _ :: _ :: calls ++ [_]), image, tmpDir.
    rewrite <- (app_assoc _ [_] [_]). simpl.
    split_and!; [done| |exact E5]. by filter_calls Hf.
  - split_and!.
    + by filter_calls Hf.
    + by eexists.
    + exists tmpDir. intros bp Hbp. rewrite <- !app_assoc. simpl.
      do 3 right. apply elem_of_app. left. by eapply Hall.
    + eexists (_ :: _ :: _ :: calls ++ [_]), tmpDir.
      rewrite <- (app_assoc _ [_] [_]). simpl.
      split; [done|]. by eexists.
Qed.

End Save_lemmas.

Section Save_success.
Import buildpackage.
Variable Symbol : string → string.
Variable FullName : dist.BuildpackInfo → string.
Variable MergeCompatible :
  list dist.Stack → list dist.Stack → list dist.Stack.
Variable respond : list call → call → string + string.
Hypothesis respond_ok : ∀ made c, ∃ v, respond made c = inr v.

Lemma addLayers_succeeds image tmpDir bps :
  ∀ bpLayers made, ∃ calls layers,
    addLayers Symbol FullName respond image tmpDir bpLayers bps made
    = (made ++ calls, inr layers).
Proof using respond_ok.
  induction bps as [|bp bps IH]; intros bpLayers made; simpl.
  - exists [], bpLayers. by rewrite app_nil_r.
  - unfold Eff.bind, Eff.wrapped, perform.
    destruct (respond_ok made (BuildpackToLayerTar tmpDir bp)) as [tar ->].
    destruct (respond_ok (made ++ [BuildpackToLayerTar tmpDir bp])
                (AddLayer image tar)) as [x ->].
    destruct (respond_ok
                ((made ++ [BuildpackToLayerTar tmpDir bp])
                 ++ [AddLayer image tar]) (LayerDiffID tar)) as [d ->].
    edestruct IH as (calls & layers & ->).
    exists (BuildpackToLayerTar tmpDir bp :: AddLayer image tar
            :: LayerDiffID tar :: calls), layers.
    by rewrite <- !app_assoc.
Qed.

(** When every call succeeds and the checks pass, [Save] succeeds; the
    metadata label holds the stacks left by the merge. *)
Lemma Save_succeeds p repoName publish main stacks :
  buildpack p = Some main →
  ¬ (length (dist.Stacks (dist.Descriptor main)) = 0
     ∧ length (dist.Order (dist.Descriptor main)) = 0) →
  mergeDependencies Symbol FullName MergeCompatible main
    (dist.Stacks (dist.Descriptor main)) (dependencies p) = inr stacks →
  ∃ image rest,
    Save Symbol FullName MergeCompatible respond p repoName publish []
    = (NewImage repoName (negb publish)
       :: SetLabel image MetadataLabel
            (MetadataValue
               {| md_BuildpackInfo := dist.Info (dist.Descriptor main);
                  md_Stacks := stacks |})
       :: rest, inr image).
Proof using respond_ok.
  intros Hmain Hne Hmerge. unfold Save. rewrite Hmain.
  rewrite decide_False by done.
  unfold Eff.bind at 1. unfold Eff.lift. rewrite Hmerge.
  unfold Eff.bind, Eff.wrapped, Eff.defer, Eff.ret, perform. simpl.
  destruct (respond_ok [] (NewImage repoName (negb publish))) as [image ->].
  match goal with
  | |- context [respond ?m (SetLabel ?i ?k ?v)] =>
      destruct (respond_ok m (SetLabel i k v)) as [x ->]
  end.
  match goal with
  | |- context [respond ?m (TempDir ?d ?pat)] =>
      destruct (respond_ok m (TempDir d pat)) as [tmpDir ->]
  end.
  match goal with
  | |- context [addLayers _ _ _ ?i ?t ?l ?bps ?m] =>
      destruct (addLayers_succeeds i t bps l m) as (calls & layers & ->)
  end.
  match goal with
  | |- context [respond ?m (SetLabel ?i ?k ?v)] =>
      destruct (respond_ok m (SetLabel i k v)) as [y ->]
  end.
  match goal with
  | |- context [respond ?m (ImageSave ?i)] =>
      destruct (respond_ok m (ImageSave i)) as [z ->]
  end.
  simpl. by eexists _, _.
Qed.

End Save_success.

Section Save_trace.
Import buildpackage.
Variable Symbol : string → string.
Variable FullName : dist.BuildpackInfo → string.
Variable MergeCompatible :
  list dist.Stack → list dist.Stack → list dist.Stack.
Variable respond : list call → call → string + string.

(** The calls of the loop adding the layers: three per buildpack, in the
    order of the buildpacks. *)
Lemma addLayers_shape image tmpDir bps :
  ∀ bpLayers made made' r,
    addLayers Symbol FullName respond image tmpDir bpLayers bps made
    = (made', r) →
    ∃ calls, made' = made ++ calls
             ∧ forallb isLayerCall calls = true
             ∧ (∀ layers, r = inr layers →
                          omap asLayerTar calls = bps
                          ∧ length calls = 3 * length bps).
Proof.
  induction bps as [|bp bps IH]; intros bpLayers made made' r; simpl.
  - intros [= <- <-]. exists []. rewrite app_nil_r. by split_and!.
  - unfold Eff.bind, Eff.wrapped, perform.
    destruct (respond made _) as [e|tar] eqn:E1.
    { intros [= <- <-]. eexists [_]. by split_and!. }
    destruct (respond (made ++ _) (AddLayer image tar)) as [e|x] eqn:E2.
    { intros [= <- <-]. eexists [_; _]. rewrite <- app_assoc.
      by split_and!. }
    destruct (respond ((made ++ _) ++ _) (LayerDiffID tar)) as [e|d] eqn:E3.
    { intros [= <- <-]. eexists [_; _; _]. rewrite <- !app_assoc.
      by split_and!. }
    intros Hrest. apply IH in Hrest as (calls & -> & Hf & Hall).
    eexists (_ :: _ :: _ :: calls). rewrite <- !app_assoc.
    split_and!; [done|done|].
    intros layers Hr. destruct (Hall layers Hr) as [Hbps Hlen].
    split; [|simpl; lia].
    change (bp :: omap asLayerTar calls = bp :: bps). by rewrite Hbps.
Qed.

(** The stacks left after merging with all dependencies. *)
Lemma mergeDependencies_inr main stacks deps merged :
  mergeDependencies Symbol FullName MergeCompatible main stacks deps
  = inr merged →
  merged
  = foldl (λ acc bp, MergeCompatible acc (dist.Stacks (dist.Descriptor bp)))
      stacks deps.
Proof.
  revert stacks. induction deps as [|bp deps IH]; intros stacks; simpl.
  - by intros [= <-].
  - case_decide; [done|]. apply IH.
Qed.

(** The error for the first dependency that leaves no stack. *)
Lemma mergeDependencies_inl main stacks before dep after :
  (∀ k, 0 < k ≤ length before →
        foldl (λ acc bp, MergeCompatible acc (dist.Stacks (dist.Descriptor bp)))
          stacks (take k before) ≠ []) →
  MergeCompatible
    (foldl (λ acc bp, MergeCompatible acc (dist.Stacks (dist.Descriptor bp)))
       stacks before)
    (dist.Stacks (dist.Descriptor dep)) = [] →
  mergeDependencies Symbol FullName MergeCompatible main stacks
    (before ++ dep :: after)
  = inl ("buildpack "
         +:+ Symbol (FullName (dist.Info (dist.Descriptor main)))
         +:+ " does not support any stacks from "
         +:+ Symbol (FullName (dist.Info (dist.Descriptor dep)))).
Proof.
  revert stacks. induction before as [|bp before IH]; intros stacks Hpre Hdep;
    simpl in *.
  - by rewrite Hdep.
  - rewrite decide_False.
    + apply IH; [|done]. intros k Hk. apply (Hpre (S k)). lia.
    + intros Hlen. apply (Hpre 1); [lia|]. simpl.
      by apply length_zero_iff_nil.
Qed.

(** [Save], call by call, once the checks have passed. *)
Lemma Save_run p repoName publish main stacks :
  buildpack p = Some main →
  ¬ (length (dist.Stacks (dist.Descriptor main)) = 0
     ∧ length (dist.Order (dist.Descriptor main)) = 0) →
  mergeDependencies Symbol FullName MergeCompatible main
    (dist.Stacks (dist.Descriptor main)) (dependencies p) = inr stacks →
  Save Symbol FullName MergeCompatible respond p repoName publish []
  = match respond [] (NewImage repoName (negb publish)) with
    | inl e =>
        ([NewImage repoName (negb publish)], inl (Eff.Wrap e "creating image"))
    | inr image =>
        let md := SetLabel image MetadataLabel
                    (MetadataValue
                       {| md_BuildpackInfo := dist.Info (dist.Descriptor main);
                          md_Stacks := stacks |}) in
        let head := [NewImage repoName (negb publish); md] in
        match respond [NewImage repoName (negb publish)] md with
        | inl e => (head, inl e)
        | inr _ =>
            match respond head (TempDir "" "create-package") with
            | inl e => (head ++ [TempDir "" "create-package"], inl e)
            | inr tmpDir =>
                match addLayers Symbol FullName respond image tmpDir ∅
                        (dependencies p ++ [main])
                        (head ++ [TempDir "" "create-package"]) with
                | (made, inl e) => (made ++ [RemoveAll tmpDir], inl e)
                | (made, inr bpLayers) =>
                    let lbl := SetLabel image dist.BuildpackLayersLabel
                                 (BuildpackLayersValue bpLayers) in
                    match respond made lbl with
                    | inl e => (made ++ [lbl; RemoveAll tmpDir], inl e)
                    | inr _ =>
                        match respond (made ++ [lbl]) (ImageSave image) with
                        | inl e =>
                            (made ++ [lbl; ImageSave image; RemoveAll tmpDir],
                             inl e)
                        | inr _ =>
                            (made ++ [lbl; ImageSave image; RemoveAll tmpDir],
                             inr image)
                        end
                    end
                end
            end
        end
    end.
Proof.
  intros Hmain Hne Hmerge. unfold Save. rewrite Hmain.
  rewrite decide_False by done.
  unfold Eff.bind at 1. unfold Eff.lift. rewrite Hmerge.
  unfold Eff.bind, Eff.wrapped, Eff.defer, Eff.ret, perform. simpl.
  destruct (respond [] _) as [e|image]; [done|].
  destruct (respond _ (SetLabel image MetadataLabel _)) as [e|x]; [done|].
  destruct (respond _ (TempDir _ _)) as [e|tmpDir]; [done|].
  destruct (addLayers _ _ _ _ _ _ _ _) as [made [e|bpLayers]]; [done|].
  destruct (respond made _) as [e|y]; simpl.
  { by rewrite <- app_assoc. }
  destruct (respond _ (ImageSave image)) as [e|z]; simpl;
    by rewrite <- !app_assoc.
Qed.

(** The loop adding the layers, when it succeeds: a layer per buildpack,
    in the order of the buildpacks; the tar of each layer is what
    [dist.BuildpackToLayerTar] returned for the buildpack, and its digest
    what [dist.LayerDiffID] returned for that tar. *)
Lemma addLayers_exact image tmpDir bps :
  ∀ bpLayers made made' out,
    addLayers Symbol FullName respond image tmpDir bpLayers bps made
    = (made', inr out) →
    ∃ ls,
      map l_bp ls = bps
      ∧ made' = made ++ flat_map (layerCalls image tmpDir) ls
      ∧ out = layersMD ls bpLayers
      ∧ ∀ i l,
          ls !! i = Some l →
          respond (made ++ flat_map (layerCalls image tmpDir) (take i ls))
            (BuildpackToLayerTar tmpDir (l_bp l)) = inr (l_tar l)
          ∧ respond
              (made ++ flat_map (layerCalls image tmpDir) (take i ls)
               ++ [BuildpackToLayerTar tmpDir (l_bp l);
                   AddLayer image (l_tar l)])
              (LayerDiffID (l_tar l)) = inr (l_diffID l).
Proof.
  induction bps as [|bp bps IH]; intros bpLayers made made' out; simpl.
  - intros [= <- <-]. exists []. rewrite app_nil_r.
    split_and!; [done..|]. intros i l Hl. by rewrite lookup_nil in Hl.
  - unfold Eff.bind, Eff.wrapped, perform.
    destruct (respond made _) as [e|tar] eqn:E1; [done|].
    destruct (respond (made ++ _) (AddLayer image tar)) as [e|x] eqn:E2;
      [done|].
    destruct (respond ((made ++ _) ++ _) (LayerDiffID tar)) as [e|d] eqn:E3;
      [done|].
    intros Hrest. apply IH in Hrest as (ls & Hbps & -> & -> & Hresp).
    exists ({| l_bp := bp; l_tar := tar; l_diffID := d |} :: ls).
    split_and!.
    + simpl. by rewrite Hbps.
    + simpl. by rewrite <- !app_assoc.
    + done.
    + intros [|i] l Hl; simpl in *.
      * injection Hl as <-. simpl. rewrite app_nil_r.
        split; [done|]. by rewrite <- app_assoc in E3.
      * destruct (Hresp i l Hl) as [H1 H2].
        rewrite <- !app_assoc in H1, H2. simpl in H1, H2. done.
Qed.

(** The calls of a [Save] that succeeds. *)
Lemma Save_success_run p repoName publish made image :
  Save Symbol FullName MergeCompatible respond p repoName publish []
  = (made, inr image) →
  ∃ main tmpDir ls,
    let head :=
      labelled repoName publish image (dist.Info (dist.Descriptor main))
        (foldl (λ acc bp,
                  MergeCompatible acc (dist.Stacks (dist.Descriptor bp)))
           (dist.Stacks (dist.Descriptor main)) (dependencies p))
      ++ [TempDir "" "create-package"] in
    buildpack p = Some main
    ∧ respond [] (NewImage repoName (negb publish)) = inr image
    ∧ respond
        (labelled repoName publish image (dist.Info (dist.Descriptor main))
           (foldl (λ acc bp,
                     MergeCompatible acc (dist.Stacks (dist.Descriptor bp)))
              (dist.Stacks (dist.Descriptor main)) (dependencies p)))
        (TempDir "" "create-package") = inr tmpDir
    ∧ map l_bp ls = dependencies p ++ [main]
    ∧ made
      = head ++ flat_map (layerCalls image tmpDir) ls
        ++ [SetLabel image dist.BuildpackLayersLabel
              (BuildpackLayersValue (layersMD ls ∅));
            ImageSave image; RemoveAll tmpDir]
    ∧ ∀ i l,
        ls !! i = Some l →
        respond (head ++ flat_map (layerCalls image tmpDir) (take i ls))
          (BuildpackToLayerTar tmpDir (l_bp l)) = inr (l_tar l)
        ∧ respond
            (head ++ flat_map (layerCalls image tmpDir) (take i ls)
             ++ [BuildpackToLayerTar tmpDir (l_bp l);
                 AddLayer image (l_tar l)])
            (LayerDiffID (l_tar l)) = inr (l_diffID l).
Proof.
  intros Hok.
  destruct (buildpack p) as [main|] eqn:Hmain.
  2: { unfold Save in Hok. by rewrite Hmain in Hok. }
  destruct (decide (length (dist.Stacks (dist.Descriptor main)) = 0
                    ∧ length (dist.Order (dist.Descriptor main)) = 0))
    as [Hempty|Hne].
  { unfold Save in Hok. rewrite Hmain in Hok.
    by rewrite decide_True in Hok by done. }
  destruct (mergeDependencies Symbol FullName MergeCompatible main
              (dist.Stacks (dist.Descriptor main)) (dependencies p))
    as [e|stacks] eqn:Hm.
  { unfold Save in Hok. rewrite Hmain in Hok.
    rewrite decide_False in Hok by done.
    unfold Eff.bind, Eff.lift in Hok. by rewrite Hm in Hok. }
  rewrite (Save_run p repoName publish main stacks Hmain Hne Hm) in Hok.
  apply mergeDependencies_inr in Hm as ->.
  destruct (respond [] _) as [e|image'] eqn:E1; [done|]. simpl in Hok.
  destruct (respond _ (SetLabel image' _ _)) as [e|x]; [done|].
  destruct (respond _ (TempDir _ _)) as [e|tmpDir] eqn:E3; [done|].
  destruct (addLayers _ _ _ _ _ _ _ _) as [made' [e|out]] eqn:EL; [done|].
  apply addLayers_exact in EL as (ls & Hbps & -> & -> & Hresp).
  destruct (respond _ (SetLabel _ dist.BuildpackLayersLabel _)) as [e|y];
    [done|].
  destruct (respond _ (ImageSave _)) as [e|z]; [done|].
  injection Hok as <- <-.
  exists main, tmpDir, ls. simpl.
  split_and!; done.
Qed.



End Save_trace.

(** C4, as amended.  When one of the checks at the head of [Save] fails,
    [Save] returns that error without having made any call: no image handle
    was created, no label or layer written, nothing persisted.  When the
    checks pass and [Save] succeeds, the image's [Save] was called exactly
    once.  When the checks pass and [Save] fails, either the image's [Save]
    was not called at all, or it was called once, as the last call before
    the temporary directory is removed, and the error returned is the one
    it gave. *)
Theorem Save_checks_first_persists_once
    (Symbol : string → string) (FullName : dist.BuildpackInfo → string)
    (MergeCompatible : list dist.Stack → list dist.Stack → list dist.Stack)
    (respond : list buildpackage.call → buildpackage.call → string + string)
    (p : buildpackage.PackageBuilder) (repoName : string) (publish : bool) :
  match buildpackage.validationError Symbol FullName MergeCompatible p with
  | Some e =>
      buildpackage.Save Symbol FullName MergeCompatible respond p repoName
        publish [] = ([], inl e)
  | None =>
      match buildpackage.Save Symbol FullName MergeCompatible respond p
              repoName publish [] with
      | (made, inr image) =>
          List.filter buildpackage.isImageSave made
          = [buildpackage.ImageSave image]
      | (made, inl e) =>
          List.filter buildpackage.isImageSave made = []
          ∨ ∃ pre image tmpDir,
              made = pre ++ [buildpackage.ImageSave image;
                             buildpackage.RemoveAll tmpDir]
              ∧ List.filter buildpackage.isImageSave pre = []
              ∧ respond pre (buildpackage.ImageSave image) = inl e
      end
  end.
Proof.
  destruct (buildpackage.validationError _ _ _ p) as [e|] eqn:Hv.
  - by apply Save_validation_fails.
  - destruct (Save_validation_passes Symbol FullName MergeCompatible respond
                p repoName publish Hv) as (main & _ & H).
    destruct (buildpackage.Save _ _ _ _ _ _ _ _) as [made [e|image]].
    + apply H.
    + apply H.
Qed.

(** C4, as stated, fails where the failing step is the image's [Save]
    itself: [Save] then fails although the image's [Save] was called. *)
Lemma Save_fails_in_persist_call :
  (samples.Save samples.saveFails
     (buildpackage.SetBuildpack (samples.bp1 [samples.stack1])
        buildpackage.NewBuilder) "some/package" false []).2
  = inl "save failed"
  ∧ List.filter buildpackage.isImageSave
      (samples.Save samples.saveFails
         (buildpackage.SetBuildpack (samples.bp1 [samples.stack1])
            buildpackage.NewBuilder) "some/package" false []).1
    = [buildpackage.ImageSave "some/package"].
Proof. split; by vm_compute. Qed.

(** C5, as amended.  [Save] does not look for repeated stack IDs.  The
    package builder holds no declared stacks of its own; the stacks are
    those of its buildpack's descriptor.  When that descriptor repeats a
    stack ID and there are no dependencies, the checks pass, and if every
    call succeeds [Save] succeeds, writes the stacks with the repetition
    into the metadata label and persists the image. *)
Theorem Save_keeps_repeated_stacks
    (Symbol : string → string) (FullName : dist.BuildpackInfo → string)
    (MergeCompatible : list dist.Stack → list dist.Stack → list dist.Stack)
    (respond : list buildpackage.call → buildpackage.call → string + string)
    (p : buildpackage.PackageBuilder) (main : dist.Buildpack)
    (repoName : string) (publish : bool) :
  buildpackage.buildpack p = Some main →
  buildpackage.dependencies p = [] →
  ¬ NoDup (dist.stack_ID <$> dist.Stacks (dist.Descriptor main)) →
  (∀ made c, ∃ v, respond made c = inr v) →
  buildpackage.validationError Symbol FullName MergeCompatible p = None
  ∧ ∃ image made,
      buildpackage.Save Symbol FullName MergeCompatible respond p repoName
        publish [] = (made, inr image)
      ∧ buildpackage.SetLabel image buildpackage.MetadataLabel
          (buildpackage.MetadataValue
             {| buildpackage.md_BuildpackInfo :=
                  dist.Info (dist.Descriptor main);
                buildpackage.md_Stacks :=
                  dist.Stacks (dist.Descriptor main) |}) ∈ made
      ∧ List.filter buildpackage.isImageSave made
        = [buildpackage.ImageSave image].
Proof.
  intros Hmain Hdeps Hdup Hok.
  assert (¬ (length (dist.Stacks (dist.Descriptor main)) = 0
             ∧ length (dist.Order (dist.Descriptor main)) = 0)) as Hne.
  { intros [Hlen _]. apply Hdup.
    destruct (dist.Stacks (dist.Descriptor main)); [constructor|done]. }
  assert (buildpackage.validationError Symbol FullName MergeCompatible p
          = None) as Hv.
  { unfold buildpackage.validationError. rewrite Hmain, Hdeps.
    by rewrite decide_False. }
  split; [done|].
  destruct (Save_succeeds Symbol FullName MergeCompatible respond Hok p
              repoName publish main (dist.Stacks (dist.Descriptor main)))
    as (image & rest & HS); [done|done|by rewrite Hdeps|].
  exists image, (buildpackage.NewImage repoName (negb publish)
                 :: buildpackage.SetLabel image buildpackage.MetadataLabel
                      (buildpackage.MetadataValue
                         {| buildpackage.md_BuildpackInfo :=
                              dist.Info (dist.Descriptor main);
                            buildpackage.md_Stacks :=
                              dist.Stacks (dist.Descriptor main) |})
                 :: rest).
  split_and!; [done|by right; left|].
  destruct (Save_validation_passes Symbol FullName MergeCompatible respond
              p repoName publish Hv) as (main' & _ & H).
  rewrite HS in H. apply H.
Qed.

Lemma Save_keeps_repeated_stacks_witness :
  ∃ image made,
    samples.Save samples.allSucceed
      (buildpackage.SetBuildpack (samples.bp1 [samples.stack1; samples.stack1])
         buildpackage.NewBuilder) "some/package" false []
    = (made, inr image)
    ∧ buildpackage.SetLabel image buildpackage.MetadataLabel
        (buildpackage.MetadataValue
           {| buildpackage.md_BuildpackInfo :=
                {| dist.ID := "bp.1.id"; dist.Version := "bp.1.version" |};
              buildpackage.md_Stacks := [samples.stack1; samples.stack1] |})
      ∈ made
    ∧ List.filter buildpackage.isImageSave made
      = [buildpackage.ImageSave image].
Proof.
  refine (proj2 (Save_keeps_repeated_stacks style.Symbol dist.FullName
                   stack.MergeCompatible samples.allSucceed
                   (buildpackage.SetBuildpack
                      (samples.bp1 [samples.stack1; samples.stack1])
                      buildpackage.NewBuilder)
                   (samples.bp1 [samples.stack1; samples.stack1])
                   "some/package" false eq_refl eq_refl _ _)).
  - simpl. intros H. apply NoDup_cons in H as [H _]. apply H. left.
  - intros made c. by eexists.
Defined.

(** C5, as stated, fails: a package builder whose stacks repeat an ID is
    saved without an error. *)
Lemma Save_accepts_repeated_stack :
  (samples.Save samples.allSucceed
     (buildpackage.SetBuildpack (samples.bp1 [samples.stack1; samples.stack1])
        buildpackage.NewBuilder) "some/package" false []).2
  = inr "some/package"
  ∧ List.filter buildpackage.isImageSave
      (samples.Save samples.allSucceed
         (buildpackage.SetBuildpack
            (samples.bp1 [samples.stack1; samples.stack1])
            buildpackage.NewBuilder) "some/package" false []).1
    = [buildpackage.ImageSave "some/package"].
Proof. split; by vm_compute. Qed.





(** ** The ephemeral builder *)

Section ephemeral_lemmas.
Context {TagRef StackImage BuildImage BuilderImage StackMetadata : Type}.
Variable c : pack.Client TagRef StackImage BuildImage BuilderImage
               StackMetadata.

(** Adding the buildpacks only logs; it leaves the image store alone. *)
Lemma addBuildpacks_run bps :
  ∀ bldr (w : pack.World TagRef), ∃ logs bldr',
    pack.addBuildpacks c bldr bps w
    = ({| pack.store := pack.store w;
          pack.events := pack.events w ++ logs |}, inr bldr')
    ∧ builder.image bldr' = builder.image bldr
    ∧ forallb pack.isLog logs = true.
Proof.
  induction bps as [|bp bps IH]; intros bldr w; simpl.
  - exists [], bldr. rewrite app_nil_r. by destruct w.
  - unfold Eff.bind, pack.emit, Eff.modify. simpl.
    edestruct IH as (logs & bldr' & -> & Himg & Hlogs). simpl.
    eexists (_ :: logs), bldr'. rewrite <- app_assoc.
    split_and!; [done|done|]. simpl. by rewrite Hlogs.
Qed.

(** What [createEphemeralBuilder] does to a live handle. *)
Lemma createEphemeralBuilder_run base env group bps
    (w : pack.World TagRef) img :
  imgutil.handles (pack.store w) !! base = Some img →
  ∃ w' r img' logs,
    pack.createEphemeralBuilder c base env group bps w = (w', r)
    ∧ imgutil.handles (pack.store w')
      = <[base := img']> (imgutil.handles (pack.store w))
    ∧ imgutil.Name img' = pack.ephemeralName c
    ∧ imgutil.BuilderMetadata img' = imgutil.BuilderMetadata img
    ∧ pack.events w' = pack.events w ++ logs
    ∧ forallb pack.isLog logs = true
    ∧ match r with
      | inr h =>
          h = base
          ∧ imgutil.daemon (pack.store w')
            = <[pack.ephemeralName c := img']> (imgutil.daemon (pack.store w))
      | inl _ =>
          imgutil.daemon (pack.store w') = imgutil.daemon (pack.store w)
      end.
Proof.
  intros Hlive. destruct w as [[handles daemon] events]. simpl in Hlive.
  unfold pack.createEphemeralBuilder.
  unfold Eff.bind at 1. unfold pack.onStore at 1.
  unfold imgutil.GetName, Eff.bind at 1. unfold imgutil.deref at 1.
  simpl. rewrite Hlive. unfold Eff.ret at 1.
  unfold Eff.bind at 1. unfold pack.onStore at 1.
  unfold imgutil.Rename, Eff.bind at 1. unfold imgutil.deref at 1.
  simpl. rewrite Hlive. unfold Eff.modify at 1. simpl.
  unfold Eff.bind at 1. unfold Eff.wrapped at 1. unfold pack.onStore at 1.
  unfold builder.FromImage, Eff.bind at 1. unfold imgutil.deref at 1.
  simpl. rewrite lookup_insert_eq. simpl.
  destruct (imgutil.BuilderMetadata img) as [api|] eqn:Hmd.
  2: { eexists _, _, (imgutil.withName (pack.ephemeralName c) img), [].
       split; [done|]. simpl. rewrite app_nil_r. by rewrite Hmd. }
  unfold Eff.ret at 1. simpl.
  unfold Eff.bind at 1.
  edestruct (addBuildpacks_run bps) as (logs & bldr & -> & Himg & Hlogs).
  simpl in Himg. simpl.
  unfold Eff.bind at 1.
  assert (∃ logs' bldr',
    (if decide (0 < length (dist.Group group))
     then Eff.bind (pack.emit (pack.Log (pack.Debug "Setting custom order")))
            (λ _, Eff.ret (builder.SetOrder [group] bldr))
     else Eff.ret bldr)
      {| pack.store :=
           imgutil.setHandle base
             (imgutil.withName (pack.ephemeralName c) img)
             {| imgutil.handles := handles; imgutil.daemon := daemon |};
         pack.events := events ++ logs |}
    = ({| pack.store :=
            imgutil.setHandle base
              (imgutil.withName (pack.ephemeralName c) img)
              {| imgutil.handles := handles; imgutil.daemon := daemon |};
          pack.events := events ++ logs' |}, inr bldr')
    ∧ builder.image bldr' = base ∧ forallb pack.isLog logs' = true)
    as (logs' & bldr' & -> & Himg' & Hlogs').
  { case_decide.
    - eexists (logs ++ [_]), _. unfold Eff.bind, pack.emit, Eff.modify, Eff.ret.
      simpl. rewrite <- app_assoc. split_and!; [done|done|].
      rewrite forallb_app, Hlogs. done.
    - by eexists logs, bldr. }
  unfold Eff.bind at 1. unfold Eff.wrapped at 1. unfold pack.onStore at 1.
  unfold builder.Save, Eff.bind at 1. unfold imgutil.deref at 1.
  simpl. rewrite Himg', lookup_insert_eq.
  unfold Eff.bind at 1. unfold Eff.modify at 1. simpl.
  unfold Eff.bind at 1. unfold imgutil.Save, Eff.bind at 1.
  unfold imgutil.deref at 1. simpl. rewrite lookup_insert_eq.
  destruct (pack.imageSaveErr c _) as [e|] eqn:Hsave;
    unfold Eff.fail, Eff.modify, Eff.ret, imgutil.setHandle; simpl;
    rewrite insert_insert_eq;
    eexists _, _, _, logs'; (split; [done|]); simpl;
    by split_and!.
Qed.

End ephemeral_lemmas.

Section Build_lemmas.
Context {TagRef StackImage BuildImage BuilderImage StackMetadata : Type}.
Variable c : pack.Client TagRef StackImage BuildImage BuilderImage
               StackMetadata.

(** On a nil image [createEphemeralBuilder] panics at once. *)
Lemma createEphemeralBuilder_nil base env group bps (w : pack.World TagRef) :
  imgutil.handles (pack.store w) !! base = None →
  pack.createEphemeralBuilder c base env group bps w
  = (w, inl "panic: nil image").
Proof.
  intros Hnil. destruct w as [[handles daemon] events]. simpl in Hnil.
  unfold pack.createEphemeralBuilder, Eff.bind, pack.onStore,
    imgutil.GetName, Eff.bind, imgutil.deref. simpl. by rewrite Hnil.
Qed.

(** A builder that was composed is a live image under the scratch name. *)
Lemma createEphemeralBuilder_composed base env group bps
    (w w1 : pack.World TagRef) eph :
  pack.createEphemeralBuilder c base env group bps w = (w1, inr eph) →
  ∃ img', imgutil.handles (pack.store w1) !! eph = Some img'
          ∧ imgutil.Name img' = pack.ephemeralName c.
Proof.
  intros Hrun.
  destruct (imgutil.handles (pack.store w) !! base) as [img|] eqn:Hlive.
  2: { rewrite (createEphemeralBuilder_nil _ _ _ _ _ Hlive) in Hrun.
       discriminate Hrun. }
  destruct (createEphemeralBuilder_run c base env group bps w img Hlive)
    as (w' & r & img' & logs & Hrun' & Hh & Hname & _ & _ & _ & Hr).
  rewrite Hrun in Hrun'. injection Hrun' as <- <-. destruct Hr as [-> _].
  exists img'. split; [|done]. rewrite Hh. apply lookup_insert_eq.
Qed.

(** The end of [Build], by the outcome of the composition. *)
Lemma Build_compose_run opts appPath imageRef proxyConfig raw runImageName
    bps group (w : pack.World TagRef) :
  pack.Build_compose c opts appPath imageRef proxyConfig raw runImageName
    bps group w
  = match pack.createEphemeralBuilder c raw (pack.opt_Env opts) group bps
            w with
    | (w1, inl e) => (w1, inl e)
    | (w1, inr eph) =>
        match imgutil.handles (pack.store w1) !! eph with
        | None => (w1, inl "panic: nil image")
        | Some img' =>
            let call :=
              pack.lifecycleCall opts appPath imageRef proxyConfig eph
                runImageName in
            let removed := pack.docker_daemon c (imgutil.Name img') in
            if pack.SupportsVersion c (pack.build_PlatformAPIVersion c)
                 (builder.PlatformAPIVersion img')
            then
              ({| pack.store := (removed (pack.store w1)).1;
                  pack.events :=
                    pack.events w1
                    ++ [call; pack.ImageRemove (imgutil.Name img')] |},
               match pack.lifecycle_Execute c call with
               | Some e => inl e
               | None => inr tt
               end)
            else
              ({| pack.store := (removed (pack.store w1)).1;
                  pack.events :=
                    pack.events w1
                    ++ [pack.ImageRemove (imgutil.Name img')] |},
               inl ("pack " +:+ pack.cmd_Version c
                    +:+ " (Platform API version "
                    +:+ pack.build_PlatformAPIVersion c
                    +:+ ") is incompatible with builder "
                    +:+ pack.Symbol c (pack.opt_Builder opts)
                    +:+ " (Platform API version "
                    +:+ builder.PlatformAPIVersion img' +:+ ")"))
        end
    end.
Proof.
  unfold pack.Build_compose. unfold Eff.bind at 1.
  destruct (pack.createEphemeralBuilder c raw _ group bps w)
    as [[[handles1 daemon1] events1] [e|eph]]; [done|].
  unfold Eff.bind at 1. unfold pack.onStore at 1.
  unfold imgutil.GetName, Eff.bind at 1. unfold imgutil.deref at 1.
  simpl. destruct (handles1 !! eph) as [img'|] eqn:Hlook; [|done].
  unfold Eff.ret at 1.
  unfold Eff.defer, Eff.bind at 1. unfold pack.onStore at 1.
  unfold imgutil.deref at 1. simpl. rewrite Hlook.
  unfold pack.docker_ImageRemove, pack.lifecycleCall.
  destruct (pack.SupportsVersion c _ _); simpl.
  - unfold Eff.bind, pack.emit, Eff.modify, pack.check, pack.onStore. simpl.
    destruct (pack.lifecycle_Execute c _); simpl;
      unfold Eff.fail, Eff.ret; simpl;
      destruct (pack.docker_daemon c _ _) as [st r]; simpl;
      by rewrite <- app_assoc.
  - unfold Eff.fail, Eff.bind, pack.emit, Eff.modify, pack.onStore. simpl.
    by destruct (pack.docker_daemon c _ _) as [st r].
Qed.

(** [Build], by the outcome of its head and of the composition. *)
Lemma Build_run opts (w : pack.World TagRef) :
  pack.Build c opts w
  = match pack.Build_resolve c opts w with
    | (w0, inl e) => (w0, inl e)
    | (w0, inr inputs) =>
        match pack.createEphemeralBuilder c (pack.in_rawBuilderImage inputs)
                (pack.opt_Env opts) (pack.in_group inputs)
                (pack.in_fetchedBPs inputs) w0 with
        | (w1, inl e) => (w1, inl e)
        | (w1, inr eph) =>
            match imgutil.handles (pack.store w1) !! eph with
            | None => (w1, inl "panic: nil image")
            | Some img' =>
                let call :=
                  pack.lifecycleCall opts (pack.in_appPath inputs)
                    (pack.in_imageRef inputs) (pack.in_proxyConfig inputs)
                    eph (pack.in_runImageName inputs) in
                let removed := pack.docker_daemon c (imgutil.Name img') in
                if pack.SupportsVersion c (pack.build_PlatformAPIVersion c)
                     (builder.PlatformAPIVersion img')
                then
                  ({| pack.store := (removed (pack.store w1)).1;
                      pack.events :=
                        pack.events w1
                        ++ [call; pack.ImageRemove (imgutil.Name img')] |},
                   match pack.lifecycle_Execute c call with
                   | Some e => inl e
                   | None => inr tt
                   end)
                else
                  ({| pack.store := (removed (pack.store w1)).1;
                      pack.events :=
                        pack.events w1
                        ++ [pack.ImageRemove (imgutil.Name img')] |},
                   inl ("pack " +:+ pack.cmd_Version c
                        +:+ " (Platform API version "
                        +:+ pack.build_PlatformAPIVersion c
                        +:+ ") is incompatible with builder "
                        +:+ pack.Symbol c (pack.opt_Builder opts)
                        +:+ " (Platform API version "
                        +:+ builder.PlatformAPIVersion img' +:+ ")"))
            end
        end
    end.
Proof.
  unfold pack.Build. unfold Eff.bind at 1.
  destruct (pack.Build_resolve c opts w) as [w0 [e|inputs]]; [done|].
  apply Build_compose_run.
Qed.

(** *** Computations that neither run the lifecycle nor remove an image *)

Lemma quiet_ret {A} (a : A) : pack.quiet (TagRef := TagRef) (Eff.ret a).
Proof. intros w. exists []. by rewrite app_nil_r. Qed.

Lemma quiet_fail {A} msg : pack.quiet (TagRef := TagRef) (A := A) (Eff.fail msg).
Proof. intros w. exists []. by rewrite app_nil_r. Qed.

Lemma quiet_lift {A} (r : string + A) : pack.quiet (TagRef := TagRef) (Eff.lift r).
Proof. intros w. exists []. by rewrite app_nil_r. Qed.

Lemma quiet_check r : pack.quiet (TagRef := TagRef) (pack.check r).
Proof. destruct r; [apply quiet_fail|apply quiet_ret]. Qed.

Lemma quiet_bind {A B} (m : Eff.M (pack.World TagRef) A)
    (k : A → Eff.M (pack.World TagRef) B) :
  pack.quiet m → (∀ a, pack.quiet (k a)) → pack.quiet (Eff.bind m k).
Proof.
  intros Hm Hk w. destruct (Hm w) as (new1 & Hev1 & Hq1).
  unfold Eff.bind. destruct (m w) as [w1 [e|a]]; simpl in *.
  - by exists new1.
  - destruct (Hk a w1) as (new2 & Hev2 & Hq2).
    exists (new1 ++ new2). rewrite Hev2, Hev1, <- app_assoc.
    split; [done|]. by rewrite forallb_app, Hq1, Hq2.
Qed.

Lemma quiet_wrapped {A} msg (m : Eff.M (pack.World TagRef) A) :
  pack.quiet m → pack.quiet (Eff.wrapped msg m).
Proof.
  intros Hm w. destruct (Hm w) as (new & Hev & Hq). exists new.
  unfold Eff.wrapped. by destruct (m w) as [w1 [e|a]].
Qed.

Lemma quiet_onStore {A} (m : Eff.M imgutil.Store A) :
  pack.quiet (TagRef := TagRef) (pack.onStore m).
Proof.
  intros w. exists []. unfold pack.onStore.
  destruct (m (pack.store w)) as [st r]. simpl. by rewrite app_nil_r.
Qed.

Lemma quiet_onSystem {A} (m : Eff.M (list pack_io.event) A) :
  pack.quiet (TagRef := TagRef) (pack.onSystem m).
Proof.
  intros w. unfold pack.onSystem. destruct (m []) as [evs r]. simpl.
  exists (map pack.ofIO evs). split; [done|].
  induction evs as [|[] evs IH]; simpl; done.
Qed.

Lemma quiet_log entry :
  pack.quiet (TagRef := TagRef) (pack.emit (pack.Log entry)).
Proof. intros w. by exists [pack.Log entry]. Qed.

Lemma quiet_imageFetcher name daemon pull :
  pack.quiet (pack.imageFetcher c name daemon pull).
Proof.
  apply quiet_bind; [|intros _; apply quiet_onStore].
  intros w. by exists [pack.Fetch name daemon pull].
Qed.

Lemma quiet_validateRunImage name noPull publish expectedStack :
  pack.quiet (pack.validateRunImage c name noPull publish expectedStack).
Proof.
  unfold pack.validateRunImage.
  apply quiet_bind; [apply quiet_imageFetcher|intros img].
  apply quiet_bind; [apply quiet_onStore|intros i].
  apply quiet_bind; [apply quiet_lift|intros stackImage].
  case_decide; [apply quiet_fail|apply quiet_lift].
Qed.

Lemma quiet_Build_resolve opts : pack.quiet (pack.Build_resolve c opts).
Proof.
  unfold pack.Build_resolve.
  apply quiet_bind; [apply quiet_wrapped, quiet_lift|intros imageRef].
  apply quiet_bind; [apply quiet_wrapped, quiet_onSystem|intros appPath].
  apply quiet_bind; [apply quiet_wrapped, quiet_lift|intros builderRef].
  apply quiet_bind; [apply quiet_wrapped, quiet_imageFetcher|intros raw].
  apply quiet_bind; [apply quiet_onStore|intros rawImg].
  apply quiet_bind; [apply quiet_lift|intros stackImage].
  apply quiet_bind; [apply quiet_lift|intros buildImage].
  apply quiet_bind; [apply quiet_lift|intros builderImage].
  case_decide; [apply quiet_fail|].
  apply quiet_bind; [apply quiet_wrapped, quiet_validateRunImage|intros run].
  apply quiet_bind; [apply quiet_onSystem|intros [bps group]].
  apply quiet_bind; [apply quiet_wrapped, quiet_check|intros _].
  apply quiet_ret.
Qed.

Lemma quiet_addBuildpacks bps :
  ∀ bldr, pack.quiet (pack.addBuildpacks c bldr bps).
Proof.
  induction bps as [|bp bps IH]; intros bldr; simpl.
  - apply quiet_ret.
  - apply quiet_bind; [apply quiet_log|intros _; apply IH].
Qed.

Lemma quiet_createEphemeralBuilder base env group bps :
  pack.quiet (pack.createEphemeralBuilder c base env group bps).
Proof.
  unfold pack.createEphemeralBuilder.
  apply quiet_bind; [apply quiet_onStore|intros origBuilderName].
  apply quiet_bind; [apply quiet_onStore|intros _].
  apply quiet_bind; [apply quiet_wrapped, quiet_onStore|intros bldr].
  apply quiet_bind; [apply quiet_addBuildpacks|intros bldr'].
  apply quiet_bind.
  { case_decide; [|apply quiet_ret].
    apply quiet_bind; [apply quiet_log|intros _; apply quiet_ret]. }
  intros bldr''.
  apply quiet_bind; [apply quiet_wrapped, quiet_onStore|intros img].
  apply quiet_ret.
Qed.

End Build_lemmas.

(** C3.  [createEphemeralBuilder] leaves the stored base image alone.  The
    handle it is given, the working copy, is renamed to the scratch name
    [pack.local/builder/<hex of ten random letters>:latest] before anything
    else is done to it, whether the call then fails or not; no other
    handle changes.  In the local image store every image held under a name
    other than the scratch name is as it was: an image stored under the
    original name of the base builder is still stored under that name,
    unchanged, so it still carries its original name and is found under
    it. *)
Theorem createEphemeralBuilder_keeps_base_image
    {TagRef StackImage BuildImage BuilderImage StackMetadata : Type}
    (c : pack.Client TagRef StackImage BuildImage BuilderImage StackMetadata)
    (base : nat) (env : list (string * string)) (group : dist.OrderEntry)
    (bps : list dist.Buildpack) (w : pack.World TagRef) (img : imgutil.Image) :
  imgutil.handles (pack.store w) !! base = Some img →
  ∃ w' r,
    pack.createEphemeralBuilder c base env group bps w = (w', r)
    ∧ imgutil.Name <$> imgutil.handles (pack.store w') !! base
      = Some (pack.ephemeralName c)
    ∧ (∀ h, h ≠ base →
            imgutil.handles (pack.store w') !! h
            = imgutil.handles (pack.store w) !! h)
    ∧ (∀ name, name ≠ pack.ephemeralName c →
               imgutil.daemon (pack.store w') !! name
               = imgutil.daemon (pack.store w) !! name)
    ∧ (∀ stored,
         imgutil.Name img ≠ pack.ephemeralName c →
         imgutil.daemon (pack.store w) !! imgutil.Name img = Some stored →
         imgutil.daemon (pack.store w') !! imgutil.Name img = Some stored).
Proof.
  intros Hlive.
  destruct (createEphemeralBuilder_run c base env group bps w img Hlive)
    as (w' & r & img' & logs & Hrun & Hh & Hname & _ & _ & _ & Hr).
  assert (∀ name, name ≠ pack.ephemeralName c →
                  imgutil.daemon (pack.store w') !! name
                  = imgutil.daemon (pack.store w) !! name) as Hd.
  { intros name Hne. destruct r as [e|h].
    - by rewrite Hr.
    - destruct Hr as [_ ->]. by rewrite lookup_insert_ne. }
  exists w', r. split_and!.
  - done.
  - rewrite Hh, lookup_insert_eq. simpl. by rewrite Hname.
  - intros h Hne. rewrite Hh. by rewrite lookup_insert_ne.
  - done.
  - intros stored Hne Hstored. by rewrite (Hd _ Hne).
Qed.

Lemma createEphemeralBuilder_keeps_base_image_witness :
  ∃ w' r,
    pack.createEphemeralBuilder (samples.client true None None) 0 []
      samples.noGroup [samples.bp1 []] samples.world0 = (w', r)
    ∧ imgutil.Name <$> imgutil.handles (pack.store w') !! 0
      = Some "pack.local/builder/6162636465666768696a:latest"
    ∧ imgutil.daemon (pack.store w') !! "cnbs/sample-builder:bionic"
      = Some samples.baseImage.
Proof.
  destruct (createEphemeralBuilder_keeps_base_image
              (samples.client true None None) 0 [] samples.noGroup
              [samples.bp1 []] samples.world0 samples.baseImage eq_refl)
    as (w' & r & Hrun & Hname & _ & _ & Hd).
  exists w', r. split_and!.
  - exact Hrun.
  - exact Hname.
  - apply (Hd samples.baseImage); [discriminate|reflexivity].
Defined.

(** On the sample builder: the composition succeeds, the handle carries
    the scratch name, and the local store holds the base image under its
    original name as before and the composed builder under the scratch
    name. *)
Example createEphemeralBuilder_sample :
  (pack.createEphemeralBuilder (samples.client true None None) 0 []
     samples.noGroup [samples.bp1 []] samples.world0).2 = inr 0
  ∧ imgutil.Name
      <$> imgutil.handles
            (pack.store
               (pack.createEphemeralBuilder (samples.client true None None) 0
                  [] samples.noGroup [samples.bp1 []] samples.world0).1) !! 0
    = Some "pack.local/builder/6162636465666768696a:latest"
  ∧ imgutil.Name
      <$> imgutil.daemon
            (pack.store
               (pack.createEphemeralBuilder (samples.client true None None) 0
                  [] samples.noGroup [samples.bp1 []] samples.world0).1)
          !! "cnbs/sample-builder:bionic"
    = Some "cnbs/sample-builder:bionic"
  ∧ imgutil.Name
      <$> imgutil.daemon
            (pack.store
               (pack.createEphemeralBuilder (samples.client true None None) 0
                  [] samples.noGroup [samples.bp1 []] samples.world0).1)
          !! "pack.local/builder/6162636465666768696a:latest"
    = Some "pack.local/builder/6162636465666768696a:latest".
Proof. split_and!; by vm_compute. Qed.

(** ** Removal of the ephemeral builder *)

(** C8.  [Build] is determined by its head and by the composition of the
    ephemeral builder as follows.  If the head fails, or the composition
    fails, [Build] returns that error and stops there.  Once the
    composition has returned a builder, [docker.ImageRemove] is called for
    the name of that builder, once and as the last thing [Build] does, on
    every way out: when the platform API is not supported, [Build] fails
    without running the lifecycle and the removal follows; otherwise the
    lifecycle is run once, the removal follows, and [Build] returns what
    the lifecycle returned, error or not.  What the removal returns is
    dropped.  Neither the head of [Build] nor the composition runs the
    lifecycle or removes an image, and a composed builder is a live image
    under the scratch name: that is the name removed.  So, with a docker
    daemon that removes the image it is asked to remove, no image is left
    in the local store under the scratch name when [Build] returns after a
    successful composition. *)
Theorem Build_removes_ephemeral_builder
    {TagRef StackImage BuildImage BuilderImage StackMetadata : Type}
    (c : pack.Client TagRef StackImage BuildImage BuilderImage StackMetadata)
    (opts : pack.BuildOptions) (w : pack.World TagRef) :
  pack.Build c opts w
  = match pack.Build_resolve c opts w with
    | (w0, inl e) => (w0, inl e)
    | (w0, inr inputs) =>
        match pack.createEphemeralBuilder c (pack.in_rawBuilderImage inputs)
                (pack.opt_Env opts) (pack.in_group inputs)
                (pack.in_fetchedBPs inputs) w0 with
        | (w1, inl e) => (w1, inl e)
        | (w1, inr eph) =>
            match imgutil.handles (pack.store w1) !! eph with
            | None => (w1, inl "panic: nil image")
            | Some img' =>
                let call :=
                  pack.lifecycleCall opts (pack.in_appPath inputs)
                    (pack.in_imageRef inputs) (pack.in_proxyConfig inputs)
                    eph (pack.in_runImageName inputs) in
                let removed := pack.docker_daemon c (imgutil.Name img') in
                if pack.SupportsVersion c (pack.build_PlatformAPIVersion c)
                     (builder.PlatformAPIVersion img')
                then
                  ({| pack.store := (removed (pack.store w1)).1;
                      pack.events :=
                        pack.events w1
                        ++ [call; pack.ImageRemove (imgutil.Name img')] |},
                   match pack.lifecycle_Execute c call with
                   | Some e => inl e
                   | None => inr tt
                   end)
                else
                  ({| pack.store := (removed (pack.store w1)).1;
                      pack.events :=
                        pack.events w1
                        ++ [pack.ImageRemove (imgutil.Name img')] |},
                   inl ("pack " +:+ pack.cmd_Version c
                        +:+ " (Platform API version "
                        +:+ pack.build_PlatformAPIVersion c
                        +:+ ") is incompatible with builder "
                        +:+ pack.Symbol c (pack.opt_Builder opts)
                        +:+ " (Platform API version "
                        +:+ builder.PlatformAPIVersion img' +:+ ")"))
            end
        end
    end
  ∧ pack.quiet (pack.Build_resolve c opts)
  ∧ (∀ base env group bps,
       pack.quiet (pack.createEphemeralBuilder c base env group bps))
  ∧ (∀ base env group bps (w0 w1 : pack.World TagRef) eph,
       pack.createEphemeralBuilder c base env group bps w0 = (w1, inr eph) →
       ∃ img', imgutil.handles (pack.store w1) !! eph = Some img'
               ∧ imgutil.Name img' = pack.ephemeralName c)
  ∧ ((∀ name st,
        imgutil.daemon (pack.docker_daemon c name st).1 !! name = None) →
     ∀ w0 inputs w1 eph,
       pack.Build_resolve c opts w = (w0, inr inputs) →
       pack.createEphemeralBuilder c (pack.in_rawBuilderImage inputs)
         (pack.opt_Env opts) (pack.in_group inputs)
         (pack.in_fetchedBPs inputs) w0 = (w1, inr eph) →
       imgutil.daemon (pack.store (pack.Build c opts w).1)
         !! pack.ephemeralName c = None).
Proof.
  split_and!.
  - apply Build_run.
  - apply quiet_Build_resolve.
  - apply quiet_createEphemeralBuilder.
  - apply createEphemeralBuilder_composed.
  - intros Hremoves w0 inputs w1 eph Hres Hcomp.
    rewrite Build_run, Hres, Hcomp.
    destruct (createEphemeralBuilder_composed c _ _ _ _ _ _ _ Hcomp)
      as (img' & -> & <-).
    simpl. destruct (pack.SupportsVersion c _ _); simpl; apply Hremoves.
Qed.

Lemma Build_removes_ephemeral_builder_witness :
  pack.events
    (pack.Build (samples.client false None None) samples.buildOptions
       samples.buildWorld).1
  = [pack.Fetch "cnbs/sample-builder:bionic" true false;
     pack.Fetch "cnbs/sample-run:bionic" true false;
     pack.ImageRemove "pack.local/builder/6162636465666768696a:latest"].
Proof.
  rewrite (proj1 (Build_removes_ephemeral_builder
                    (samples.client false None None) samples.buildOptions
                    samples.buildWorld)).
  vm_compute. reflexivity.
Defined.

(** The three ways out of [Build] after a successful composition, on the
    sample builder: the lifecycle succeeds, the lifecycle fails, the
    platform API is not supported.  The removal comes last each time. *)
Example Build_lifecycle_succeeds :
  (pack.Build (samples.client true None None) samples.buildOptions
     samples.buildWorld).2 = inr tt
  ∧ pack.events
      (pack.Build (samples.client true None None) samples.buildOptions
         samples.buildWorld).1
    = [pack.Fetch "cnbs/sample-builder:bionic" true false;
       pack.Fetch "cnbs/sample-run:bionic" true false;
       pack.lifecycleCall samples.buildOptions "/workspace/app" "my/app"
         {| pack.HTTPProxy := ""; pack.HTTPSProxy := ""; pack.NoProxy := "" |}
         0 "cnbs/sample-run:bionic";
       pack.ImageRemove "pack.local/builder/6162636465666768696a:latest"].
Proof. split; by vm_compute. Qed.

Example Build_lifecycle_fails :
  (pack.Build (samples.client true (Some "build failed") None)
     samples.buildOptions samples.buildWorld).2 = inl "build failed"
  ∧ pack.events
      (pack.Build (samples.client true (Some "build failed") None)
         samples.buildOptions samples.buildWorld).1
    = [pack.Fetch "cnbs/sample-builder:bionic" true false;
       pack.Fetch "cnbs/sample-run:bionic" true false;
       pack.lifecycleCall samples.buildOptions "/workspace/app" "my/app"
         {| pack.HTTPProxy := ""; pack.HTTPSProxy := ""; pack.NoProxy := "" |}
         0 "cnbs/sample-run:bionic";
       pack.ImageRemove "pack.local/builder/6162636465666768696a:latest"].
Proof. split; by vm_compute. Qed.

Example Build_platform_API_unsupported :
  pack.events
    (pack.Build (samples.client false None None) samples.buildOptions
       samples.buildWorld).1
  = [pack.Fetch "cnbs/sample-builder:bionic" true false;
     pack.Fetch "cnbs/sample-run:bionic" true false;
     pack.ImageRemove "pack.local/builder/6162636465666768696a:latest"].
Proof. by vm_compute. Qed.

(** When the composition itself fails, here on saving the image, nothing
    is removed. *)
Example Build_composition_fails :
  (pack.Build (samples.client true None (Some "disk full"))
     samples.buildOptions samples.buildWorld).2
  = inl "invalid builder 'cnbs/sample-builder:bionic': disk full"
  ∧ pack.events
      (pack.Build (samples.client true None (Some "disk full"))
         samples.buildOptions samples.buildWorld).1
    = [pack.Fetch "cnbs/sample-builder:bionic" true false;
       pack.Fetch "cnbs/sample-run:bionic" true false].
Proof. split; by vm_compute. Qed.

(** The removal is asked for whether or not the daemon carries it out, and
    what the daemon answers does not change what [Build] returns: with a
    daemon that fails to remove, the scratch image stays in the store. *)
Example Build_removal_fails :
  (pack.Build (samples.clientOn samples.notRemoving true None None)
     samples.buildOptions samples.buildWorld).2 = inr tt
  ∧ pack.events
      (pack.Build (samples.clientOn samples.notRemoving true None None)
         samples.buildOptions samples.buildWorld).1
    = [pack.Fetch "cnbs/sample-builder:bionic" true false;
       pack.Fetch "cnbs/sample-run:bionic" true false;
       pack.lifecycleCall samples.buildOptions "/workspace/app" "my/app"
         {| pack.HTTPProxy := ""; pack.HTTPSProxy := ""; pack.NoProxy := "" |}
         0 "cnbs/sample-run:bionic";
       pack.ImageRemove "pack.local/builder/6162636465666768696a:latest"]
  ∧ imgutil.Name
      <$> imgutil.daemon
            (pack.store
               (pack.Build (samples.clientOn samples.notRemoving true None
                              None)
                  samples.buildOptions samples.buildWorld).1)
          !! "pack.local/builder/6162636465666768696a:latest"
    = Some "pack.local/builder/6162636465666768696a:latest".
Proof. split_and!; by vm_compute. Qed.

(** A build that publishes, may pull, takes a zip file as the
    application and names a buildpack by [@latest]: the builder is fetched
    from the daemon, pulling; the run image from the registry, pulling; the
    zip file is opened and closed; the warning of [parseBuildpack] is
    logged; and the removal comes last. *)
Example Build_publishing :
  pack.events
    (pack.Build (samples.client true None None) samples.publishOptions
       samples.buildWorld).1
  = [pack.IO (pack_io.Open "/workspace/app.zip");
     pack.IO (pack_io.Close "/workspace/app.zip");
     pack.Fetch "cnbs/sample-builder:bionic" true true;
     pack.Fetch "cnbs/sample-run:bionic" false true;
     pack.Log
       (pack.Warn
          "@latest syntax is deprecated, will not work in future releases");
     pack.Log (pack.Debug "Setting custom order");
     pack.lifecycleCall samples.publishOptions "/workspace/app.zip" "my/app"
       {| pack.HTTPProxy := ""; pack.HTTPSProxy := ""; pack.NoProxy := "" |}
       0 "cnbs/sample-run:bionic";
     pack.ImageRemove "pack.local/builder/6162636465666768696a:latest"].
Proof. by vm_compute. Qed.

(** * Further properties *)

(** ** Mixins *)

(** X1.  [findMissing] looks at [actual] only as a set: two slices with the
    same elements, in whatever order and however often repeated, give the
    same missing entries. *)
Theorem findMissing_actual_as_set (actual actual' required : list string) :
  (∀ m, m ∈ actual ↔ m ∈ actual') →
  pack.findMissing actual required = pack.findMissing actual' required.
Proof.
  intros Hsame. rewrite !findMissing_filter.
  apply list_filter_iff. intros m. by rewrite Hsame.
Qed.

Lemma findMissing_actual_as_set_witness :
  pack.findMissing ["a"; "b"] ["c"; "b"; "d"]
  = pack.findMissing ["b"; "a"; "b"] ["c"; "b"; "d"].
Proof.
  apply findMissing_actual_as_set. intros m.
  rewrite !elem_of_cons, !elem_of_nil. tauto.
Defined.

(** X2.  Nothing is missing exactly when every required entry is among the
    actual ones; in particular a slice lacks nothing of itself, and the
    entries that are reported are never among the actual ones. *)
Theorem findMissing_empty_iff_covered (actual required : list string) :
  (pack.findMissing actual required = [] ↔ required ⊆ actual)
  ∧ pack.findMissing actual actual = []
  ∧ Forall (λ m, m ∉ actual) (pack.findMissing actual required)
  ∧ length (pack.findMissing actual required) ≤ length required.
Proof.
  split_and!.
  - apply findMissing_nil_iff.
  - by apply findMissing_nil_iff.
  - apply Forall_forall. intros m Hm.
    by apply findMissing_elem_of in Hm as [_ ?].
  - rewrite findMissing_filter. apply length_filter.
Qed.

Section validateMixins_lemmas.
Context {TagRef StackImage BuildImage BuilderImage StackMetadata : Type}.
Variable c : pack.Client TagRef StackImage BuildImage BuilderImage
               StackMetadata.

Lemma ensureAll_None bps stackID mixins :
  pack.ensureAll c bps stackID mixins = None
  ↔ Forall (λ bp, pack.EnsureStackSupport c bp stackID mixins true = None) bps.
Proof.
  induction bps as [|bp bps IH]; simpl.
  - split; [constructor|done].
  - destruct (pack.EnsureStackSupport c bp stackID mixins true) eqn:E.
    + split; [done|]. intros H. apply Forall_cons in H as [H _]. congruence.
    + rewrite IH. split; [by constructor|]. by intros [_ ?]%Forall_cons.
Qed.

(** The error of the loop is the error of the first buildpack that is not
    supported. *)
Lemma ensureAll_Some bps stackID mixins err :
  pack.ensureAll c bps stackID mixins = Some err →
  ∃ before bp after,
    bps = before ++ bp :: after
    ∧ Forall (λ b, pack.EnsureStackSupport c b stackID mixins true = None)
        before
    ∧ pack.EnsureStackSupport c bp stackID mixins true = Some err.
Proof.
  induction bps as [|bp bps IH]; simpl; [done|].
  destruct (pack.EnsureStackSupport c bp stackID mixins true) eqn:E.
  - intros [= ->]. by exists [], bp, bps.
  - intros (before & b & after & -> & Hb & Herr)%IH.
    exists (bp :: before), b, after. split_and!; [done| |done].
    by constructor.
Qed.

End validateMixins_lemmas.

(** X3.  [validateMixins] succeeds exactly when the builder's common mixins
    are all common mixins of the run image and every buildpack, those of
    the builder and the additional ones, supports the builder's stack with
    the assembled mixins.  When the common mixins do not agree, its error
    is the one of the common-mixin check, whatever the buildpacks are. *)
Theorem validateMixins_checks_common_mixins_first
    {TagRef StackImage BuildImage BuilderImage StackMetadata : Type}
    (c : pack.Client TagRef StackImage BuildImage BuilderImage StackMetadata)
    (additional : list dist.Buildpack) (b : pack.builderImage)
    (r : pack.runImage) :
  (pack.validateMixins c additional b r = None
   ↔ pack.b_CommonMixins b ⊆ pack.r_CommonMixins r
     ∧ Forall (λ bp,
                 pack.EnsureStackSupport c bp (pack.b_StackID b)
                   (pack.assembleAvailableMixins b r) true = None)
         (pack.allBuildpacks b additional))
  ∧ (¬ pack.b_CommonMixins b ⊆ pack.r_CommonMixins r →
     pack.validateMixins c additional b r
     = pack.validateCommonMixins (pack.Symbol c) b r
     ∧ pack.validateMixins c additional b r ≠ None).
Proof.
  unfold pack.validateMixins, pack.validateCommonMixins.
  destruct (decide (0 < length (pack.findMissing (pack.r_CommonMixins r)
                                  (pack.b_CommonMixins b)))) as [Hlen|Hlen].
  - assert (¬ pack.b_CommonMixins b ⊆ pack.r_CommonMixins r) as Hn.
    { intros Hsub%findMissing_nil_iff. rewrite Hsub in Hlen. simpl in Hlen.
      lia. }
    split; [|done]. split; [done|]. by intros [? _].
  - assert (pack.b_CommonMixins b ⊆ pack.r_CommonMixins r) as Hsub.
    { apply findMissing_nil_iff.
      destruct (pack.findMissing _ _); [done|]. simpl in Hlen. lia. }
    split; [|done]. rewrite ensureAll_None. tauto.
Qed.

Lemma validateMixins_checks_common_mixins_first_witness :
  pack.validateMixins (samples.client true None None) []
    {| pack.b_CommonMixins := ["A"; "B"]; pack.b_BuildOnlyMixins := [];
       pack.b_StackID := "io.buildpacks.stacks.bionic";
       pack.b_BuildpackLayers := ∅ |}
    {| pack.r_Name := "run"; pack.r_CommonMixins := ["A"];
       pack.r_RunOnlyMixins := [] |}
  ≠ None.
Proof.
  refine (proj2 (proj2 (validateMixins_checks_common_mixins_first
                          (samples.client true None None) [] _ _) _)).
  simpl. intros H.
  assert ("B" ∈ (["A"] : list string)) as HB by (apply H; right; left).
  by apply list_elem_of_singleton in HB.
Defined.

(** X4.  Once the common-mixin check has passed, the mixins a buildpack
    may require are, as a set, all the builder's mixins together with the
    run image's run-only mixins: the run image's extra common mixins add
    nothing. *)
Theorem assembleAvailableMixins_after_parity (Symbol : string → string)
    (b : pack.builderImage) (r : pack.runImage) :
  pack.validateCommonMixins Symbol b r = None →
  (list_to_set (pack.assembleAvailableMixins b r) : gset string)
  = list_to_set (pack.b_CommonMixins b)
    ∪ list_to_set (pack.b_BuildOnlyMixins b)
    ∪ list_to_set (pack.r_RunOnlyMixins r).
Proof.
  intros Hok.
  assert (pack.b_CommonMixins b ⊆ pack.r_CommonMixins r) as Hsub.
  { apply findMissing_nil_iff. revert Hok. unfold pack.validateCommonMixins.
    case_decide as Hlen; [done|]. intros _.
    destruct (pack.findMissing _ _); [done|]. simpl in Hlen. lia. }
  apply set_eq. intros m.
  rewrite !elem_of_union, !elem_of_list_to_set.
  rewrite assembleAvailableMixins_elem_of.
  split; [tauto|]. intros [[Hm|Hm]|Hm]; [|tauto..].
  left. split; [done|]. by apply Hsub.
Qed.

Lemma assembleAvailableMixins_after_parity_witness :
  (list_to_set
     (pack.assembleAvailableMixins samples.bionic
        {| pack.r_Name := "run"; pack.r_CommonMixins := ["A"; "B"];
           pack.r_RunOnlyMixins := ["C"] |}) : gset string)
  = list_to_set ["A"] ∪ list_to_set [] ∪ list_to_set ["C"].
Proof.
  apply (assembleAvailableMixins_after_parity style.Symbol samples.bionic
           {| pack.r_Name := "run"; pack.r_CommonMixins := ["A"; "B"];
              pack.r_RunOnlyMixins := ["C"] |}).
  vm_compute. reflexivity.
Defined.

Lemma fmap_list_bind {A B C} (f : B → C) (g : A → list B) (l : list A) :
  f <$> (l ≫= g) = l ≫= (λ x, f <$> g x).
Proof.
  induction l as [|x l IH]; csimpl; [done|]. by rewrite fmap_app, IH.
Qed.

(** X5.  [allBuildpacks] lists the buildpacks recorded in the builder's
    layers, then the descriptors of the additional buildpacks in the order
    given.  The first part holds, in an order that is left open, exactly
    one descriptor for every version of every buildpack recorded in the
    layers, carrying the stacks and the order recorded there, and nothing
    else; no identity occurs twice in it. *)
Theorem allBuildpacks_members (b : pack.builderImage)
    (additional : list dist.Buildpack) :
  ∃ ofBuilder,
    pack.allBuildpacks b additional
    = ofBuilder ++ map dist.Descriptor additional
    ∧ NoDup (dist.Info <$> ofBuilder)
    ∧ (∀ d,
         d ∈ ofBuilder
         ↔ ∃ id versions ver info,
             pack.b_BuildpackLayers b !! id = Some versions
             ∧ versions !! ver = Some info
             ∧ d = {| dist.API := "";
                      dist.Info := {| dist.ID := id; dist.Version := ver |};
                      dist.Stacks := dist.layer_Stacks info;
                      dist.Order := dist.layer_Order info |})
    ∧ (pack.b_BuildpackLayers b = ∅ → ofBuilder = []).
Proof.
  unfold pack.allBuildpacks. eexists. split; [done|]. split_and!.
  - rewrite fmap_list_bind. apply NoDup_bind.
    + intros [id1 m1] [id2 m2] y H1 H2 Hy1 Hy2. simpl in *.
      apply list_elem_of_fmap in Hy1 as (d1 & -> & Hd1).
      apply list_elem_of_fmap in Hd1 as ([v1 i1] & -> & _).
      apply list_elem_of_fmap in Hy2 as (d2 & Heq & Hd2).
      apply list_elem_of_fmap in Hd2 as ([v2 i2] & -> & _).
      simpl in Heq. injection Heq as -> _.
      apply elem_of_map_to_list in H1, H2. congruence.
    + intros [id m] _. simpl. rewrite <- list_fmap_compose.
      apply NoDup_fmap_2_strong; [|apply NoDup_map_to_list].
      intros [v1 i1] [v2 i2] H1 H2 Heq. simpl in Heq. injection Heq as ->.
      apply elem_of_map_to_list in H1, H2. congruence.
    + apply NoDup_map_to_list.
  - intros d. rewrite list_elem_of_bind. split.
    + intros ([id versions] & Hd & Hid).
      apply list_elem_of_fmap in Hd as ([ver info] & -> & Hver).
      apply elem_of_map_to_list in Hid. apply elem_of_map_to_list in Hver.
      by exists id, versions, ver, info.
    + intros (id & versions & ver & info & Hid & Hver & ->).
      exists (id, versions). split; [|by apply elem_of_map_to_list].
      apply list_elem_of_fmap. exists (ver, info).
      split; [done|by apply elem_of_map_to_list].
  - intros ->. by rewrite map_to_list_empty.
Qed.

Lemma allBuildpacks_members_witness :
  ∃ ofBuilder,
    pack.allBuildpacks samples.layeredBuilder [samples.bp1 [samples.stack1]]
    = ofBuilder ++ [dist.Descriptor (samples.bp1 [samples.stack1])]
    ∧ NoDup (dist.Info <$> ofBuilder)
    ∧ {| dist.API := "";
         dist.Info := {| dist.ID := "bp.1.id"; dist.Version := "2.0" |};
         dist.Stacks := [samples.stack1];
         dist.Order := [] |} ∈ ofBuilder
    ∧ length ofBuilder = 3.
Proof.
  destruct (allBuildpacks_members samples.layeredBuilder
              [samples.bp1 [samples.stack1]])
    as (ofBuilder & Heq & Hnd & Hmem & _).
  exists ofBuilder. split_and!.
  - exact Heq.
  - exact Hnd.
  - apply Hmem.
    exists "bp.1.id",
      {[ "1.0" := samples.layerInfo; "2.0" := samples.layerInfo ]},
      "2.0", samples.layerInfo.
    split_and!; reflexivity.
  - apply (f_equal length) in Heq. rewrite length_app in Heq.
    change (4 = length ofBuilder + 1) in Heq. lia.
Defined.


(** ** Buildpack tokens *)

(** X6.  Whatever the token, the ID and the version that [parseBuildpack]
    returns hold no [@], and the version is never [latest].  When the
    version is not empty, the token is the ID, an [@] and the version. *)
Theorem parseBuildpack_result (bp : string) :
  GoStrings.contains "@" (pack.parseBuildpack bp).1.1 = false
  ∧ GoStrings.contains "@" (pack.parseBuildpack bp).1.2 = false
  ∧ (pack.parseBuildpack bp).1.2 ≠ "latest"
  ∧ ((pack.parseBuildpack bp).1.2 ≠ "" →
     bp = (pack.parseBuildpack bp).1.1 +:+ "@" +:+ (pack.parseBuildpack bp).1.2).
Proof.
  pose proof (Join_Split "@" bp) as Hjoin.
  pose proof (Split_segments "@" bp) as Hseg.
  pose proof (Split_nonempty "@" bp) as Hne.
  unfold pack.parseBuildpack.
  destruct (GoStrings.Split "@" bp) as [|a [|b [|x rest]]]; [done|..]; simpl.
  - split_and!; [apply Hseg; left|done|done|done].
  - assert (GoStrings.contains "@" a = false) as Ha by (apply Hseg; left).
    assert (GoStrings.contains "@" b = false) as Hb
      by (apply Hseg; right; left).
    case_decide as Hlatest; simpl; [by split_and!|].
    split_and!; [done..|]. intros _. by rewrite <- Hjoin.
  - split_and!; [apply Hseg; left|done|done|done].
Qed.

Lemma parseBuildpack_result_witness :
  "bp.1.id@1.2.3"
  = (pack.parseBuildpack "bp.1.id@1.2.3").1.1 +:+ "@"
    +:+ (pack.parseBuildpack "bp.1.id@1.2.3").1.2.
Proof.
  apply (parseBuildpack_result "bp.1.id@1.2.3"). discriminate.
Defined.

(** X7.  [parseBuildpack] logs its deprecation warning exactly for the
    tokens made of an ID without [@] followed by [@latest], and logs
    nothing else. *)
Theorem parseBuildpack_warns_on_latest_only (bp : string) :
  ((pack.parseBuildpack bp).2 ≠ []
   ↔ ∃ id, GoStrings.contains "@" id = false ∧ bp = id +:+ "@latest")
  ∧ ((pack.parseBuildpack bp).2 = []
     ∨ (pack.parseBuildpack bp).2
       = [pack.Warn
            "@latest syntax is deprecated, will not work in future releases"]).
Proof.
  split.
  - split.
    + pose proof (Join_Split "@" bp) as Hjoin.
      pose proof (Split_segments "@" bp) as Hseg.
      unfold pack.parseBuildpack.
      destruct (GoStrings.Split "@" bp) as [|a [|b [|x rest]]]; simpl;
        [done|done| |done].
      case_decide as Hlatest; simpl; [|done]. intros _.
      exists a. split; [apply Hseg; left|]. rewrite <- Hjoin. simpl.
      by rewrite Hlatest.
    + intros (id & Hid & ->). unfold pack.parseBuildpack.
      change (id +:+ "@latest") with (id +:+ String "@" "latest").
      by rewrite (Split_app _ _ _ Hid).
  - unfold pack.parseBuildpack. repeat case_decide; simpl; auto.
Qed.

(** ** Proxy configuration, continued *)

(** X8.  [processProxyConfig] reads no variable but [HTTP_PROXY],
    [HTTPS_PROXY], [NO_PROXY] and their lower-case forms: two environments
    that agree on these six give the same configuration and the same
    lookups, whatever else they hold. *)
Theorem processProxyConfig_reads_six_variables
    (config : option pack.ProxyConfig) (env env' : gmap string string) :
  (∀ k, k ∈ ["HTTP_PROXY"; "http_proxy"; "HTTPS_PROXY"; "https_proxy";
             "NO_PROXY"; "no_proxy"] → env !! k = env' !! k) →
  pack.processProxyConfig config env = pack.processProxyConfig config env'
  ∧ (pack.processProxyConfig config env).2
    ⊆ ["HTTP_PROXY"; "http_proxy"; "HTTPS_PROXY"; "https_proxy";
       "NO_PROXY"; "no_proxy"].
Proof.
  intros Hsame. destruct config as [config|]; simpl.
  { split; [done|]. unfold pack.env_ret. simpl. apply list_subseteq_nil. }
  unfold pack.processProxyConfig, pack.env_bind.
  rewrite !lookupWithFallback_run.
  rewrite <- (Hsame "HTTP_PROXY"), <- (Hsame "http_proxy"),
    <- (Hsame "HTTPS_PROXY"), <- (Hsame "https_proxy"),
    <- (Hsame "NO_PROXY"), <- (Hsame "no_proxy")
    by (rewrite !elem_of_cons; tauto).
  split; [done|].
  destruct (env !! "HTTP_PROXY"), (env !! "HTTPS_PROXY"), (env !! "NO_PROXY");
    simpl; intros k; rewrite !elem_of_cons, !elem_of_nil; tauto.
Qed.

Lemma processProxyConfig_reads_six_variables_witness :
  pack.processProxyConfig None
    {[ "HTTP_PROXY" := "http://proxy:3128"; "PATH" := "/usr/bin" ]}
  = pack.processProxyConfig None
      {[ "HTTP_PROXY" := "http://proxy:3128"; "HOME" := "/root" ]}.
Proof.
  apply (processProxyConfig_reads_six_variables None
           {[ "HTTP_PROXY" := "http://proxy:3128"; "PATH" := "/usr/bin" ]}
           {[ "HTTP_PROXY" := "http://proxy:3128"; "HOME" := "/root" ]}).
  intros k Hk. rewrite !elem_of_cons, elem_of_nil in Hk.
  destruct Hk as [->|[->|[->|[->|[->|[->|[]]]]]]]; reflexivity.
Defined.

(** ** The name of the ephemeral builder *)

Section ephemeralName_lemmas.
Context {TagRef StackImage BuildImage BuilderImage StackMetadata : Type}.
Variable c : pack.Client TagRef StackImage BuildImage BuilderImage
               StackMetadata.

Lemma randString_from_length i n :
  String.length (pack.randString_from c i n) = n.
Proof. revert i. induction n as [|n IH]; intros i; simpl; [done|by rewrite IH]. Qed.

Lemma randString_from_letters i n :
  Forall (λ ch, (97 ≤ N_of_ascii ch ≤ 122)%N)
    (String.list_ascii_of_string (pack.randString_from c i n)).
Proof.
  revert i. induction n as [|n IH]; intros i; simpl; [constructor|].
  constructor; [|apply IH].
  pose proof (Nat.mod_upper_bound (pack.rand_Intn26 c i) 26).
  rewrite N_ascii_embedding; lia.
Qed.

Lemma hex_length s : String.length (GoStrings.hex s) = 2 * String.length s.
Proof. induction s as [|ch s IH]; simpl; [done|]. rewrite IH. lia. Qed.

Lemma hexDigit_digit n :
  (n < 16)%N →
  GoStrings.hexDigit n ∈ String.list_ascii_of_string "0123456789abcdef".
Proof.
  intros Hn. unfold GoStrings.hexDigit.
  assert (n ∈ [0; 1; 2; 3; 4; 5; 6; 7; 8; 9; 10; 11; 12; 13; 14; 15]%N) as Hin.
  { rewrite !elem_of_cons. lia. }
  rewrite !elem_of_cons, elem_of_nil in Hin.
  repeat destruct Hin as [->|Hin]; try done;
    by apply (bool_decide_unpack _); vm_compute.
Qed.

Lemma hex_digits s :
  Forall (λ ch, ch ∈ String.list_ascii_of_string "0123456789abcdef")
    (String.list_ascii_of_string (GoStrings.hex s)).
Proof.
  induction s as [|ch s IH]; simpl; [constructor|].
  pose proof (N_ascii_bounded ch).
  constructor; [|constructor; [|done]]; apply hexDigit_digit.
  - apply N.Div0.div_lt_upper_bound. lia.
  - apply N.mod_lt. lia.
Qed.

Lemma append_length (s t : string) :
  String.length (s +:+ t) = String.length s + String.length t.
Proof. induction s as [|ch s IH]; simpl; [done|by rewrite IH]. Qed.

End ephemeralName_lemmas.

(** X9.  [randString n] is a string of exactly [n] bytes, each a
    lower-case letter from [a] to [z], whatever numbers are drawn. *)
Theorem randString_lower_case_letters
    {TagRef StackImage BuildImage BuilderImage StackMetadata : Type}
    (c : pack.Client TagRef StackImage BuildImage BuilderImage StackMetadata)
    (n : nat) :
  String.length (pack.randString c n) = n
  ∧ Forall (λ ch, (N_of_ascii "a" ≤ N_of_ascii ch ≤ N_of_ascii "z")%N)
      (String.list_ascii_of_string (pack.randString c n)).
Proof.
  split; [apply randString_from_length|apply randString_from_letters].
Qed.

(** X10.  The name of an ephemeral builder is [pack.local/builder/],
    twenty lower-case hexadecimal digits, and [:latest]: forty-six bytes in
    all, for every sequence of random draws. *)
Theorem ephemeralName_shape
    {TagRef StackImage BuildImage BuilderImage StackMetadata : Type}
    (c : pack.Client TagRef StackImage BuildImage BuilderImage StackMetadata) :
  ∃ digits,
    pack.ephemeralName c = "pack.local/builder/" +:+ digits +:+ ":latest"
    ∧ String.length digits = 20
    ∧ Forall (λ ch, ch ∈ String.list_ascii_of_string "0123456789abcdef")
        (String.list_ascii_of_string digits)
    ∧ String.length (pack.ephemeralName c) = 46.
Proof.
  exists (GoStrings.hex (pack.randString c 10)).
  assert (String.length (GoStrings.hex (pack.randString c 10)) = 20) as Hlen.
  { rewrite hex_length. unfold pack.randString.
    by rewrite randString_from_length. }
  split_and!; [done|done|apply hex_digits|].
  unfold pack.ephemeralName. rewrite !append_length, Hlen. done.
Qed.

(** ** Composition of the ephemeral builder, continued *)

Section compose_lemmas.
Context {TagRef StackImage BuildImage BuilderImage StackMetadata : Type}.
Variable c : pack.Client TagRef StackImage BuildImage BuilderImage
               StackMetadata.

Lemma addBuildpacks_logs bps :
  ∀ bldr (w : pack.World TagRef),
    pack.addBuildpacks c bldr bps w
    = ({| pack.store := pack.store w;
          pack.events := pack.events w ++ map (pack.addingLine c) bps |},
       inr (foldl (λ b bp, builder.AddBuildpack bp b) bldr bps)).
Proof.
  induction bps as [|bp bps IH]; intros bldr w; simpl.
  - rewrite app_nil_r. by destruct w.
  - unfold Eff.bind, pack.emit, Eff.modify. simpl. rewrite IH. simpl.
    by rewrite <- app_assoc.
Qed.

Lemma foldl_AddBuildpack_image bps bldr :
  builder.image (foldl (λ b bp, builder.AddBuildpack bp b) bldr bps)
  = builder.image bldr.
Proof. revert bldr. induction bps as [|bp bps IH]; intros; simpl; [done|by rewrite IH]. Qed.

(** What [createEphemeralBuilder] logs and which errors it returns. *)
Lemma createEphemeralBuilder_trace base env group bps
    (w : pack.World TagRef) img :
  imgutil.handles (pack.store w) !! base = Some img →
  ∃ w' r,
    pack.createEphemeralBuilder c base env group bps w = (w', r)
    ∧ (∀ e, r = inl e →
            ∃ cause,
              e = Eff.Wrap cause
                    ("invalid builder " +:+ pack.Symbol c (imgutil.Name img)))
    ∧ pack.events w'
      = pack.events w
        ++ match imgutil.BuilderMetadata img with
           | None => []
           | Some _ =>
               map (pack.addingLine c) bps
               ++ (if decide (0 < length (dist.Group group))
                   then [pack.Log (pack.Debug "Setting custom order")]
                   else [])
           end.
Proof.
  intros Hlive. destruct w as [[handles daemon] events]. simpl in Hlive.
  unfold pack.createEphemeralBuilder.
  unfold Eff.bind at 1. unfold pack.onStore at 1.
  unfold imgutil.GetName, Eff.bind at 1. unfold imgutil.deref at 1.
  simpl. rewrite Hlive. unfold Eff.ret at 1.
  unfold Eff.bind at 1. unfold pack.onStore at 1.
  unfold imgutil.Rename, Eff.bind at 1. unfold imgutil.deref at 1.
  simpl. rewrite Hlive. unfold Eff.modify at 1. simpl.
  unfold Eff.bind at 1. unfold Eff.wrapped at 1. unfold pack.onStore at 1.
  unfold builder.FromImage, Eff.bind at 1. unfold imgutil.deref at 1.
  simpl. rewrite lookup_insert_eq. simpl.
  destruct (imgutil.BuilderMetadata img) as [api|] eqn:Hmd.
  2: { eexists _, _. split; [done|]. simpl. rewrite app_nil_r.
       split; [|done]. intros e [= <-]. by eexists. }
  unfold Eff.ret at 1. simpl.
  unfold Eff.bind at 1. rewrite addBuildpacks_logs. simpl.
  unfold Eff.bind at 1.
  case_decide as Hgroup.
  - unfold Eff.bind at 1. unfold pack.emit, Eff.modify, Eff.ret at 1. simpl.
    unfold Eff.bind at 1. unfold Eff.wrapped at 1. unfold pack.onStore at 1.
    unfold builder.Save, Eff.bind at 1. unfold imgutil.deref at 1.
    simpl. rewrite foldl_AddBuildpack_image. simpl. rewrite lookup_insert_eq.
    unfold Eff.bind at 1. unfold Eff.modify at 1. simpl.
    unfold Eff.bind at 1. unfold imgutil.Save, Eff.bind at 1.
    unfold imgutil.deref at 1. simpl. rewrite lookup_insert_eq.
    destruct (pack.imageSaveErr c _) as [e|];
      unfold Eff.fail, Eff.modify, Eff.ret; simpl;
      eexists _, _; (split; [done|]); simpl; rewrite <- app_assoc;
      (split; [|done]).
    + intros e' [= <-]. by eexists.
    + by intros e' [=].
  - unfold Eff.ret at 1.
    unfold Eff.bind at 1. unfold Eff.wrapped at 1. unfold pack.onStore at 1.
    unfold builder.Save, Eff.bind at 1. unfold imgutil.deref at 1.
    simpl. rewrite foldl_AddBuildpack_image. simpl. rewrite lookup_insert_eq.
    unfold Eff.bind at 1. unfold Eff.modify at 1. simpl.
    unfold Eff.bind at 1. unfold imgutil.Save, Eff.bind at 1.
    unfold imgutil.deref at 1. simpl. rewrite lookup_insert_eq.
    destruct (pack.imageSaveErr c _) as [e|];
      unfold Eff.fail, Eff.modify, Eff.ret; simpl;
      eexists _, _; (split; [done|]); simpl; rewrite app_nil_r;
      (split; [|done]).
    + intros e' [= <-]. by eexists.
    + by intros e' [=].
Qed.

End compose_lemmas.

(** X11.  When the metadata of the base builder can be loaded,
    [createEphemeralBuilder] logs one debug line per additional buildpack,
    in the order given and naming its ID and version, and then the line
    "Setting custom order" exactly when the group is not empty; it logs
    this whether or not the builder is saved afterwards.  When the metadata
    cannot be loaded it logs nothing. *)
Theorem createEphemeralBuilder_logs
    {TagRef StackImage BuildImage BuilderImage StackMetadata : Type}
    (c : pack.Client TagRef StackImage BuildImage BuilderImage StackMetadata)
    (base : nat) (env : list (string * string)) (group : dist.OrderEntry)
    (bps : list dist.Buildpack) (w : pack.World TagRef) (img : imgutil.Image) :
  imgutil.handles (pack.store w) !! base = Some img →
  pack.events (pack.createEphemeralBuilder c base env group bps w).1
  = pack.events w
    ++ match imgutil.BuilderMetadata img with
       | None => []
       | Some _ =>
           map (pack.addingLine c) bps
           ++ (if decide (0 < length (dist.Group group))
               then [pack.Log (pack.Debug "Setting custom order")]
               else [])
       end.
Proof.
  intros Hlive.
  destruct (createEphemeralBuilder_trace c base env group bps w img Hlive)
    as (w' & r & -> & _ & Hev).
  exact Hev.
Qed.

Lemma createEphemeralBuilder_logs_witness :
  pack.events
    (pack.createEphemeralBuilder (samples.client true None (Some "disk full"))
       0 [] {| dist.Group := [pack_io.refTo {| dist.ID := "bp.1.id";
                                               dist.Version := "" |}] |}
       [samples.bp1 []] samples.world0).1
  = [pack.Log
       (pack.Debug
          "Adding buildpack 'bp.1.id' version 'bp.1.version' to builder");
     pack.Log (pack.Debug "Setting custom order")].
Proof.
  apply (createEphemeralBuilder_logs
           (samples.client true None (Some "disk full")) 0 []
           {| dist.Group := [pack_io.refTo {| dist.ID := "bp.1.id";
                                              dist.Version := "" |}] |}
           [samples.bp1 []] samples.world0 samples.baseImage).
  reflexivity.
Defined.

(** X12.  Every error [createEphemeralBuilder] returns for a live image
    is wrapped as "invalid builder", followed by the name the base image
    had when it was passed in, not by the scratch name it carries by
    then. *)
Theorem createEphemeralBuilder_errors_name_original
    {TagRef StackImage BuildImage BuilderImage StackMetadata : Type}
    (c : pack.Client TagRef StackImage BuildImage BuilderImage StackMetadata)
    (base : nat) (env : list (string * string)) (group : dist.OrderEntry)
    (bps : list dist.Buildpack) (w : pack.World TagRef) (img : imgutil.Image)
    (e : string) :
  imgutil.handles (pack.store w) !! base = Some img →
  (pack.createEphemeralBuilder c base env group bps w).2 = inl e →
  ∃ cause,
    e = "invalid builder " +:+ pack.Symbol c (imgutil.Name img) +:+ ": "
        +:+ cause.
Proof.
  intros Hlive.
  destruct (createEphemeralBuilder_trace c base env group bps w img Hlive)
    as (w' & r & -> & Herr & _).
  simpl. intros ->. destruct (Herr e eq_refl) as [cause ->].
  exists cause. unfold Eff.Wrap.
  generalize (pack.Symbol c (imgutil.Name img)). intros s.
  generalize (": " +:+ cause). intros t. simpl. done.
Qed.

Lemma createEphemeralBuilder_errors_name_original_witness :
  ∃ cause,
    "invalid builder 'cnbs/sample-builder:bionic': disk full"
    = "invalid builder " +:+ style.Symbol "cnbs/sample-builder:bionic"
      +:+ ": " +:+ cause.
Proof.
  apply (createEphemeralBuilder_errors_name_original
           (samples.client true None (Some "disk full")) 0 [] samples.noGroup
           [] samples.world0 samples.baseImage
           "invalid builder 'cnbs/sample-builder:bionic': disk full").
  - reflexivity.
  - vm_compute. reflexivity.
Defined.

(** ** The run image and the whole build *)

(** X13.  [validateRunImage] fetches the image once, from the daemon
    unless the build publishes and pulling unless told not to pull.  It
    returns a run image only if that fetch returned an image whose stack
    ID equals the expected one, and then it returns what
    [stack.NewRunImage] makes of it; the image store is left as the fetch
    left it.  When the stack IDs differ, its error quotes both IDs. *)
Theorem validateRunImage_requires_matching_stack
    {TagRef StackImage BuildImage BuilderImage StackMetadata : Type}
    (c : pack.Client TagRef StackImage BuildImage BuilderImage StackMetadata)
    (name : string) (noPull publish : bool) (expectedStack : string)
    (w : pack.World TagRef) :
  match pack.validateRunImage c name noPull publish expectedStack w with
  | (w', r) =>
      pack.events w'
      = pack.events w ++ [pack.Fetch name (negb publish) (negb noPull)]
      ∧ pack.store w'
        = (pack.imageFetcher_Fetch c name (negb publish) (negb noPull)
             (pack.store w)).1
      ∧ (∀ run, r = inr run →
           ∃ h img stackImage,
             (pack.imageFetcher_Fetch c name (negb publish) (negb noPull)
                (pack.store w)).2 = inr h
             ∧ imgutil.handles (pack.store w') !! h = Some img
             ∧ pack.stack_NewImage c img = inr stackImage
             ∧ pack.stack_StackID c stackImage = expectedStack
             ∧ pack.stack_NewRunImage c stackImage = inr run)
      ∧ (∀ h img stackImage,
           (pack.imageFetcher_Fetch c name (negb publish) (negb noPull)
              (pack.store w)).2 = inr h →
           imgutil.handles (pack.store w') !! h = Some img →
           pack.stack_NewImage c img = inr stackImage →
           pack.stack_StackID c stackImage ≠ expectedStack →
           r = inl ("run-image stack id '"
                    +:+ pack.stack_StackID c stackImage
                    +:+ "' does not match builder stack '"
                    +:+ expectedStack +:+ "'"))
  end.
Proof.
  destruct w as [st events].
  unfold pack.validateRunImage.
  unfold Eff.bind at 1. unfold pack.imageFetcher at 1.
  unfold Eff.bind at 1. unfold pack.emit, Eff.modify, pack.onStore. simpl.
  destruct (pack.imageFetcher_Fetch c name _ _ st) as [st1 [e|h]] eqn:Hfetch;
    simpl.
  { split_and!; [done|done|done|]. by intros h img s [=]. }
  unfold Eff.bind at 1. unfold imgutil.deref. simpl.
  destruct (imgutil.handles st1 !! h) as [img|] eqn:Himg; simpl.
  2: { split_and!; [done|done|done|]. intros h' img s [= <-]. congruence. }
  unfold Eff.bind at 1. unfold Eff.lift at 1.
  destruct (pack.stack_NewImage c img) as [e|stackImage] eqn:Hstack; simpl.
  { split_and!; [done|done|done|]. intros h' i s [= <-] Hi. congruence. }
  case_decide as Hid.
  { unfold Eff.fail. simpl. split_and!; [done|done|done|].
    intros h' i s [= <-] Hi Hs _. rewrite Himg in Hi. injection Hi as <-.
    rewrite Hstack in Hs. by injection Hs as <-. }
  unfold Eff.lift. simpl. split_and!; [done|done| |].
  - intros run Hrun. by exists h, img, stackImage.
  - intros h' i s [= <-] Hi Hs Hne. rewrite Himg in Hi. injection Hi as <-.
    rewrite Hstack in Hs. injection Hs as <-. by destruct Hne.
Qed.

Lemma validateRunImage_requires_matching_stack_witness :
  (pack.validateRunImage (samples.client true None None)
     "cnbs/sample-run:bionic" true false "io.buildpacks.stacks.cflinuxfs3"
     samples.buildWorld).2
  = inl "run-image stack id 'io.buildpacks.stacks.bionic' does not match builder stack 'io.buildpacks.stacks.cflinuxfs3'".
Proof.
  pose proof (validateRunImage_requires_matching_stack
                (samples.client true None None) "cnbs/sample-run:bionic" true
                false "io.buildpacks.stacks.cflinuxfs3" samples.buildWorld)
    as H.
  destruct (pack.validateRunImage _ _ _ _ _ _) as [w' r] eqn:E.
  destruct H as (_ & Hst & _ & H). simpl.
  apply (H 0 samples.runImage "io.buildpacks.stacks.bionic");
    [reflexivity|rewrite Hst; reflexivity|reflexivity|discriminate].
Defined.

(** X14.  [Build] without a builder name fails with "invalid builder":
    when the image name and the application path are accepted, the error
    says that the builder is required.  Nothing was fetched, composed, run
    or removed: the image store is untouched, and the record of events has
    grown by what [processAppPath] did on the file system only. *)
Theorem Build_requires_builder
    {TagRef StackImage BuildImage BuilderImage StackMetadata : Type}
    (c : pack.Client TagRef StackImage BuildImage BuilderImage StackMetadata)
    (opts : pack.BuildOptions) (w : pack.World TagRef)
    (imageRef : TagRef) (appPath : string) (steps : list pack_io.event) :
  pack.opt_Builder opts = "" →
  pack.parseTagReference c (pack.opt_Image opts) = inr imageRef →
  pack_io.processAppPath (pack.system c) (pack.opt_AppPath opts) []
  = (steps, inr appPath) →
  pack.Build c opts w
  = ({| pack.store := pack.store w;
        pack.events := pack.events w ++ map pack.ofIO steps |},
     inl "invalid builder '': builder is a required parameter if the client has no default builder").
Proof.
  intros Hb Hi Ha. unfold pack.Build, pack.Build_resolve.
  unfold Eff.bind at 1. unfold Eff.bind at 1.
  unfold Eff.wrapped at 1. unfold Eff.lift at 1.
  rewrite Hi.
  unfold Eff.bind at 1. unfold Eff.wrapped at 1. unfold pack.onSystem at 1.
  rewrite Ha.
  unfold Eff.bind at 1. unfold Eff.wrapped at 1. unfold Eff.lift at 1.
  unfold pack.processBuilderName. rewrite Hb. simpl. done.
Qed.

Lemma Build_requires_builder_witness :
  pack.Build (samples.client true None None) samples.noBuilderOptions
    samples.buildWorld
  = (samples.buildWorld,
     inl "invalid builder '': builder is a required parameter if the client has no default builder").
Proof.
  apply (Build_requires_builder (samples.client true None None)
           samples.noBuilderOptions samples.buildWorld "my/app"
           "/workspace/app" []); reflexivity.
Defined.

Section Build_success.
Context {TagRef StackImage BuildImage BuilderImage StackMetadata : Type}.
Variable c : pack.Client TagRef StackImage BuildImage BuilderImage
               StackMetadata.

(** What the head of [Build] has established when it succeeds. *)
Lemma Build_resolve_run opts (w w0 : pack.World TagRef) inputs :
  pack.Build_resolve c opts w = (w0, inr inputs) →
  ∃ steps builderRef st1 raw stackImage buildImage builderImage w2 runImage
      loads,
    pack.parseTagReference c (pack.opt_Image opts)
    = inr (pack.in_imageRef inputs)
    ∧ pack_io.processAppPath (pack.system c) (pack.opt_AppPath opts) []
      = (steps, inr (pack.in_appPath inputs))
    ∧ pack.in_proxyConfig inputs
      = (pack.processProxyConfig (pack.opt_ProxyConfig opts)
           (pack.environ c)).1
    ∧ pack.processBuilderName c (pack.opt_Builder opts) = inr builderRef
    ∧ pack.imageFetcher_Fetch c builderRef true (negb (pack.opt_NoPull opts))
        (pack.store w)
      = (st1, inr (pack.in_rawBuilderImage inputs))
    ∧ imgutil.handles st1 !! pack.in_rawBuilderImage inputs = Some raw
    ∧ pack.stack_NewImage c raw = inr stackImage
    ∧ pack.stack_NewBuildImage c stackImage = inr buildImage
    ∧ pack.builder_NewImage c buildImage = inr builderImage
    ∧ pack.in_runImageName inputs
      = pack.resolveRunImage c (pack.opt_RunImage opts)
          (pack.RegistryStr c (pack.in_imageRef inputs))
          (pack.Metadata_Stack c builderImage)
          (pack.opt_AdditionalMirrors opts)
    ∧ pack.in_runImageName inputs ≠ ""
    ∧ pack.validateRunImage c (pack.in_runImageName inputs)
        (pack.opt_NoPull opts) (pack.opt_Publish opts)
        (pack.b_StackID (pack.asBuilderImage c builderImage))
        {| pack.store := st1;
           pack.events :=
             pack.events w ++ map pack.ofIO steps
             ++ [pack.Fetch builderRef true (negb (pack.opt_NoPull opts))] |}
      = (w2, inr runImage)
    ∧ pack_io.processBuildpacks (pack.system c) (pack.opt_Buildpacks opts) []
      = (loads, inr (pack.in_fetchedBPs inputs, pack.in_group inputs))
    ∧ pack.validateMixins c (pack.in_fetchedBPs inputs)
        (pack.asBuilderImage c builderImage) runImage = None
    ∧ w0 = {| pack.store := pack.store w2;
              pack.events := pack.events w2 ++ map pack.ofIO loads |}.
Proof.
  destruct w as [st events].
  unfold pack.Build_resolve.
  unfold Eff.bind at 1, Eff.wrapped at 1, Eff.lift at 1.
  destruct (pack.parseTagReference c _) as [e|imageRef] eqn:E1; [done|].
  unfold Eff.bind at 1, Eff.wrapped at 1, pack.onSystem at 1.
  destruct (pack_io.processAppPath _ _ _) as [steps [e|appPath]] eqn:E2;
    [done|].
  unfold Eff.bind at 1, Eff.wrapped at 1, Eff.lift at 1.
  destruct (pack.processBuilderName c _) as [e|builderRef] eqn:E3; [done|].
  unfold Eff.bind at 1, Eff.wrapped at 1, pack.imageFetcher at 1.
  unfold Eff.bind at 1, pack.emit at 1, Eff.modify at 1, pack.onStore at 1.
  simpl.
  destruct (pack.imageFetcher_Fetch c builderRef _ _ st) as [st1 [e|h]] eqn:E4;
    [done|].
  unfold Eff.bind at 1, pack.onStore at 1, imgutil.deref at 1. simpl.
  destruct (imgutil.handles st1 !! h) as [raw|] eqn:E5; [|done].
  unfold Eff.bind at 1, Eff.lift at 1.
  destruct (pack.stack_NewImage c raw) as [e|stackImage] eqn:E6; [done|].
  unfold Eff.bind at 1, Eff.lift at 1.
  destruct (pack.stack_NewBuildImage c _) as [e|buildImage] eqn:E7; [done|].
  unfold Eff.bind at 1, Eff.lift at 1.
  destruct (pack.builder_NewImage c _) as [e|builderImage] eqn:E8; [done|].
  case_decide as Hrun; [done|].
  unfold Eff.bind at 1, Eff.wrapped at 1.
  destruct (pack.validateRunImage c _ _ _ _ _) as [w2 [e|runImage]] eqn:E9;
    [done|].
  unfold Eff.bind at 1, pack.onSystem at 1.
  destruct (pack_io.processBuildpacks _ _ _) as [loads [e|[bps group]]] eqn:E10;
    [done|].
  unfold Eff.bind at 1, Eff.wrapped at 1, pack.check at 1.
  destruct (pack.validateMixins c _ _ _) as [e|] eqn:E11; [done|].
  unfold Eff.ret. intros [= <- <-]. simpl.
  exists steps, builderRef, st1, raw, stackImage, buildImage, builderImage,
    w2, runImage, loads.
  rewrite <- app_assoc in E9.
  split_and!; done.
Qed.

End Build_success.

(** X15.  [Build] returns no error only if its head has accepted
    everything: the image name, the application path, the builder name,
    the builder image fetched from the daemon (pulling unless told not to)
    and read as a builder, a run image name that is not empty, the run
    image, the buildpack tokens and the mixins of the builder and the run
    image so obtained; if the ephemeral builder was composed from that
    builder image, the environment of the options and those buildpacks;
    if the platform API of the composed builder is supported; and if the
    lifecycle, run with exactly those values and that builder, returned no
    error.  After the composition [Build] has then run the lifecycle once
    and asked for the removal of the composed builder, and nothing else. *)
Theorem Build_success
    {TagRef StackImage BuildImage BuilderImage StackMetadata : Type}
    (c : pack.Client TagRef StackImage BuildImage BuilderImage StackMetadata)
    (opts : pack.BuildOptions) (w w' : pack.World TagRef) :
  pack.Build c opts w = (w', inr tt) →
  ∃ w0 inputs steps builderRef st1 raw stackImage buildImage builderImage w2
      runImage loads w1 eph img',
    pack.Build_resolve c opts w = (w0, inr inputs)
    ∧ pack.parseTagReference c (pack.opt_Image opts)
      = inr (pack.in_imageRef inputs)
    ∧ pack_io.processAppPath (pack.system c) (pack.opt_AppPath opts) []
      = (steps, inr (pack.in_appPath inputs))
    ∧ pack.in_proxyConfig inputs
      = (pack.processProxyConfig (pack.opt_ProxyConfig opts)
           (pack.environ c)).1
    ∧ pack.processBuilderName c (pack.opt_Builder opts) = inr builderRef
    ∧ pack.imageFetcher_Fetch c builderRef true (negb (pack.opt_NoPull opts))
        (pack.store w)
      = (st1, inr (pack.in_rawBuilderImage inputs))
    ∧ imgutil.handles st1 !! pack.in_rawBuilderImage inputs = Some raw
    ∧ pack.stack_NewImage c raw = inr stackImage
    ∧ pack.stack_NewBuildImage c stackImage = inr buildImage
    ∧ pack.builder_NewImage c buildImage = inr builderImage
    ∧ pack.in_runImageName inputs
      = pack.resolveRunImage c (pack.opt_RunImage opts)
          (pack.RegistryStr c (pack.in_imageRef inputs))
          (pack.Metadata_Stack c builderImage)
          (pack.opt_AdditionalMirrors opts)
    ∧ pack.in_runImageName inputs ≠ ""
    ∧ pack.validateRunImage c (pack.in_runImageName inputs)
        (pack.opt_NoPull opts) (pack.opt_Publish opts)
        (pack.b_StackID (pack.asBuilderImage c builderImage))
        {| pack.store := st1;
           pack.events :=
             pack.events w ++ map pack.ofIO steps
             ++ [pack.Fetch builderRef true (negb (pack.opt_NoPull opts))] |}
      = (w2, inr runImage)
    ∧ pack_io.processBuildpacks (pack.system c) (pack.opt_Buildpacks opts) []
      = (loads, inr (pack.in_fetchedBPs inputs, pack.in_group inputs))
    ∧ pack.validateMixins c (pack.in_fetchedBPs inputs)
        (pack.asBuilderImage c builderImage) runImage = None
    ∧ w0 = {| pack.store := pack.store w2;
              pack.events := pack.events w2 ++ map pack.ofIO loads |}
    ∧ pack.createEphemeralBuilder c (pack.in_rawBuilderImage inputs)
        (pack.opt_Env opts) (pack.in_group inputs)
        (pack.in_fetchedBPs inputs) w0 = (w1, inr eph)
    ∧ imgutil.handles (pack.store w1) !! eph = Some img'
    ∧ pack.SupportsVersion c (pack.build_PlatformAPIVersion c)
        (builder.PlatformAPIVersion img') = true
    ∧ pack.lifecycle_Execute c
        (pack.lifecycleCall opts (pack.in_appPath inputs)
           (pack.in_imageRef inputs) (pack.in_proxyConfig inputs) eph
           (pack.in_runImageName inputs)) = None
    ∧ pack.events w'
      = pack.events w1
        ++ [pack.lifecycleCall opts (pack.in_appPath inputs)
              (pack.in_imageRef inputs) (pack.in_proxyConfig inputs) eph
              (pack.in_runImageName inputs);
            pack.ImageRemove (imgutil.Name img')]
    ∧ pack.store w'
      = (pack.docker_daemon c (imgutil.Name img') (pack.store w1)).1.
Proof.
  intros Hok. rewrite Build_run in Hok.
  destruct (pack.Build_resolve c opts w) as [w0 [e|inputs]] eqn:Hres;
    [done|].
  destruct (Build_resolve_run c opts w w0 inputs Hres)
    as (steps & builderRef & st1 & raw & stackImage & buildImage
        & builderImage & w2 & runImage & loads & H).
  destruct (pack.createEphemeralBuilder c _ _ _ _ w0) as [w1 [e|eph]] eqn:Hc;
    [done|].
  destruct (imgutil.handles (pack.store w1) !! eph) as [img'|] eqn:Hlook;
    [|done].
  simpl in Hok.
  destruct (pack.SupportsVersion c _ _) eqn:Hs; [|done].
  destruct (pack.lifecycle_Execute c _) eqn:Hexec; [done|].
  injection Hok as <-.
  exists w0, inputs, steps, builderRef, st1, raw, stackImage, buildImage,
    builderImage, w2, runImage, loads, w1, eph, img'.
  destruct H as (?&?&?&?&?&?&?&?&?&?&?&?&?&?&?).
  split_and!; done.
Qed.

Lemma Build_success_witness :
  pack.events
    (pack.Build (samples.client true None None) samples.buildOptions
       samples.buildWorld).1
  = [pack.Fetch "cnbs/sample-builder:bionic" true false;
     pack.Fetch "cnbs/sample-run:bionic" true false;
     pack.lifecycleCall samples.buildOptions "/workspace/app" "my/app"
       {| pack.HTTPProxy := ""; pack.HTTPSProxy := ""; pack.NoProxy := "" |}
       0 "cnbs/sample-run:bionic";
     pack.ImageRemove "pack.local/builder/6162636465666768696a:latest"].
Proof.
  destruct (Build_success (samples.client true None None) samples.buildOptions
              samples.buildWorld
              (pack.Build (samples.client true None None) samples.buildOptions
                 samples.buildWorld).1)
    as (w0 & inputs & steps & builderRef & st1 & raw & stackImage
        & buildImage & builderImage & w2 & runImage & loads & w1 & eph & img'
        & Hres & _ & _ & _ & _ & _ & _ & _ & _ & _ & _ & _ & _ & _ & _ & _
        & Hc & Hlook & _ & _ & Hev & _).
  - vm_compute. reflexivity.
  - rewrite Hev. vm_compute in Hres. injection Hres as <- <-.
    vm_compute in Hc. injection Hc as <- <-.
    vm_compute in Hlook. injection Hlook as <-.
    vm_compute. reflexivity.
Defined.


(** ** The package builder, continued *)

(** X16.  When [Save] succeeds, its calls are, in this order: the
    creation of the image, local unless [publish], whose answer is the
    image returned; the metadata label on that image, holding the identity
    of the buildpack and the stacks left after merging with every
    dependency in turn; the creation of the temporary directory; for each
    dependency in the order they were added, and for the buildpack itself
    last, the three calls that make its layer: the layer tar written in
    that temporary directory, the addition to the image of the tar so
    returned, the digest of that tar; the buildpack-layers label, holding
    what these buildpacks and digests add up to; the image's [Save]; the
    removal of that temporary directory. *)
Theorem Save_success_calls
    (Symbol : string → string) (FullName : dist.BuildpackInfo → string)
    (MergeCompatible : list dist.Stack → list dist.Stack → list dist.Stack)
    (respond : list buildpackage.call → buildpackage.call → string + string)
    (p : buildpackage.PackageBuilder) (repoName : string) (publish : bool)
    (made : list buildpackage.call) (image : string) :
  buildpackage.Save Symbol FullName MergeCompatible respond p repoName publish
    [] = (made, inr image) →
  ∃ main tmpDir ls,
    let head :=
      buildpackage.labelled repoName publish image
        (dist.Info (dist.Descriptor main))
        (foldl (λ acc bp,
                  MergeCompatible acc (dist.Stacks (dist.Descriptor bp)))
           (dist.Stacks (dist.Descriptor main))
           (buildpackage.dependencies p))
      ++ [buildpackage.TempDir "" "create-package"] in
    buildpackage.buildpack p = Some main
    ∧ respond [] (buildpackage.NewImage repoName (negb publish)) = inr image
    ∧ respond
        (buildpackage.labelled repoName publish image
           (dist.Info (dist.Descriptor main))
           (foldl (λ acc bp,
                     MergeCompatible acc (dist.Stacks (dist.Descriptor bp)))
              (dist.Stacks (dist.Descriptor main))
              (buildpackage.dependencies p)))
        (buildpackage.TempDir "" "create-package") = inr tmpDir
    ∧ map buildpackage.l_bp ls = buildpackage.dependencies p ++ [main]
    ∧ made
      = head ++ flat_map (buildpackage.layerCalls image tmpDir) ls
        ++ [buildpackage.SetLabel image dist.BuildpackLayersLabel
              (buildpackage.BuildpackLayersValue
                 (buildpackage.layersMD ls ∅));
            buildpackage.ImageSave image;
            buildpackage.RemoveAll tmpDir]
    ∧ ∀ i l,
        ls !! i = Some l →
        respond
          (head ++ flat_map (buildpackage.layerCalls image tmpDir)
                     (take i ls))
          (buildpackage.BuildpackToLayerTar tmpDir (buildpackage.l_bp l))
        = inr (buildpackage.l_tar l)
        ∧ respond
            (head ++ flat_map (buildpackage.layerCalls image tmpDir)
                       (take i ls)
             ++ [buildpackage.BuildpackToLayerTar tmpDir
                   (buildpackage.l_bp l);
                 buildpackage.AddLayer image (buildpackage.l_tar l)])
            (buildpackage.LayerDiffID (buildpackage.l_tar l))
          = inr (buildpackage.l_diffID l).
Proof. apply Save_success_run. Qed.

Lemma Save_success_calls_witness :
  (samples.Save samples.allSucceed
     (buildpackage.AddDependency (samples.bp2 [samples.stack1])
        (buildpackage.SetBuildpack (samples.bp1 [samples.stack1])
           buildpackage.NewBuilder))
     "some/package" false []).1
  = [buildpackage.NewImage "some/package" true;
     buildpackage.SetLabel "some/package" buildpackage.MetadataLabel
       (buildpackage.MetadataValue
          {| buildpackage.md_BuildpackInfo :=
               {| dist.ID := "bp.1.id"; dist.Version := "bp.1.version" |};
             buildpackage.md_Stacks :=
               stack.MergeCompatible [samples.stack1] [samples.stack1] |});
     buildpackage.TempDir "" "create-package";
     buildpackage.BuildpackToLayerTar "/tmp/create-package"
       (samples.bp2 [samples.stack1]);
     buildpackage.AddLayer "some/package"
       "/tmp/create-package/buildpack.2.id@buildpack.2.version.tar";
     buildpackage.LayerDiffID
       "/tmp/create-package/buildpack.2.id@buildpack.2.version.tar";
     buildpackage.BuildpackToLayerTar "/tmp/create-package"
       (samples.bp1 [samples.stack1]);
     buildpackage.AddLayer "some/package"
       "/tmp/create-package/bp.1.id@bp.1.version.tar";
     buildpackage.LayerDiffID "/tmp/create-package/bp.1.id@bp.1.version.tar";
     buildpackage.SetLabel "some/package" dist.BuildpackLayersLabel
       (buildpackage.BuildpackLayersValue
          (buildpackage.layersMD
             [{| buildpackage.l_bp := samples.bp2 [samples.stack1];
                 buildpackage.l_tar :=
                   "/tmp/create-package/buildpack.2.id@buildpack.2.version.tar";
                 buildpackage.l_diffID :=
                   "sha256:/tmp/create-package/buildpack.2.id@buildpack.2.version.tar" |};
              {| buildpackage.l_bp := samples.bp1 [samples.stack1];
                 buildpackage.l_tar :=
                   "/tmp/create-package/bp.1.id@bp.1.version.tar";
                 buildpackage.l_diffID :=
                   "sha256:/tmp/create-package/bp.1.id@bp.1.version.tar" |}]
             ∅));
     buildpackage.ImageSave "some/package";
     buildpackage.RemoveAll "/tmp/create-package"].
Proof.
  destruct (Save_success_calls style.Symbol dist.FullName stack.MergeCompatible
              samples.allSucceed
              (buildpackage.AddDependency (samples.bp2 [samples.stack1])
                 (buildpackage.SetBuildpack (samples.bp1 [samples.stack1])
                    buildpackage.NewBuilder))
              "some/package" false
              (samples.Save samples.allSucceed
                 (buildpackage.AddDependency (samples.bp2 [samples.stack1])
                    (buildpackage.SetBuildpack (samples.bp1 [samples.stack1])
                       buildpackage.NewBuilder))
                 "some/package" false []).1
              "some/package")
    as (main & tmpDir & ls & Hmain & _ & Htmp & Hbps & Hmade & Hresp).
  - vm_compute. reflexivity.
  - injection Hmain as <-. injection Htmp as <-.
    destruct ls as [|l1 [|l2 [|l3 ls]]]; try discriminate Hbps.
    injection Hbps as Hb1 Hb2.
    destruct (Hresp 0 l1 eq_refl) as [Ht1 Hd1].
    destruct (Hresp 1 l2 eq_refl) as [Ht2 Hd2].
    destruct l1 as [b1 t1 d1], l2 as [b2 t2 d2]. simpl in *. subst b1 b2.
    injection Ht1 as <-. injection Hd1 as <-.
    injection Ht2 as <-. injection Hd2 as <-.
    exact Hmade.
Defined.


Lemma layerCalls_leave_temp_dir (calls : list buildpackage.call) :
  forallb buildpackage.isLayerCall calls = true →
  forallb (λ c, negb (buildpackage.touchesTempDir c)) calls = true.
Proof.
  induction calls as [|c calls IH]; simpl; [done|].
  intros [Hc Hcalls]%andb_prop. rewrite (IH Hcalls).
  by destruct c.
Qed.

(** X17.  [Save] removes the temporary directory on every path that
    created it.  On any run, either no directory was created or removed (a
    check failed, or the image or its metadata label could not be
    written); or the creation of the directory was the last call and it
    failed; or the directory was created once and its removal is the last
    call of [Save], failed or not, with no other directory created or
    removed in between. *)
Theorem Save_removes_temp_dir
    (Symbol : string → string) (FullName : dist.BuildpackInfo → string)
    (MergeCompatible : list dist.Stack → list dist.Stack → list dist.Stack)
    (respond : list buildpackage.call → buildpackage.call → string + string)
    (p : buildpackage.PackageBuilder) (repoName : string) (publish : bool) :
  match buildpackage.Save Symbol FullName MergeCompatible respond p repoName
          publish [] with
  | (made, r) =>
      (forallb (λ c, negb (buildpackage.touchesTempDir c)) made = true
       ∧ ∃ e, r = inl e)
      ∨ (∃ pre e,
           made = pre ++ [buildpackage.TempDir "" "create-package"]
           ∧ forallb (λ c, negb (buildpackage.touchesTempDir c)) pre = true
           ∧ respond pre (buildpackage.TempDir "" "create-package") = inl e
           ∧ r = inl e)
      ∨ (∃ pre mid tmpDir,
           made = pre ++ [buildpackage.TempDir "" "create-package"] ++ mid
                  ++ [buildpackage.RemoveAll tmpDir]
           ∧ respond pre (buildpackage.TempDir "" "create-package")
             = inr tmpDir
           ∧ forallb (λ c, negb (buildpackage.touchesTempDir c)) pre = true
           ∧ forallb (λ c, negb (buildpackage.touchesTempDir c)) mid = true)
  end.
Proof.
  destruct (buildpackage.validationError Symbol FullName MergeCompatible p)
    as [e|] eqn:Hv.
  { rewrite (Save_validation_fails _ _ _ _ _ _ _ _ Hv). left.
    split; [done|by eexists]. }
  revert Hv. unfold buildpackage.validationError.
  destruct (buildpackage.buildpack p) as [main|] eqn:Hmain; [|done].
  case_decide as Hne; [done|].
  destruct (buildpackage.mergeDependencies _ _ _ _ _ _) as [|stacks] eqn:Hm;
    [done|intros _].
  rewrite (Save_run Symbol FullName MergeCompatible respond p repoName publish
             main stacks Hmain Hne Hm).
  destruct (respond [] _) as [e|image].
  { left. split; [done|by eexists]. }
  simpl.
  destruct (respond _ (buildpackage.SetLabel image _ _)) as [e|x].
  { left. split; [done|by eexists]. }
  destruct (respond _ (buildpackage.TempDir _ _)) as [e|tmpDir] eqn:Htmp.
  { right. left. eexists [_; _], e. by split_and!. }
  destruct (buildpackage.addLayers _ _ _ _ _ _ _ _) as [made' r] eqn:EL.
  apply addLayers_shape in EL as (layers & -> & Hlayer & _).
  apply layerCalls_leave_temp_dir in Hlayer.
  destruct r as [e|bpLayers].
  { right. right. eexists [_; _], layers, tmpDir. by split_and!. }
  destruct (respond _ (buildpackage.SetLabel image dist.BuildpackLayersLabel _))
    as [e|y].
  { right. right. eexists [_; _], (layers ++ [_]), tmpDir. simpl.
    rewrite <- !app_assoc.
    split_and!; [done|done|done|]. by rewrite forallb_app, Hlayer. }
  destruct (respond _ (buildpackage.ImageSave image)) as [e|z]; right; right;
    eexists [_; _], (layers ++ [_; _]), tmpDir; simpl; rewrite <- !app_assoc;
    (split_and!; [done|done|done|]); by rewrite forallb_app, Hlayer.
Qed.

(** X18.  When merging the stacks with the dependencies, in the order they
    were added, first leaves no stack at the dependency [dep], [Save] fails
    with an error naming the buildpack and [dep], and makes no call: no
    image is created. *)
Theorem Save_fails_at_first_incompatible_dependency
    (Symbol : string → string) (FullName : dist.BuildpackInfo → string)
    (MergeCompatible : list dist.Stack → list dist.Stack → list dist.Stack)
    (respond : list buildpackage.call → buildpackage.call → string + string)
    (p : buildpackage.PackageBuilder) (repoName : string) (publish : bool)
    (main dep : dist.Buildpack) (before after : list dist.Buildpack) :
  buildpackage.buildpack p = Some main →
  dist.Stacks (dist.Descriptor main) ≠ []
    ∨ dist.Order (dist.Descriptor main) ≠ [] →
  buildpackage.dependencies p = before ++ dep :: after →
  (∀ k, 0 < k ≤ length before →
        foldl (λ acc bp, MergeCompatible acc (dist.Stacks (dist.Descriptor bp)))
          (dist.Stacks (dist.Descriptor main)) (take k before) ≠ []) →
  MergeCompatible
    (foldl (λ acc bp, MergeCompatible acc (dist.Stacks (dist.Descriptor bp)))
       (dist.Stacks (dist.Descriptor main)) before)
    (dist.Stacks (dist.Descriptor dep)) = [] →
  buildpackage.Save Symbol FullName MergeCompatible respond p repoName publish
    []
  = ([], inl ("buildpack "
              +:+ Symbol (FullName (dist.Info (dist.Descriptor main)))
              +:+ " does not support any stacks from "
              +:+ Symbol (FullName (dist.Info (dist.Descriptor dep))))).
Proof.
  intros Hmain Hne Hdeps Hpre Hdep.
  apply Save_validation_fails. unfold buildpackage.validationError.
  rewrite Hmain, Hdeps. rewrite decide_False.
  - by rewrite (mergeDependencies_inl Symbol FullName MergeCompatible main
                  _ before dep after Hpre Hdep).
  - intros [H1 H2]. apply length_zero_iff_nil in H1, H2. tauto.
Qed.

Lemma Save_fails_at_first_incompatible_dependency_witness :
  samples.Save samples.allSucceed
    (buildpackage.AddDependency (samples.bp2 [samples.otherStack])
       (buildpackage.AddDependency (samples.bp2 [samples.stack1])
          (buildpackage.SetBuildpack (samples.bp1 [samples.stack1])
             buildpackage.NewBuilder)))
    "some/package" false []
  = ([], inl "buildpack 'bp.1.id@bp.1.version' does not support any stacks from 'buildpack.2.id@buildpack.2.version'").
Proof.
  apply (Save_fails_at_first_incompatible_dependency style.Symbol dist.FullName
           stack.MergeCompatible samples.allSucceed _ "some/package" false
           (samples.bp1 [samples.stack1]) (samples.bp2 [samples.otherStack])
           [samples.bp2 [samples.stack1]] []).
  - reflexivity.
  - left. discriminate.
  - reflexivity.
  - intros k Hk. simpl in Hk. assert (k = 1) as -> by lia.
    vm_compute. discriminate.
  - vm_compute. reflexivity.
Defined.

(** X19.  A buildpack with an order and no stacks of its own cannot be
    packaged together with a dependency: provided merging no stacks with
    the dependency's stacks gives no stacks, [Save] fails at the first
    dependency, before creating the image, whatever stacks that dependency
    supports. *)
Theorem Save_rejects_dependency_of_stackless_buildpack
    (Symbol : string → string) (FullName : dist.BuildpackInfo → string)
    (MergeCompatible : list dist.Stack → list dist.Stack → list dist.Stack)
    (respond : list buildpackage.call → buildpackage.call → string + string)
    (p : buildpackage.PackageBuilder) (repoName : string) (publish : bool)
    (main dep : dist.Buildpack) (rest : list dist.Buildpack) :
  buildpackage.buildpack p = Some main →
  dist.Stacks (dist.Descriptor main) = [] →
  dist.Order (dist.Descriptor main) ≠ [] →
  buildpackage.dependencies p = dep :: rest →
  MergeCompatible [] (dist.Stacks (dist.Descriptor dep)) = [] →
  buildpackage.Save Symbol FullName MergeCompatible respond p repoName publish
    []
  = ([], inl ("buildpack "
              +:+ Symbol (FullName (dist.Info (dist.Descriptor main)))
              +:+ " does not support any stacks from "
              +:+ Symbol (FullName (dist.Info (dist.Descriptor dep))))).
Proof.
  intros Hmain Hstacks Horder Hdeps Hmerge.
  apply Save_validation_fails. unfold buildpackage.validationError.
  rewrite Hmain, Hdeps, Hstacks. rewrite decide_False.
  - simpl. by rewrite Hmerge.
  - intros [_ H2]. by apply length_zero_iff_nil in H2.
Qed.

Lemma Save_rejects_dependency_of_stackless_buildpack_witness :
  samples.Save samples.allSucceed
    (buildpackage.AddDependency (samples.bp1 [samples.stack1])
       (buildpackage.SetBuildpack samples.metaBuildpack
          buildpackage.NewBuilder))
    "some/package" false []
  = ([], inl "buildpack 'meta.id@1.0' does not support any stacks from 'bp.1.id@bp.1.version'").
Proof.
  apply (Save_rejects_dependency_of_stackless_buildpack style.Symbol
           dist.FullName stack.MergeCompatible samples.allSucceed _
           "some/package" false samples.metaBuildpack
           (samples.bp1 [samples.stack1]) []).
  - reflexivity.
  - reflexivity.
  - discriminate.
  - reflexivity.
  - reflexivity.
Defined.

(** ** The application path *)

(** X20.  [processAppPath] returns a path only if that path is the
    absolute form of the link-free form of the given path, or of the
    working directory when none is given, and is either a directory or a
    file recognised as a zip archive.  A directory is never opened; the
    archive is opened and closed once. *)
Theorem processAppPath_success (sys : pack_io.System) (appPath : string)
    (evs evs' : list pack_io.event) (path : string) :
  pack_io.processAppPath sys appPath evs = (evs', inr path) →
  ∃ start resolved,
    (if decide (appPath = "") then pack_io.Getwd sys = inr start
     else start = appPath)
    ∧ pack_io.EvalSymlinks sys start = inr resolved
    ∧ pack_io.Abs sys resolved = inr path
    ∧ ((pack_io.Stat sys path = inr true ∧ evs' = evs)
       ∨ (pack_io.Stat sys path = inr false
          ∧ pack_io.IsZip sys path = inr true
          ∧ evs' = evs ++ [pack_io.Open path; pack_io.Close path])).
Proof.
  unfold pack_io.processAppPath.
  unfold Eff.bind at 1.
  assert (∃ r, (if decide (appPath = "")
                then Eff.wrapped "get working dir" (Eff.lift (pack_io.Getwd sys))
                else Eff.ret appPath) evs = (evs, r)
               ∧ ∀ start, r = inr start →
                   if decide (appPath = "") then pack_io.Getwd sys = inr start
                   else start = appPath) as (r & -> & Hstart).
  { case_decide.
    - unfold Eff.wrapped, Eff.lift. destruct (pack_io.Getwd sys) as [e|wd].
      + eexists. split; [done|]. by intros.
      + eexists. split; [done|]. by intros ? [= <-].
    - eexists. split; [done|]. by intros ? [= <-]. }
  destruct r as [e|start]; [done|]. specialize (Hstart start eq_refl).
  unfold Eff.bind at 1, Eff.wrapped at 1, Eff.lift at 1.
  destruct (pack_io.EvalSymlinks sys start) as [e|resolved] eqn:E1; [done|].
  unfold Eff.bind at 1, Eff.wrapped at 1, Eff.lift at 1.
  destruct (pack_io.Abs sys resolved) as [e|abs] eqn:E2; [done|].
  unfold Eff.bind at 1, Eff.wrapped at 1, Eff.lift at 1.
  destruct (pack_io.Stat sys abs) as [e|[|]] eqn:E3; [done|..]; simpl.
  - unfold Eff.ret. intros [= <- <-]. exists start, resolved.
    split_and!; [done|done|done|]. by left.
  - unfold Eff.bind at 1, Eff.wrapped at 1, pack_io.os_Open.
    destruct (pack_io.OpenErr sys abs) as [e|]; [done|].
    unfold pack_io.emit, Eff.modify, Eff.defer, Eff.bind, Eff.wrapped,
      Eff.lift. simpl.
    destruct (pack_io.IsZip sys abs) as [e|[|]] eqn:E4; [done| |done].
    simpl. unfold Eff.ret. intros [= <- <-]. exists start, resolved.
    split_and!; [done|done|done|]. right. rewrite <- app_assoc. by split_and!.
Qed.

Lemma processAppPath_success_witness :
  ∃ start resolved,
    start = "/workspace/app.zip"
    ∧ pack_io.EvalSymlinks (samples.system "linux") start = inr resolved
    ∧ pack_io.Abs (samples.system "linux") resolved = inr "/workspace/app.zip".
Proof.
  destruct (processAppPath_success (samples.system "linux")
              "/workspace/app.zip" []
              [pack_io.Open "/workspace/app.zip";
               pack_io.Close "/workspace/app.zip"] "/workspace/app.zip")
    as (start & resolved & H1 & H2 & H3 & _).
  - vm_compute. reflexivity.
  - exists start, resolved. split_and!; [exact H1|exact H2|exact H3].
Defined.

(** X21.  Whatever happens, [processAppPath] closes the file it opened: it
    either opens nothing, or opens one file, which is not a directory, and
    closes it as the last thing it does, also when the file turns out not
    to be a zip archive or cannot be read. *)
Theorem processAppPath_closes_what_it_opens (sys : pack_io.System)
    (appPath : string) (evs : list pack_io.event) :
  (pack_io.processAppPath sys appPath evs).1 = evs
  ∨ ∃ path,
      (pack_io.processAppPath sys appPath evs).1
      = evs ++ [pack_io.Open path; pack_io.Close path]
      ∧ pack_io.Stat sys path = inr false
      ∧ pack_io.OpenErr sys path = None.
Proof.
  remember (pack_io.processAppPath sys appPath evs) as res eqn:Hres.
  unfold pack_io.processAppPath in Hres.
  unfold Eff.bind at 1 in Hres.
  assert (∃ r, (if decide (appPath = "")
                then Eff.wrapped "get working dir" (Eff.lift (pack_io.Getwd sys))
                else Eff.ret appPath) evs = (evs, r)) as (r & Hr).
  { case_decide; [|by eexists].
    unfold Eff.wrapped, Eff.lift. destruct (pack_io.Getwd sys); by eexists. }
  rewrite Hr in Hres. clear Hr.
  destruct r as [e|start]; [left; by subst res|].
  unfold Eff.bind at 1, Eff.wrapped at 1, Eff.lift at 1 in Hres.
  destruct (pack_io.EvalSymlinks sys start) as [e|resolved];
    [left; by subst res|].
  unfold Eff.bind at 1, Eff.wrapped at 1, Eff.lift at 1 in Hres.
  destruct (pack_io.Abs sys resolved) as [e|abs]; [left; by subst res|].
  unfold Eff.bind at 1, Eff.wrapped at 1, Eff.lift at 1 in Hres.
  destruct (pack_io.Stat sys abs) as [e|[|]] eqn:E3;
    [left; by subst res|left; by subst res|]; simpl in Hres.
  unfold Eff.bind at 1, Eff.wrapped at 1, pack_io.os_Open in Hres.
  destruct (pack_io.OpenErr sys abs) as [e|] eqn:E4; [left; by subst res|].
  right. exists abs.
  unfold pack_io.emit, Eff.modify, Eff.defer, Eff.bind, Eff.wrapped, Eff.lift
    in Hres.
  simpl in Hres.
  destruct (pack_io.IsZip sys abs) as [e|[|]]; simpl in Hres; subst res;
    simpl; rewrite <- ?app_assoc; by split_and!.
Qed.

(** ** Buildpack locations *)

(** X22.  Outside Windows [ensureBPSupport] accepts every location that is
    not a URI, directories included.  It can only fail on a URI, and then
    with the error of parsing the URI or, for a [file] URI, of turning it
    into a path. *)
Theorem ensureBPSupport_off_windows (sys : pack_io.System) (bpPath : string) :
  pack_io.GOOS sys ≠ "windows" →
  (pack_io.IsURI sys bpPath = false → pack_io.ensureBPSupport sys bpPath = None)
  ∧ ∀ e, pack_io.ensureBPSupport sys bpPath = Some e →
         pack_io.IsURI sys bpPath = true
         ∧ (pack_io.url_Scheme sys bpPath = inl e
            ∨ (pack_io.url_Scheme sys bpPath = inr "file"
               ∧ pack_io.URIToFilePath sys bpPath = inl e)).
Proof.
  intros Hos. unfold pack_io.ensureBPSupport.
  rewrite (bool_decide_eq_false_2 _ Hos). simpl.
  destruct (pack_io.IsURI sys bpPath); [|by split].
  split; [done|]. intros e.
  destruct (pack_io.url_Scheme sys bpPath) as [e'|scheme].
  { intros [= <-]. split; [done|by left]. }
  case_decide as Hscheme; [|done]. subst scheme.
  destruct (pack_io.URIToFilePath sys bpPath) as [e'|p]; [|done].
  intros [= <-]. split; [done|]. right. by split.
Qed.

Lemma ensureBPSupport_off_windows_witness :
  pack_io.ensureBPSupport (samples.system "linux") "/buildpacks/bp1" = None.
Proof.
  apply (ensureBPSupport_off_windows (samples.system "linux")
           "/buildpacks/bp1").
  - discriminate.
  - reflexivity.
Defined.

(** X23.  On Windows [ensureBPSupport] rejects a buildpack that is a
    directory, whether it is given as a path or as a [file] URI; the error
    quotes the location as it was given. *)
Theorem ensureBPSupport_windows_directory (sys : pack_io.System)
    (bpPath p : string) :
  pack_io.GOOS sys = "windows" →
  pack_io.IsURI sys p = false →
  pack_io.IsDir sys p = inr true →
  p = bpPath
    ∨ (pack_io.IsURI sys bpPath = true
       ∧ pack_io.url_Scheme sys bpPath = inr "file"
       ∧ pack_io.URIToFilePath sys bpPath = inr p) →
  pack_io.ensureBPSupport sys bpPath
  = Some ("buildpack " +:+ pack_io.Symbol sys bpPath
          +:+ ": directory-based buildpacks are not currently supported on Windows").
Proof.
  intros Hos Hp Hdir Hloc. unfold pack_io.ensureBPSupport.
  rewrite (bool_decide_eq_true_2 _ Hos). simpl.
  destruct Hloc as [<-|(Huri & Hscheme & Hpath)].
  - by rewrite Hp, Hdir.
  - rewrite Huri, Hscheme, Hpath. simpl. by rewrite Hp, Hdir.
Qed.

Lemma ensureBPSupport_windows_directory_witness :
  pack_io.ensureBPSupport (samples.system "windows") "file:///buildpacks/bp1"
  = Some "buildpack 'file:///buildpacks/bp1': directory-based buildpacks are not currently supported on Windows".
Proof.
  apply (ensureBPSupport_windows_directory (samples.system "windows")
           "file:///buildpacks/bp1" "/buildpacks/bp1").
  - reflexivity.
  - reflexivity.
  - reflexivity.
  - right. split_and!; reflexivity.
Defined.

(** ** Buildpack tokens, continued *)

Section processBuildpacks_lemmas.
Variable sys : pack_io.System.

Lemma omap_isDownload_Logged (logs : list pack.logEntry) :
  omap pack_io.isDownload (map pack_io.Logged logs) = [].
Proof. by induction logs. Qed.

Lemma processBuildpacks_from_run tokens :
  ∀ bps0 g0 evs evs' r,
    pack_io.processBuildpacks_from sys tokens bps0 g0 evs = (evs', r) →
    ∃ new,
      evs' = evs ++ new
      ∧ match r with
        | inr (bps, group) =>
            ∃ newbps newg,
              bps = bps0 ++ newbps
              ∧ dist.Group group = g0 ++ newg
              ∧ length newg = length tokens
              ∧ omap pack_io.isDownload new
                = filter (λ t, pack_io.isBuildpackID sys t = false) tokens
              ∧ length newbps
                = length (filter (λ t, pack_io.isBuildpackID sys t = false)
                            tokens)
              ∧ (∀ i t, tokens !! i = Some t →
                        pack_io.isBuildpackID sys t = true →
                        newg !! i
                        = Some (pack_io.refTo
                                  {| dist.ID := (pack.parseBuildpack t).1.1;
                                     dist.Version :=
                                       (pack.parseBuildpack t).1.2 |}))
              ∧ (∀ i t, tokens !! i = Some t →
                        pack_io.isBuildpackID sys t = false →
                        ∃ bp, bp ∈ newbps
                              ∧ newg !! i
                                = Some (pack_io.refTo
                                          (dist.Info (dist.Descriptor bp))))
        | inl e =>
            omap pack_io.isDownload new
            `prefix_of` filter (λ t, pack_io.isBuildpackID sys t = false)
                          tokens
        end.
Proof.
  induction tokens as [|t tokens IH]; intros bps0 g0 evs evs' r; simpl.
  - intros [= <- <-]. exists []. rewrite app_nil_r. split; [done|].
    exists [], []. rewrite !app_nil_r. split_and!; try done.
  - rewrite filter_cons.
    destruct (pack_io.isBuildpackID sys t) eqn:Hid.
    + rewrite decide_False by done.
      unfold Eff.bind at 1. unfold Eff.modify at 1.
      intros Hrun. apply IH in Hrun as (new & -> & Hr).
      exists (map pack_io.Logged (pack.parseBuildpack t).2 ++ new).
      rewrite <- app_assoc. split; [done|].
      rewrite omap_app, omap_isDownload_Logged. simpl.
      destruct r as [e|[bps group]]; [done|].
      destruct Hr as (newbps & newg & -> & Hg & Hlen & Hdl & Hnb & Hids & Hfs).
      eexists newbps, (_ :: newg). rewrite Hg, <- app_assoc.
      split_and!; [done|done|by simpl; rewrite Hlen|done|done| |].
      * intros [|i] t' Ht' Hid'; simpl in *; [by injection Ht' as <-|eauto].
      * intros [|i] t' Ht' Hid'; simpl in *; [|eauto].
        injection Ht' as <-. congruence.
    + rewrite decide_True by done.
      unfold Eff.bind at 1. unfold Eff.wrapped at 1. unfold pack.check.
      destruct (pack_io.ensureBPSupport sys t) as [e|].
      { unfold Eff.fail. intros [= <- <-]. exists []. rewrite app_nil_r.
        split; [done|]. apply prefix_nil. }
      unfold Eff.ret at 1.
      unfold Eff.bind at 1. unfold Eff.wrapped at 1.
      destruct (pack_io.downloader_Download sys evs t) as [e|blob].
      { intros [= <- <-]. exists [pack_io.Download t]. split; [done|].
        simpl. apply prefix_cons, prefix_nil. }
      unfold Eff.bind at 1. unfold Eff.wrapped at 1. unfold Eff.lift.
      destruct (pack_io.NewBuildpack sys blob) as [e|fetched].
      { intros [= <- <-]. exists [pack_io.Download t]. split; [done|].
        simpl. apply prefix_cons, prefix_nil. }
      intros Hrun. apply IH in Hrun as (new & -> & Hr).
      exists (pack_io.Download t :: new). rewrite <- app_assoc.
      split; [done|]. simpl.
      destruct r as [e|[bps group]]; [by apply prefix_cons|].
      destruct Hr as (newbps & newg & -> & Hg & Hlen & Hdl & Hnb & Hids & Hfs).
      eexists (fetched :: newbps), (_ :: newg). rewrite Hg, <- !app_assoc.
      split_and!; [done|done|by simpl; rewrite Hlen|f_equal; exact Hdl
                  |by simpl; rewrite Hnb| |].
      * intros [|i] t' Ht' Hid'; simpl in *; [|eauto].
        injection Ht' as <-. congruence.
      * intros [|i] t' Ht' Hid'; simpl in *.
        -- exists fetched. split; [left|done].
        -- destruct (Hfs i t' Ht' Hid') as (bp & Hbp & Hlook).
           exists bp. split; [by right|done].
Qed.

Lemma processBuildpacks_from_ids tokens :
  Forall (λ t, pack_io.isBuildpackID sys t = true) tokens →
  ∀ bps0 g0 evs,
    pack_io.processBuildpacks_from sys tokens bps0 g0 evs
    = (evs ++ map pack_io.Logged (tokens ≫= λ t, (pack.parseBuildpack t).2),
       inr (bps0,
            {| dist.Group :=
                 g0 ++ map (λ t,
                              pack_io.refTo
                                {| dist.ID := (pack.parseBuildpack t).1.1;
                                   dist.Version :=
                                     (pack.parseBuildpack t).1.2 |})
                         tokens |})).
Proof.
  induction 1 as [|t tokens Hid _ IH]; intros bps0 g0 evs; simpl.
  - by rewrite !app_nil_r.
  - rewrite Hid. unfold Eff.bind at 1. unfold Eff.modify at 1.
    rewrite IH. by rewrite map_app, <- !app_assoc.
Qed.

(** Where the loop of [processBuildpacks] fails. *)
Lemma processBuildpacks_from_fails tokens :
  ∀ bps0 g0 evs evs' e,
    pack_io.processBuildpacks_from sys tokens bps0 g0 evs = (evs', inl e) →
    ∃ before t after past bps group,
      tokens = before ++ t :: after
      ∧ pack_io.isBuildpackID sys t = false
      ∧ pack_io.processBuildpacks_from sys before bps0 g0 evs
        = (evs ++ past, inr (bps, group))
      ∧ match pack_io.ensureBPSupport sys t with
        | Some err =>
            evs' = evs ++ past
            ∧ e = Eff.Wrap err "checking buildpack path"
        | None =>
            evs' = evs ++ past ++ [pack_io.Download t]
            ∧ match pack_io.downloader_Download sys (evs ++ past) t with
              | inl err =>
                  e = Eff.Wrap err
                        ("downloading buildpack from "
                         +:+ pack_io.Symbol sys t)
              | inr blob =>
                  ∃ err,
                    pack_io.NewBuildpack sys blob = inl err
                    ∧ e = Eff.Wrap err
                            ("creating buildpack from "
                             +:+ pack_io.Symbol sys t)
              end
        end.
Proof.
  induction tokens as [|t tokens IH]; intros bps0 g0 evs evs' e; simpl;
    [done|].
  destruct (pack_io.isBuildpackID sys t) eqn:Hid.
  - unfold Eff.bind at 1. unfold Eff.modify at 1.
    intros Hrun.
    apply IH in Hrun
      as (before & t' & after & past & bps & group & -> & Hid' & Hbefore & H).
    exists (t :: before), t', after,
      (map pack_io.Logged (pack.parseBuildpack t).2 ++ past), bps, group.
    split_and!; [done|done| |].
    + simpl. rewrite Hid. unfold Eff.bind at 1. unfold Eff.modify at 1.
      rewrite Hbefore. by rewrite <- app_assoc.
    + rewrite <- !app_assoc in H. by rewrite !app_assoc, <- !app_assoc.
  - unfold Eff.bind at 1. unfold Eff.wrapped at 1. unfold pack.check.
    destruct (pack_io.ensureBPSupport sys t) as [err|] eqn:Hsup.
    { unfold Eff.fail. intros [= <- <-].
      exists [], t, tokens, [], bps0, {| dist.Group := g0 |}.
      rewrite Hsup, app_nil_r. by split_and!. }
    unfold Eff.ret at 1.
    unfold Eff.bind at 1. unfold Eff.wrapped at 1.
    destruct (pack_io.downloader_Download sys evs t) as [err|blob] eqn:Hdl.
    { intros [= <- <-].
      exists [], t, tokens, [], bps0, {| dist.Group := g0 |}.
      rewrite Hsup, !app_nil_r, Hdl. by split_and!. }
    unfold Eff.bind at 1. unfold Eff.wrapped at 1. unfold Eff.lift.
    destruct (pack_io.NewBuildpack sys blob) as [err|fetched] eqn:Hnew.
    { intros [= <- <-].
      exists [], t, tokens, [], bps0, {| dist.Group := g0 |}.
      rewrite Hsup, !app_nil_r, Hdl. split_and!; [done..|].
      by exists err. }
    intros Hrun.
    apply IH in Hrun
      as (before & t' & after & past & bps & group & -> & Hid' & Hbefore & H).
    exists (t :: before), t', after, (pack_io.Download t :: past), bps, group.
    split_and!; [done|done| |].
    + simpl. rewrite Hid. unfold Eff.bind at 1. unfold Eff.wrapped at 1.
      unfold pack.check. rewrite Hsup. unfold Eff.ret at 1.
      unfold Eff.bind at 1. unfold Eff.wrapped at 1. rewrite Hdl.
      unfold Eff.bind at 1. unfold Eff.wrapped at 1. unfold Eff.lift.
      rewrite Hnew, Hbefore. by rewrite <- app_assoc.
    + rewrite <- !app_assoc in H. exact H.
Qed.

End processBuildpacks_lemmas.

(** X24.  When [processBuildpacks] succeeds, the group has one entry per
    token, in the order of the tokens: for a token taken as an ID, the ID
    and version [parseBuildpack] reads from it; for any other token, the
    identity of a buildpack that was fetched.  Exactly the tokens that are
    not IDs were downloaded, once each and in order, and as many buildpacks
    are returned. *)
Theorem processBuildpacks_success (sys : pack_io.System)
    (tokens : list string) (evs evs' : list pack_io.event)
    (bps : list dist.Buildpack) (group : dist.OrderEntry) :
  pack_io.processBuildpacks sys tokens evs = (evs', inr (bps, group)) →
  length (dist.Group group) = length tokens
  ∧ length bps
    = length (filter (λ t, pack_io.isBuildpackID sys t = false) tokens)
  ∧ (∃ new, evs' = evs ++ new
            ∧ omap pack_io.isDownload new
              = filter (λ t, pack_io.isBuildpackID sys t = false) tokens)
  ∧ (∀ i t, tokens !! i = Some t →
            pack_io.isBuildpackID sys t = true →
            dist.Group group !! i
            = Some (pack_io.refTo
                      {| dist.ID := (pack.parseBuildpack t).1.1;
                         dist.Version := (pack.parseBuildpack t).1.2 |}))
  ∧ (∀ i t, tokens !! i = Some t →
            pack_io.isBuildpackID sys t = false →
            ∃ bp, bp ∈ bps
                  ∧ dist.Group group !! i
                    = Some (pack_io.refTo (dist.Info (dist.Descriptor bp)))).
Proof.
  intros Hrun. apply processBuildpacks_from_run in Hrun as (new & -> & Hr).
  destruct Hr as (newbps & newg & -> & Hg & Hlen & Hdl & Hnb & Hids & Hfs).
  rewrite Hg. simpl. split_and!; [done|done|by exists new|done|done].
Qed.

Lemma processBuildpacks_success_witness :
  ∃ bps group,
    (pack_io.processBuildpacks (samples.system "linux")
       ["bp.1.id@1.0"; "/buildpacks/bp1"] []).2 = inr (bps, group)
    ∧ length (dist.Group group) = 2
    ∧ length bps = 1.
Proof.
  destruct (pack_io.processBuildpacks (samples.system "linux")
              ["bp.1.id@1.0"; "/buildpacks/bp1"] [])
    as [evs' [e|[bps group]]] eqn:E.
  - exfalso. vm_compute in E. discriminate E.
  - exists bps, group. split; [reflexivity|].
    destruct (processBuildpacks_success (samples.system "linux")
                ["bp.1.id@1.0"; "/buildpacks/bp1"] [] evs' bps group E)
      as (H1 & H2 & _).
    split; [exact H1|exact H2].
Defined.

(** X25.  Tokens that are all taken as IDs are never checked, downloaded
    or read, and cannot fail: [processBuildpacks] returns no buildpack and
    the group of the parsed IDs, having only logged the deprecation
    warnings of the tokens ending in [@latest].  In particular no token
    gives the empty group and no buildpack. *)
Theorem processBuildpacks_ids_only (sys : pack_io.System)
    (tokens : list string) (evs : list pack_io.event) :
  Forall (λ t, pack_io.isBuildpackID sys t = true) tokens →
  pack_io.processBuildpacks sys tokens evs
  = (evs ++ map pack_io.Logged (tokens ≫= λ t, (pack.parseBuildpack t).2),
     inr ([],
          {| dist.Group :=
               map (λ t,
                      pack_io.refTo
                        {| dist.ID := (pack.parseBuildpack t).1.1;
                           dist.Version := (pack.parseBuildpack t).1.2 |})
                 tokens |})).
Proof.
  intros Hids. unfold pack_io.processBuildpacks.
  by rewrite (processBuildpacks_from_ids sys tokens Hids).
Qed.

Lemma processBuildpacks_ids_only_witness :
  pack_io.processBuildpacks (samples.system "linux")
    ["bp.1.id@1.0"; "bp.2.id@latest"; "bp.3.id"] []
  = ([pack_io.Logged
        (pack.Warn
           "@latest syntax is deprecated, will not work in future releases")],
     inr ([],
          {| dist.Group :=
               [pack_io.refTo {| dist.ID := "bp.1.id"; dist.Version := "1.0" |};
                pack_io.refTo {| dist.ID := "bp.2.id"; dist.Version := "" |};
                pack_io.refTo {| dist.ID := "bp.3.id"; dist.Version := "" |}]
          |})).
Proof.
  apply (processBuildpacks_ids_only (samples.system "linux")
           ["bp.1.id@1.0"; "bp.2.id@latest"; "bp.3.id"] []).
  repeat constructor.
Defined.

(** X26.  When [processBuildpacks] fails, it fails at one token, which is
    not taken as an ID.  The tokens before it were handled as they are
    when they come alone, without error; of the failing token nothing is
    done after the step that failed, and of the tokens after it nothing at
    all.  So what was downloaded are the tokens before the failing one
    that are not IDs, in order, and then the failing token itself unless
    it was refused by [ensureBPSupport].  The error is that of the failing
    step, wrapped: the check of the path, the download, or the reading of
    the buildpack. *)
Theorem processBuildpacks_stops_at_failure (sys : pack_io.System)
    (tokens : list string) (evs evs' : list pack_io.event) (e : string) :
  pack_io.processBuildpacks sys tokens evs = (evs', inl e) →
  ∃ before t after past bps group,
    tokens = before ++ t :: after
    ∧ pack_io.isBuildpackID sys t = false
    ∧ pack_io.processBuildpacks sys before evs
      = (evs ++ past, inr (bps, group))
    ∧ omap pack_io.isDownload past
      = filter (λ t, pack_io.isBuildpackID sys t = false) before
    ∧ match pack_io.ensureBPSupport sys t with
      | Some err =>
          evs' = evs ++ past
          ∧ e = Eff.Wrap err "checking buildpack path"
      | None =>
          evs' = evs ++ past ++ [pack_io.Download t]
          ∧ match pack_io.downloader_Download sys (evs ++ past) t with
            | inl err =>
                e = Eff.Wrap err
                      ("downloading buildpack from "
                       +:+ pack_io.Symbol sys t)
            | inr blob =>
                ∃ err,
                  pack_io.NewBuildpack sys blob = inl err
                  ∧ e = Eff.Wrap err
                          ("creating buildpack from "
                           +:+ pack_io.Symbol sys t)
            end
      end.
Proof.
  intros Hrun. apply processBuildpacks_from_fails in Hrun
    as (before & t & after & past & bps & group & Htok & Hid & Hbefore & H).
  exists before, t, after, past, bps, group.
  split_and!; [done|done|done| |done].
  apply processBuildpacks_from_run in Hbefore as (new & Hnew & Hr).
  apply app_inv_head in Hnew as <-.
  by destruct Hr as (newbps & newg & _ & _ & _ & Hdl & _).
Qed.

Lemma processBuildpacks_stops_at_failure_witness :
  ∃ past bps group,
    pack_io.processBuildpacks (samples.system "windows")
      ["bp.3.id"; "/workspace/app.zip"] []
    = (past, inr (bps, group))
    ∧ omap pack_io.isDownload past = ["/workspace/app.zip"]
    ∧ pack_io.processBuildpacks (samples.system "windows")
        ["bp.3.id"; "/workspace/app.zip"; "/buildpacks/bp1";
         "https://example.com/bp.tgz"] []
      = (past,
         inl "checking buildpack path: buildpack '/buildpacks/bp1': directory-based buildpacks are not currently supported on Windows").
Proof.
  destruct (processBuildpacks_stops_at_failure (samples.system "windows")
              ["bp.3.id"; "/workspace/app.zip"; "/buildpacks/bp1";
               "https://example.com/bp.tgz"] []
              [pack_io.Download "/workspace/app.zip"]
              "checking buildpack path: buildpack '/buildpacks/bp1': directory-based buildpacks are not currently supported on Windows")
    as (before & t & after & past & bps & group & Htok & Hid & Hbefore & Hdl
        & H).
  - vm_compute. reflexivity.
  - destruct before as [|t1 before].
    { exfalso. injection Htok as <- _. vm_compute in Hid. discriminate Hid. }
    destruct before as [|t2 before].
    { exfalso. injection Htok as _ <- _. vm_compute in H.
      destruct H as [_ [err [Herr _]]]. discriminate Herr. }
    destruct before as [|t3 before].
    { injection Htok as <- <- _ _. exists past, bps, group.
      split_and!; [exact Hbefore|exact Hdl|].
      vm_compute in Hbefore. injection Hbefore as <- _ _.
      vm_compute. reflexivity. }
    destruct before as [|t4 before].
    { exfalso. injection Htok as <- <- <- _ _. vm_compute in Hbefore.
      discriminate Hbefore. }
    exfalso. injection Htok as _ _ _ _ Hb. by destruct before.
Defined.


(** ** The registry cache *)

(** X27.  [NewRegistryCache] without a pack home returns the empty cache
    and the error, and touches nothing.  With a pack home it returns,
    whether or not an error comes with it, the cache of the default
    registry URL in the [registry] directory of the pack home, after
    looking once whether that directory exists.  It clones the registry
    into the directory exactly when the directory does not exist, never
    over an existing one nor when the look-up failed for another reason;
    and it returns no error exactly when the directory exists or was
    missing and could be cloned. *)
Theorem NewRegistryCache_clones_when_missing (sys : registry.System)
    (evs : list registry.event) :
  match registry.PackHome sys with
  | inl err =>
      registry.NewRegistryCache sys evs
      = (evs, ({| registry.URL := ""; registry.Path := "" |}, Some err))
  | inr home =>
      ∃ new err,
        registry.NewRegistryCache sys evs
        = (evs ++ registry.Stat (registry.Join sys home "registry") :: new,
           ({| registry.URL := "https://github.com/jkutner/buildpack-registry";
               registry.Path := registry.Join sys home "registry" |}, err))
        ∧ (new = [] ∨ new = [registry.PlainClone
                               (registry.Join sys home "registry") false
                               "https://github.com/jkutner/buildpack-registry"])
        ∧ (new ≠ []
           ↔ ∃ serr, registry.StatErr sys (registry.Join sys home "registry")
                     = Some serr
                     ∧ registry.stat_IsNotExist serr = true)
        ∧ (err = None
           ↔ registry.StatErr sys (registry.Join sys home "registry") = None
             ∨ (new ≠ []
                ∧ registry.CloneErr sys (registry.Join sys home "registry")
                    "https://github.com/jkutner/buildpack-registry" = None))
  end.
Proof.
  unfold registry.NewRegistryCache.
  destruct (registry.PackHome sys) as [err|home]; [done|].
  unfold registry.Initialize, Eff.bind, Eff.modify, Eff.fail, Eff.ret,
    registry.defaultRegistryURL, registry.defaultRegistyDir. simpl.
  destruct (registry.StatErr sys _) as [[msg [|]]|] eqn:Hstat; simpl.
  - destruct (registry.CloneErr sys _ _) as [e|] eqn:Hclone.
    + eexists [_], _. rewrite <- app_assoc. split; [done|].
      split_and!; [by right| |].
      * split; [by eexists|done].
      * split; [done|]. intros [?|[_ ?]]; done.
    + eexists [_], _. rewrite <- app_assoc. split; [done|].
      split_and!; [by right| |].
      * split; [by eexists|done].
      * split; [|done]. intros _. by right.
  - eexists [], _. split; [done|]. split_and!; [by left| |].
    + split; [done|]. by intros (serr & [= <-] & ?).
    + split; [done|]. intros [?|[? _]]; done.
  - eexists [], _. split; [done|]. split_and!; [by left| |].
    + split; [done|]. by intros (serr & ? & ?).
    + split; [|done]. intros _. by left.
Qed.

Lemma NewRegistryCache_clones_when_missing_witness :
  ∃ new err,
    registry.NewRegistryCache samples.registrySystem []
    = ([] ++ registry.Stat "/home/pack/.pack/registry" :: new,
       ({| registry.URL := "https://github.com/jkutner/buildpack-registry";
           registry.Path := "/home/pack/.pack/registry" |}, err))
    ∧ new ≠ [].
Proof.
  destruct (NewRegistryCache_clones_when_missing samples.registrySystem [])
    as (new & err & Hrun & _ & Hnew & _).
  exists new, err. split; [exact Hrun|].
  apply Hnew. eexists. split; reflexivity.
Defined.
